(** * Steel Coil Nesting Optimizer: the client-side program, embedded and verified

    The development follows the TypeScript sources:
    - [types.ts]: the records exchanged between the form, the engine call and
      the exporters;
    - [services/geminiService.ts]: [preprocessData] (grouping and sorting) and
      [runOptimization] (one request to a remote generative model, whose JSON
      reply is returned as it comes);
    - [App.tsx]: [validateParts] and [handleRunOptimization];
    - [services/exportService.ts]: [exportToCsv];
    - [components/ResultsDisplay.tsx], [services/pdfGenerator.ts]: the sheet
      weight shown to the user.

    JavaScript numbers are modelled by their exact values, rationals ([Q]);
    where a statement is about the numeric value of an arithmetic expression
    the binary64 evaluation is given as well (module [Weight]), and the
    drawing and the group card compute with rounded sums and quotients
    (modules [Rounded] and [Binary64]).  The conversions of a number to text
    ([Number::toString], [toFixed]) are built into the language and are
    taken as section variables.

    Further parts of the program follow the same sources:
    [components/PartsTable.tsx] (the rows of the table and the parts file),
    [exportToDxf] of [services/exportService.ts], the waste figures of
    [components/ResultsDisplay.tsx], the errors object of [validateParts]
    with its prototype, and a run from the constructor of the client on. *)

From Stdlib Require Import ZArith QArith Qpower Qround Qabs Floats String Ascii DecimalString List Permutation Sorted Lia Lqa.
From stdpp Require Import gmap strings list sorting.
Import ListNotations.

Local Open Scope string_scope.

(** ** JavaScript numbers, as far as the program uses them *)

Module Num.

(** [a <= b], [a < b], [a > b], [a !== b] on numbers. *)
Definition leb (a b : Q) : bool := Qle_bool a b.
Definition ltb (a b : Q) : bool := negb (Qle_bool b a).
Definition gtb (a b : Q) : bool := ltb b a.
Definition neqb (a b : Q) : bool := negb (Qeq_bool a b).

(** [Number.isInteger]. *)
Definition isInteger (a : Q) : bool := Pos.eqb (Qden (Qred a)) 1.

(** [a || 0] on a number: [0] when [a] is falsy, that is when it is zero. *)
Definition orZero (a : Q) : Q := if Qeq_bool a 0 then 0%Q else a.

End Num.

(** ** [types.ts] *)

Module Part.
Record t := mk {
  id : string;
  width : Q;
  length : Q;
  quantity : Q;
  thickness : Q;
  grade : string;
  projectName : string
}.
End Part.

Module UserParameters.
Record range := mkRange { min : Q; max : Q }.
Record t := mk {
  maxSheetLength : Q;
  kerf : Q;
  candidateCoilWidths : string;  (* comma-separated text, never parsed *)
  rollWeightRange : range;
  algorithm : string
}.
End UserParameters.

Module PartError.
Record t := mk {
  width : option string;
  length : option string;
  quantity : option string;
  thickness : option string;
  grade : option string;
  projectName : option string
}.
Definition empty : t := mk None None None None None None.
(** whether a key is present *)
Definition isSet (field : option string) : bool :=
  match field with Some _ => true | None => false end.
End PartError.

(** [Part & { area: number, exceedsSheetLength: boolean }] *)
Module GroupedPart.
Record t := mk {
  part : Part.t;
  area : Q;
  exceedsSheetLength : bool
}.
Definition width (a : t) : Q := Part.width (part a).
Definition length (a : t) : Q := Part.length (part a).
End GroupedPart.

Module MaterialGroup.
Record t := mk {
  materialKey : string;
  thickness : Q;
  grade : string;
  parts : list GroupedPart.t
}.
Definition withParts (g : t) (ps : list GroupedPart.t) : t :=
  mk (materialKey g) (thickness g) (grade g) ps.
End MaterialGroup.

Module NestedPart.
Record t := mk {
  partId : string;
  x : Q;
  y : Q;
  width : Q;
  length : Q;
  rotated : bool
}.
End NestedPart.

Module SheetLayout.
Record t := mk {
  sheetNumber : Q;
  width : Q;
  length : Q;
  nestedParts : list NestedPart.t;
  wastePercentage : Q
}.
End SheetLayout.

Module OptimizationGroupResult.
Record t := mk {
  materialKey : string;
  thickness : Q;
  grade : string;
  totalPartsNested : Q;
  totalSheetsUsed : Q;
  averageWastePercentage : Q;
  layouts : list SheetLayout.t
}.
End OptimizationGroupResult.

Module OptimizationResult.
Record summary_t := mkSummary {
  totalParts : Q;
  totalPartsNested : Q;
  numberOfGroups : Q;
  overallWastePercentage : Q
}.
Record t := mk {
  summary : summary_t;
  resultsByGroup : list OptimizationGroupResult.t
}.
End OptimizationResult.

(** ** JavaScript objects and arrays, as far as the program uses them *)

(** A plain object used as a dictionary whose values are listed with
    [Object.values]: the entries in insertion order.  (The order of
    [Object.values] is insertion order for every key that is not a canonical
    array index; the keys of [preprocessData] end in "mm", see
    [materialKeyOf_suffix] below.) *)
Module Obj.
Section Obj.
Context {V : Type}.

Definition t := list (string * V).

(** [acc[key]] *)
Fixpoint get (key : string) (acc : t) : option V :=
  match acc with
  | [] => None
  | (k, v) :: rest => if String.eqb k key then Some v else get key rest
  end.

(** [acc[key] = v] *)
Fixpoint set (key : string) (v : V) (acc : t) : t :=
  match acc with
  | [] => [(key, v)]
  | (k, w) :: rest =>
      if String.eqb k key then (k, v) :: rest else (k, w) :: set key v rest
  end.

(** an in-place update of the object held under [key] *)
Fixpoint update (key : string) (f : V -> V) (acc : t) : t :=
  match acc with
  | [] => []
  | (k, w) :: rest =>
      if String.eqb k key then (k, f w) :: rest else (k, w) :: update key f rest
  end.

(** [Object.values(acc)], [Object.keys(acc)] *)
Definition values (acc : t) : list V := map snd acc.
Definition keys (acc : t) : list string := map fst acc.

End Obj.
Arguments t : clear implicits.
End Obj.

(** [Array.prototype.sort(compareFn)].  ECMAScript fixes the outcome for a
    consistent comparator: the elements in ascending order of [compareFn],
    elements that compare equal staying in their original order.  That list
    is computed here by stable insertion; [Array_sort_unique] shows that no
    other list meets the specification. *)
Section ArraySort.
Context {A : Type}.
Variable compareFn : A -> A -> Q.

Fixpoint sort_insert (a : A) (sorted : list A) : list A :=
  match sorted with
  | [] => [a]
  | b :: rest =>
      if Num.leb (compareFn a b) 0 then a :: b :: rest
      else b :: sort_insert a rest
  end.

Definition Array_sort (l : list A) : list A := foldr sort_insert [] l.

(** [a] may stand before [b]: [compareFn(a, b) <= 0]. *)
Definition mayPrecede (a b : A) : Prop := (compareFn a b <= 0)%Q.

(** [a] and [b] compare equal. *)
Definition ties (a b : A) : bool :=
  Num.leb (compareFn a b) 0 && Num.leb (compareFn b a) 0.

End ArraySort.

(** ** [services/geminiService.ts]: [preprocessData] *)

Section Preprocess.
Variable Number_toString : Q -> string.

(** [`${part.grade}_${part.thickness}mm`] *)
Definition materialKeyOf (part : Part.t) : string :=
  Part.grade part ++ "_" ++ Number_toString (Part.thickness part) ++ "mm".

(** The body of the [reduce] callback. *)
Definition groupStep (maxSheetLength : Q)
    (acc : Obj.t MaterialGroup.t) (part : Part.t) : Obj.t MaterialGroup.t :=
  let key := materialKeyOf part in
  let acc :=
    match Obj.get key acc with
    | None =>
        Obj.set key
          (MaterialGroup.mk key (Part.thickness part) (Part.grade part) []) acc
    | Some _ => acc
    end in
  let area := (Part.width part * Part.length part)%Q in
  Obj.update key
    (fun g => MaterialGroup.withParts g
       (MaterialGroup.parts g ++
          [GroupedPart.mk part area
             (Num.gtb (Part.length part) maxSheetLength)]))
    acc.

(** The comparator handed to [group.parts.sort]. *)
Definition compareParts (a b : GroupedPart.t) : Q :=
  if Num.neqb (GroupedPart.width b) (GroupedPart.width a)
  then (GroupedPart.width b - GroupedPart.width a)%Q
  else if Num.neqb (GroupedPart.area b) (GroupedPart.area a)
  then (GroupedPart.area b - GroupedPart.area a)%Q
  else (GroupedPart.length b - GroupedPart.length a)%Q.

(** What [{ ...part, area, exceedsSheetLength }] holds for [part]. *)
Definition annotate (maxSheetLength : Q) (part : Part.t) : GroupedPart.t :=
  GroupedPart.mk part (Part.width part * Part.length part)%Q
    (Num.gtb (Part.length part) maxSheetLength).

Definition sortGroup (g : MaterialGroup.t) : MaterialGroup.t :=
  MaterialGroup.withParts g (Array_sort compareParts (MaterialGroup.parts g)).

Definition preprocessData (parts : list Part.t) (maxSheetLength : Q)
  : list MaterialGroup.t :=
  let groups := fold_left (groupStep maxSheetLength) parts [] in
  let groups := map (fun kv => (fst kv, sortGroup (snd kv))) groups in
  Obj.values groups.

End Preprocess.

(** ** [services/geminiService.ts]: [runOptimization] *)

(** The four texts selected by the [switch] on [parameters.algorithm]. *)
Inductive AlgorithmInstruction :=
| GeneticAlgorithmInstruction
| SimulatedAnnealingInstruction
| BZ12Instruction
| MockEngineInstruction.

Definition algorithmInstruction (algorithm : string) : AlgorithmInstruction :=
  if String.eqb algorithm "Genetic Algorithm" then GeneticAlgorithmInstruction
  else if String.eqb algorithm "Simulated Annealing" then SimulatedAnnealingInstruction
  else if String.eqb algorithm "BZ12" then BZ12Instruction
  else MockEngineInstruction.

(** What the prompt is made of: a fixed template into which the chosen
    instruction, the parameters and the grouped parts are interpolated. *)
Record Prompt := mkPrompt {
  prompt_instruction : AlgorithmInstruction;
  prompt_parameters : UserParameters.t;
  prompt_materialGroups : list MaterialGroup.t
}.

(** What comes back from [ai.models.generateContent] followed by
    [JSON.parse(response.text.trim())]: either something is thrown (with a
    message when it is an [Error]), or a value is parsed, which the program
    takes to be an [OptimizationResult] without looking at it. *)
Inductive Reply :=
| Thrown (message : option string)
| Parsed (result : OptimizationResult.t).

Inductive Outcome :=
| Throws (message : string)
| Returns (result : OptimizationResult.t).

(** The calls a run makes, in order. *)
Inductive Event :=
| CallPreprocessData (parts : list Part.t) (maxSheetLength : Q)
| CallGenerateContent (prompt : Prompt).

(** [haystack.includes(needle)] *)
Definition includes (haystack needle : string) : bool :=
  match String.index 0 needle haystack with
  | Some _ => true
  | None => false
  end.

Definition invalidApiKeyMessage : string :=
  "Invalid or missing API Key. Please ensure it is set correctly.".
Definition noValidResponseMessage : string :=
  "Failed to get a valid response from the optimization engine.".

Section Engine.
Variable Number_toString : Q -> string.

(** [generateContent] is the remote model as it answers during this call;
    setting up the client ([new GoogleGenAI]) is taken to succeed.  The run
    from the constructor of the client on is [FromClient.runOptimization]. *)
Definition runOptimization (generateContent : Prompt -> Reply)
    (parts : list Part.t) (parameters : UserParameters.t)
  : list Event * Outcome :=
  let maxSheetLength := UserParameters.maxSheetLength parameters in
  let materialGroups := preprocessData Number_toString parts maxSheetLength in
  let prompt :=
    mkPrompt (algorithmInstruction (UserParameters.algorithm parameters))
      parameters materialGroups in
  ([CallPreprocessData parts maxSheetLength; CallGenerateContent prompt],
   match generateContent prompt with
   | Parsed result => Returns result
   | Thrown (Some message) =>
       if includes message "API_KEY" then Throws invalidApiKeyMessage
       else Throws noValidResponseMessage
   | Thrown None => Throws noValidResponseMessage
   end).

End Engine.

(** ** [App.tsx] *)

Definition mustBePositive : string := "ต้องมากกว่า 0".
Definition mustBePositiveInteger : string := "ต้องเป็นจำนวนเต็มบวก".
Definition mustNotBeEmpty : string := "ต้องไม่ว่างเปล่า".
Definition fixTableFirst : string := "กรุณาแก้ไขข้อผิดพลาดในตารางก่อนดำเนินการ".

(** [!s] on a string. *)
Definition isEmptyString (s : string) : bool :=
  match s with EmptyString => true | _ => false end.

(** The [partErrors] object built for one part. *)
Definition partErrorsOf (part : Part.t) : PartError.t :=
  PartError.mk
    (if Num.leb (Part.width part) 0 then Some mustBePositive else None)
    (if Num.leb (Part.length part) 0 then Some mustBePositive else None)
    (if negb (Num.isInteger (Part.quantity part))
        || Num.leb (Part.quantity part) 0
     then Some mustBePositiveInteger else None)
    (if Num.leb (Part.thickness part) 0 then Some mustBePositive else None)
    (if isEmptyString (Part.grade part) then Some mustNotBeEmpty else None)
    (if isEmptyString (Part.projectName part) then Some mustNotBeEmpty else None).

(** [Object.keys(partErrors).length > 0] *)
Definition hasKeys (e : PartError.t) : bool :=
  PartError.isSet (PartError.width e) || PartError.isSet (PartError.length e)
  || PartError.isSet (PartError.quantity e) || PartError.isSet (PartError.thickness e)
  || PartError.isSet (PartError.grade e) || PartError.isSet (PartError.projectName e).

(** The body of the [forEach] callback of [validateParts]: the state is
    [(newErrors, hasErrors)].  The assignment [newErrors[part.id] = ...] is
    an insertion in a dictionary, which is what it does for every id but
    [__proto__]; [ErrorsObject.validateStep] has that id too. *)
Definition validateStep (st : gmap string PartError.t * bool) (part : Part.t)
  : gmap string PartError.t * bool :=
  let partErrors := partErrorsOf part in
  if hasKeys partErrors
  then (<[Part.id part := partErrors]> (fst st), true)
  else st.

(** [validateParts]: the errors it stores with [setErrors] and the boolean it
    returns. *)
Definition validateParts (parts : list Part.t)
  : gmap string PartError.t * bool :=
  let '(newErrors, hasErrors) := fold_left validateStep parts (∅, false) in
  (newErrors, negb hasErrors).

(** The React state [handleRunOptimization] writes to. *)
Record AppState := mkAppState {
  errors : gmap string PartError.t;
  optimizationResult : option OptimizationResult.t;
  isLoading : bool;
  apiError : option string
}.

Section App.
Variable Number_toString : Q -> string.

Definition handleRunOptimization (generateContent : Prompt -> Reply)
    (parts : list Part.t) (parameters : UserParameters.t) (st : AppState)
  : list Event * AppState :=
  let '(newErrors, valid) := validateParts parts in
  if negb valid then
    ([], mkAppState newErrors (optimizationResult st) (isLoading st)
           (Some fixTableFirst))
  else
    let '(calls, outcome) :=
      runOptimization Number_toString generateContent parts parameters in
    match outcome with
    | Returns result => (calls, mkAppState newErrors (Some result) false None)
    | Throws message => (calls, mkAppState newErrors None false (Some message))
    end.

End App.

(** ** [services/exportService.ts]: [exportToCsv] *)

(** An element of the array that [row.join(",")] turns into text. *)
Inductive Cell :=
| Text (s : string)
| Number (n : Q).

Definition csvHeader : list string :=
  ["Material Group"; "Thickness (mm)"; "Grade";
   "Sheet Number"; "Sheet Width (mm)"; "Sheet Length (mm)";
   "Part ID"; "Part Width (mm)"; "Part Length (mm)";
   "X"; "Y"; "Rotated"; "Sheet Waste %"].

(** [`"${s}"`] *)
Definition doubleQuote : string := String "034"%char EmptyString.
Definition quoted (s : string) : string := doubleQuote ++ s ++ doubleQuote.

Section CsvExport.
Variable Number_toString : Q -> string.
Variable Number_toFixed : nat -> Q -> string.

Definition cellText (c : Cell) : string :=
  match c with
  | Text s => s
  | Number n => Number_toString n
  end.

(** [cells.join(",")] *)
Definition joinCells (cells : list Cell) : string :=
  String.concat "," (map cellText cells).

(** The [row] array built for one nested part. *)
Definition csvRow (group : OptimizationGroupResult.t) (layout : SheetLayout.t)
    (part : NestedPart.t) : list Cell :=
  [ Text (quoted (OptimizationGroupResult.materialKey group));
    Number (OptimizationGroupResult.thickness group);
    Text (quoted (OptimizationGroupResult.grade group));
    Number (SheetLayout.sheetNumber layout);
    Number (SheetLayout.width layout);
    Number (SheetLayout.length layout);
    Text (quoted (NestedPart.partId part));
    Number (Num.orZero (NestedPart.width part));
    Number (Num.orZero (NestedPart.length part));
    Number (NestedPart.x part);
    Number (NestedPart.y part);
    Text (if NestedPart.rotated part then "TRUE" else "FALSE");
    Text (Number_toFixed 2 (SheetLayout.wastePercentage layout)) ].

(** The array [rows] when the three nested [forEach] loops are over; every
    [rows.push] appends at the end. *)
Definition csvRows (result : OptimizationResult.t) : list string :=
  let rows := [String.concat "," csvHeader] in
  fold_left (fun (rows : list string) group =>
    fold_left (fun (rows : list string) layout =>
      fold_left (fun (rows : list string) part =>
        (rows ++ [joinCells (csvRow group layout part)])%list)
        (SheetLayout.nestedParts layout) rows)
      (OptimizationGroupResult.layouts group) rows)
    (OptimizationResult.resultsByGroup result) rows.

(** The text offered for download as [nesting_results.csv]. *)
Definition exportToCsv (result : OptimizationResult.t) : string :=
  String.concat (String "010"%char EmptyString) (csvRows result).

End CsvExport.

(** ** The sheet weight: [GroupResultCard] and [exportToPdf] *)

Module Weight.

Definition steelDensityKgPerM3 : Q := 7850.

(** [(layout.width / 1000) * (layout.length / 1000) * (group.thickness / 1000)
    * steelDensityKgPerM3], the same expression in both files. *)
Definition weightKg (width length thickness : Q) : Q :=
  ((width / 1000) * (length / 1000) * (thickness / 1000) * steelDensityKgPerM3)%Q.

(** The formula of the prompt and of the specification:
    [Width (mm) * Length (mm) * Thickness (mm) * 0.00000785]. *)
Definition formulaKg (width length thickness : Q) : Q :=
  (width * length * thickness * (785 # 100000000))%Q.

(** The two expressions as the program evaluates them, in binary64. *)
Definition weightKg64 (width length thickness : float) : float :=
  ((width / 1000) * (length / 1000) * (thickness / 1000) * 7850)%float.

Definition formulaKg64 (width length thickness : float) : float :=
  (width * length * thickness * (785 / 100000000))%float.

(** [x.toFixed(2)] for a finite [x >= 0], as the number of hundredths it
    prints: the integer [n] with [n / 100] nearest to the exact value of
    [x], the larger one when two are equally near. *)
Definition toFixed2 (x : float) : option Z :=
  match Prim2SF x with
  | S754_zero _ => Some 0%Z
  | S754_finite false m e =>
      Some (match e with
            | Zneg k => (200 * Z.pos m + 2 ^ Z.pos k) / 2 ^ (Z.pos k + 1)
            | _ => 100 * Z.pos m * 2 ^ e
            end)%Z
  | _ => None
  end.

End Weight.

(** ** The properties the specification asks of a result *)

Module Invariant.

(** [rotated ? length : width] and [rotated ? width : length] *)
Definition effectiveWidth (p : NestedPart.t) : Q :=
  if NestedPart.rotated p then NestedPart.length p else NestedPart.width p.
Definition effectiveLength (p : NestedPart.t) : Q :=
  if NestedPart.rotated p then NestedPart.width p else NestedPart.length p.

(** [x, y >= 0], [x + effectiveWidth <= sheet.width],
    [y + effectiveLength <= sheet.length] *)
Definition insideSheet (sheet : SheetLayout.t) (p : NestedPart.t) : bool :=
  Num.leb 0 (NestedPart.x p) && Num.leb 0 (NestedPart.y p)
  && Num.leb (NestedPart.x p + effectiveWidth p) (SheetLayout.width sheet)
  && Num.leb (NestedPart.y p + effectiveLength p) (SheetLayout.length sheet).

(** Two boxes, each inflated by [kerf / 2] on every side, have no interior
    point in common: they are at least [kerf] apart along [x] or along [y]. *)
Definition kerfApart (kerf : Q) (p q : NestedPart.t) : bool :=
  Num.leb (NestedPart.x p + effectiveWidth p + kerf) (NestedPart.x q)
  || Num.leb (NestedPart.x q + effectiveWidth q + kerf) (NestedPart.x p)
  || Num.leb (NestedPart.y p + effectiveLength p + kerf) (NestedPart.y q)
  || Num.leb (NestedPart.y q + effectiveLength q + kerf) (NestedPart.y p).

(** every pair of entries at distinct positions *)
Fixpoint pairwise {A : Type} (ok : A -> A -> bool) (l : list A) : bool :=
  match l with
  | [] => true
  | a :: rest => forallb (ok a) rest && pairwise ok rest
  end.

Definition placementsOk (kerf : Q) (sheet : SheetLayout.t) : bool :=
  forallb (insideSheet sheet) (SheetLayout.nestedParts sheet)
  && pairwise (kerfApart kerf) (SheetLayout.nestedParts sheet).

Definition allSheets (ok : OptimizationGroupResult.t -> SheetLayout.t -> bool)
    (result : OptimizationResult.t) : bool :=
  forallb (fun group => forallb (ok group) (OptimizationGroupResult.layouts group))
    (OptimizationResult.resultsByGroup result).

(** C3 as a test on a result. *)
Definition placementsValid (parameters : UserParameters.t)
    (result : OptimizationResult.t) : bool :=
  allSheets (fun _ sheet => placementsOk (UserParameters.kerf parameters) sheet)
    result.

(** [width . length . thickness . density], in kg *)
Definition sheetWeight (group : OptimizationGroupResult.t) (sheet : SheetLayout.t) : Q :=
  Weight.formulaKg (SheetLayout.width sheet) (SheetLayout.length sheet)
    (OptimizationGroupResult.thickness group).

Definition withinCeiling (parameters : UserParameters.t) (sheet : SheetLayout.t) : bool :=
  Num.leb (SheetLayout.length sheet) (UserParameters.maxSheetLength parameters).

Definition isCandidateWidth (widths : list Q) (sheet : SheetLayout.t) : bool :=
  existsb (Qeq_bool (SheetLayout.width sheet)) widths.

Definition inWeightWindow (parameters : UserParameters.t)
    (group : OptimizationGroupResult.t) (sheet : SheetLayout.t) : bool :=
  let range := UserParameters.rollWeightRange parameters in
  Num.leb (UserParameters.min range) (sheetWeight group sheet)
  && Num.leb (sheetWeight group sheet) (UserParameters.max range).

(** every sheet but the last of the group *)
Fixpoint allButLast {A : Type} (ok : A -> bool) (l : list A) : bool :=
  match l with
  | [] => true
  | [_] => true
  | a :: rest => ok a && allButLast ok rest
  end.

(** C2 as a test on a result; [widths] is the set of numbers that
    [candidateCoilWidths] stands for. *)
Definition sheetsWithinBounds (parameters : UserParameters.t) (widths : list Q)
    (result : OptimizationResult.t) : bool :=
  allSheets (fun _ sheet =>
      withinCeiling parameters sheet && isCandidateWidth widths sheet) result
  && forallb (fun group =>
       allButLast (inWeightWindow parameters group)
         (OptimizationGroupResult.layouts group))
     (OptimizationResult.resultsByGroup result).

(** the part ids placed on some sheet of the result *)
Definition placedIds (result : OptimizationResult.t) : list string :=
  flat_map (fun group =>
    flat_map (fun sheet => map NestedPart.partId (SheetLayout.nestedParts sheet))
      (OptimizationGroupResult.layouts group))
    (OptimizationResult.resultsByGroup result).

End Invariant.

(** ** Decimal text of a number, for running the program on sample data

    [Number::toString] and [toFixed] for the numbers that print in plain
    decimal notation (integers and short decimals). *)

Module Decimal.

Definition ofZ (z : Z) : string := NilZero.string_of_int (Z.to_int z).

(** the digits of [r / d] after the point, for [0 <= r < d] *)
Fixpoint fraction (fuel : nat) (r d : Z) : string :=
  match fuel with
  | O => EmptyString
  | S fuel =>
      if (r =? 0)%Z then EmptyString
      else ofZ (10 * r / d) ++ fraction fuel (10 * r mod d) d
  end.

Definition toString (q : Q) : string :=
  let n := Qnum (Qred q) in
  let d := Z.pos (Qden (Qred q)) in
  let sign := if (n <? 0)%Z then "-" else EmptyString in
  let a := Z.abs n in
  if (d =? 1)%Z then sign ++ ofZ a
  else sign ++ ofZ (a / d) ++ "." ++ fraction 17 (a mod d) d.

Fixpoint zeros (n : nat) : string :=
  match n with
  | O => EmptyString
  | S n => "0" ++ zeros n
  end.

Definition toFixed (digits : nat) (q : Q) : string :=
  let scale := (10 ^ Z.of_nat digits)%Z in
  let sign := if Num.ltb q 0 then "-" else EmptyString in
  let n := Qfloor (Qabs q * inject_Z scale + (1 # 2)) in
  let f := ofZ (n mod scale) in
  sign ++ ofZ (n / scale) ++
  match digits with
  | O => EmptyString
  | _ => "." ++ zeros (digits - String.length f) ++ f
  end.

End Decimal.

(** ** Sample data: the form's initial state, and replies of the service *)

Module Sample.

Definition initialParameters : UserParameters.t :=
  UserParameters.mk 18000 5
    "1200, 1250, 1300, 1350, 1400, 1450, 1500, 1550, 1600, 1650, 1700, 1750, 1800, 1850, 1900, 1950, 2000, 2050, 2100"
    (UserParameters.mkRange 4000 5500)
    "Standard Simulation".

Definition candidateWidths : list Q :=
  [1200; 1250; 1300; 1350; 1400; 1450; 1500; 1550; 1600; 1650; 1700; 1750;
   1800; 1850; 1900; 1950; 2000; 2050; 2100]%Q.

Definition partA : Part.t := Part.mk "a" 1000 2500 10 2 "SS400" "Project A".
Definition partB : Part.t := Part.mk "b" 500 1500 20 2 "SS400" "Project A".
Definition partC : Part.t := Part.mk "c" 800 13000 5 3 "A36" "Project B".
Definition initialParts : list Part.t := [partA; partB; partC].

(** a part longer than [maxSheetLength] *)
Definition partLong : Part.t := Part.mk "long" 800 20000 1 3 "A36" "Project B".

(** parts that differ only in fields the comparator does not read *)
Definition partB' : Part.t := Part.mk "b2" 500 1500 7 2 "SS400" "Project C".
Definition partHalf : Part.t := Part.mk "h" 1000 2500 1 (3 # 2) "SS400" "Project A".

(** a freshly added row, as [addRow] makes it *)
Definition partBlank : Part.t := Part.mk "new" 0 0 1 0 EmptyString EmptyString.
Definition partFraction : Part.t := Part.mk "f" 1000 2500 (5 # 2) 2 "SS400" "Project A".
Definition partNoGrade : Part.t := Part.mk "g" 1000 2500 10 2 EmptyString "Project A".

(** several materials, a tie, and an over-long part *)
Definition mixedParts : list Part.t :=
  [partA; partB; partC; partLong; partB'; partHalf].

(** a table with a blank row and a fractional quantity *)
Definition faultyParts : list Part.t := [partA; partBlank; partFraction].

Definition initialState : AppState := mkAppState ∅ None false None.

Definition summaryOf (n : Q) : OptimizationResult.summary_t :=
  OptimizationResult.mkSummary n n 1 10.

(** two instances of [partA], one above the other and 5 mm apart, on a
    sheet of 1500 x 5010 *)
Definition sheetGood : SheetLayout.t :=
  SheetLayout.mk 1 1500 5010
    [NestedPart.mk "a" 0 0 1000 2500 false;
     NestedPart.mk "a" 0 2505 1000 2500 false]
    (334 # 10).

Definition replyGood : OptimizationResult.t :=
  OptimizationResult.mk (summaryOf 2)
    [OptimizationGroupResult.mk "SS400_2mm" 2 "SS400" 2 1 (334 # 10) [sheetGood]].

(** a sheet longer than the ceiling, of a width that is no candidate *)
Definition sheetTooLong : SheetLayout.t :=
  SheetLayout.mk 1 999 20000 [NestedPart.mk "c" 0 0 800 13000 false] (48 # 1).

Definition replyTooLong : OptimizationResult.t :=
  OptimizationResult.mk (summaryOf 1)
    [OptimizationGroupResult.mk "A36_3mm" 3 "A36" 1 1 48 [sheetTooLong]].

(** two parts placed on top of each other, one of them past the edge *)
Definition sheetOverlap : SheetLayout.t :=
  SheetLayout.mk 1 1500 2600
    [NestedPart.mk "a" 0 0 1000 2500 false;
     NestedPart.mk "a" 600 100 1000 2500 false]
    (10 # 1).

Definition replyOverlap : OptimizationResult.t :=
  OptimizationResult.mk (summaryOf 2)
    [OptimizationGroupResult.mk "SS400_2mm" 2 "SS400" 2 1 10 [sheetOverlap]].

(** the over-long part placed on a sheet *)
Definition sheetWithLong : SheetLayout.t :=
  SheetLayout.mk 1 1200 18000 [NestedPart.mk "long" 0 0 800 20000 false] (26 # 1).

Definition replyWithLong : OptimizationResult.t :=
  OptimizationResult.mk (summaryOf 1)
    [OptimizationGroupResult.mk "A36_3mm" 3 "A36" 1 1 26 [sheetWithLong]].

(** a weight window that sheets of this size can meet, and a reply of two
    sheets, the first of 1500 x 5010 x 2 mm (about 118 kg) *)
Definition lightParameters : UserParameters.t :=
  UserParameters.mk 18000 5 "1200, 1500" (UserParameters.mkRange 100 600) "BZ12".

Definition sheetSecond : SheetLayout.t :=
  SheetLayout.mk 2 1500 3010
    [NestedPart.mk "a" 0 0 1000 2500 false;
     NestedPart.mk "b" 0 2505 500 1500 true]
    (334 # 10).

Definition replyTwoSheets : OptimizationResult.t :=
  OptimizationResult.mk (summaryOf 4)
    [OptimizationGroupResult.mk "SS400_2mm" 2 "SS400" 4 2 (334 # 10)
       [sheetGood; sheetSecond]].

(** a part id that holds a double quote followed by a line break *)
Definition brokenId : string :=
  String "a"%char (String "034"%char (String "010"%char "b")).

Definition replyBrokenId : OptimizationResult.t :=
  OptimizationResult.mk (summaryOf 1)
    [OptimizationGroupResult.mk "SS400_2mm" 2 "SS400" 1 1 (334 # 10)
       [SheetLayout.mk 1 1500 2600 [NestedPart.mk brokenId 0 0 1000 2500 false]
          (334 # 10)]].

(** what the constructor of the client throws in a browser when there is no
    key *)
Definition noKeyInBrowser : string :=
  "An API Key must be set when running in a browser".

(** the remote model answering one way, and another *)
Definition answers (result : OptimizationResult.t) : Prompt -> Reply :=
  fun _ => Parsed result.
Definition fails (message : string) : Prompt -> Reply :=
  fun _ => Thrown (Some message).
(** a model that answers the mock-engine prompt only *)
Definition answersMockOnly (result : OptimizationResult.t) : Prompt -> Reply :=
  fun prompt =>
    match prompt_instruction prompt with
    | MockEngineInstruction => Parsed result
    | _ => Thrown None
    end.

End Sample.

(** ** Vocabulary for stating what [preprocessData] computes *)

(** The distinct entries of a list, each at its first occurrence. *)
Fixpoint firstOccurrences (keys : list string) : list string :=
  match keys with
  | [] => []
  | k :: rest =>
      k :: List.filter (fun k' => negb (String.eqb k' k)) (firstOccurrences rest)
  end.

(** Descending order on (width, area, length), read off the three numbers. *)
Definition precedes (a b : GroupedPart.t) : Prop :=
  (GroupedPart.width b < GroupedPart.width a
   \/ (GroupedPart.width a == GroupedPart.width b
       /\ (GroupedPart.area b < GroupedPart.area a
           \/ (GroupedPart.area a == GroupedPart.area b
               /\ GroupedPart.length b <= GroupedPart.length a))))%Q.

(** The two parts tie on all three keys. *)
Definition tie (a b : GroupedPart.t) : bool :=
  Qeq_bool (GroupedPart.width a) (GroupedPart.width b)
  && Qeq_bool (GroupedPart.area a) (GroupedPart.area b)
  && Qeq_bool (GroupedPart.length a) (GroupedPart.length b).

(** The character [c] occurs in [s]. *)
Fixpoint occurs (c : ascii) (s : string) : bool :=
  match s with
  | EmptyString => false
  | String c' rest => Ascii.eqb c' c || occurs c rest
  end.

Section GroupingVocabulary.
Variable Number_toString : Q -> string.

(** The parts of the input that carry the key [k], in input order. *)
Definition withKey (k : string) (parts : list Part.t) : list Part.t :=
  List.filter (fun p => String.eqb (materialKeyOf Number_toString p) k) parts.

(** The group that [preprocessData] holds under the key [k] before sorting:
    its fields come from the first part with that key. *)
Definition bucket (maxSheetLength : Q) (parts : list Part.t) (k : string)
  : MaterialGroup.t :=
  match withKey k parts with
  | [] => MaterialGroup.mk k 0 EmptyString []
  | first :: _ =>
      MaterialGroup.mk k (Part.thickness first) (Part.grade first)
        (map (annotate maxSheetLength) (withKey k parts))
  end.

(** The text that [Number_toString] gives for the thicknesses of the list
    tells them apart and has no underscore in it, as is the case of
    [Number::toString]. *)
Definition thicknessTextFaithful (parts : list Part.t) : bool :=
  forallb (fun p =>
    negb (occurs "_" (Number_toString (Part.thickness p)))
    && forallb (fun q =>
         Bool.eqb
           (String.eqb (Number_toString (Part.thickness p))
              (Number_toString (Part.thickness q)))
           (Qeq_bool (Part.thickness p) (Part.thickness q))) parts) parts.

End GroupingVocabulary.

(** ** Vocabulary for stating what [runOptimization] returns *)

(** The prompt that a run on [parts] and [parameters] sends. *)
Definition promptFor (Number_toString : Q -> string)
    (parts : list Part.t) (parameters : UserParameters.t) : Prompt :=
  mkPrompt (algorithmInstruction (UserParameters.algorithm parameters))
    parameters
    (preprocessData Number_toString parts
       (UserParameters.maxSheetLength parameters)).

(** The sheet bounds, sheet by sheet: [widths] is the set of numbers that
    [candidateCoilWidths] stands for. *)
Definition SheetsWithinBounds (parameters : UserParameters.t) (widths : list Q)
    (result : OptimizationResult.t) : Prop :=
  forall group, In group (OptimizationResult.resultsByGroup result) ->
  forall (i : nat) sheet,
    OptimizationGroupResult.layouts group !! i = Some sheet ->
    (SheetLayout.length sheet <= UserParameters.maxSheetLength parameters)%Q
    /\ (exists w, In w widths /\ (SheetLayout.width sheet == w)%Q)
    /\ (S i < List.length (OptimizationGroupResult.layouts group) ->
        (UserParameters.min (UserParameters.rollWeightRange parameters)
           <= Invariant.sheetWeight group sheet
           <= UserParameters.max (UserParameters.rollWeightRange parameters))%Q).

(** Two placements keep the kerf between them, along [x] or along [y]. *)
Definition KerfApart (kerf : Q) (p q : NestedPart.t) : Prop :=
  (NestedPart.x p + Invariant.effectiveWidth p + kerf <= NestedPart.x q
   \/ NestedPart.x q + Invariant.effectiveWidth q + kerf <= NestedPart.x p
   \/ NestedPart.y p + Invariant.effectiveLength p + kerf <= NestedPart.y q
   \/ NestedPart.y q + Invariant.effectiveLength q + kerf <= NestedPart.y p)%Q.

Definition PlacementsValid (parameters : UserParameters.t)
    (result : OptimizationResult.t) : Prop :=
  forall group, In group (OptimizationResult.resultsByGroup result) ->
  forall sheet, In sheet (OptimizationGroupResult.layouts group) ->
    (forall p, In p (SheetLayout.nestedParts sheet) ->
       (0 <= NestedPart.x p /\ 0 <= NestedPart.y p
        /\ NestedPart.x p + Invariant.effectiveWidth p <= SheetLayout.width sheet
        /\ NestedPart.y p + Invariant.effectiveLength p
           <= SheetLayout.length sheet)%Q)
    /\ (forall (i j : nat) p q, i <> j ->
          SheetLayout.nestedParts sheet !! i = Some p ->
          SheetLayout.nestedParts sheet !! j = Some q ->
          KerfApart (UserParameters.kerf parameters) p q).

(** ** Vocabulary for stating what [exportToCsv] writes *)

(** Every nested part of the result with its sheet and group, in the order
    of the result. *)
Definition nestedPartsInOrder (result : OptimizationResult.t)
  : list (OptimizationGroupResult.t * SheetLayout.t * NestedPart.t) :=
  flat_map (fun group =>
    flat_map (fun layout =>
      map (fun part => (group, layout, part)) (SheetLayout.nestedParts layout))
      (OptimizationGroupResult.layouts group))
    (OptimizationResult.resultsByGroup result).

(** ** Vocabulary for stating what [validateParts] rejects *)

(** The number is an integer. *)
Definition IsInteger (a : Q) : Prop := exists z : Z, (a == inject_Z z)%Q.

(** The part breaks the invariant of the data model: width, length,
    thickness > 0 and quantity a positive integer. *)
Definition InputInvalid (p : Part.t) : Prop :=
  (Part.width p <= 0)%Q \/ (Part.length p <= 0)%Q \/ (Part.thickness p <= 0)%Q
  \/ ~ (IsInteger (Part.quantity p) /\ (0 < Part.quantity p)%Q).

(** What it is for a list of groups to partition [parts] by grade and
    thickness, each part annotated. *)
Definition GroupedByMaterial (Number_toString : Q -> string)
    (parts : list Part.t) (maxSheetLength : Q)
    (groups : list MaterialGroup.t) : Prop :=
  (* the keys, in the order in which the input first shows them *)
  map MaterialGroup.materialKey groups
  = firstOccurrences (map (materialKeyOf Number_toString) parts)
  /\ List.NoDup (map MaterialGroup.materialKey groups)
  (* a key is made of the grade and the thickness of its group *)
  /\ (forall g, In g groups ->
        MaterialGroup.materialKey g
        = (MaterialGroup.grade g ++ "_"
           ++ Number_toString (MaterialGroup.thickness g) ++ "mm")%string)
  (* one group per pair *)
  /\ (forall g h, In g groups -> In h groups ->
        MaterialGroup.grade g = MaterialGroup.grade h ->
        (MaterialGroup.thickness g == MaterialGroup.thickness h)%Q ->
        g = h)
  (* a group holds the parts of its pair, and there is at least one *)
  /\ (forall g, In g groups ->
        MaterialGroup.parts g <> []
        /\ Permutation (MaterialGroup.parts g)
             (map (annotate maxSheetLength)
                (List.filter
                   (fun p => String.eqb (Part.grade p) (MaterialGroup.grade g)
                             && Qeq_bool (Part.thickness p)
                                  (MaterialGroup.thickness g))
                   parts)))
  (* nothing is lost and nothing is repeated *)
  /\ Permutation (flat_map MaterialGroup.parts groups)
       (map (annotate maxSheetLength) parts)
  (* the two annotations *)
  /\ (forall g a, In g groups -> In a (MaterialGroup.parts g) ->
        GroupedPart.area a
        = (Part.width (GroupedPart.part a) * Part.length (GroupedPart.part a))%Q
        /\ (GroupedPart.exceedsSheetLength a = true
            <-> (maxSheetLength < Part.length (GroupedPart.part a))%Q)).

(** The run is refused: no call is made, the message is shown, the result
    and the loading flag are as before, and every offending part has its
    entry in [errors]. *)
Definition RunRefused (parts : list Part.t) (st : AppState)
    (out : list Event * AppState) : Prop :=
  fst out = []
  /\ apiError (snd out) = Some fixTableFirst
  /\ optimizationResult (snd out) = optimizationResult st
  /\ isLoading (snd out) = isLoading st
  /\ (forall p, In p parts -> InputInvalid p ->
        exists e, errors (snd out) !! Part.id p = Some e /\ hasKeys e = true)
  /\ (List.NoDup (map Part.id parts) ->
      forall p, In p parts -> InputInvalid p ->
        errors (snd out) !! Part.id p = Some (partErrorsOf p)).

(** The value of a binary64 number, when it is finite. *)
Definition exactValue (x : float) : option Q :=
  match Prim2SF x with
  | S754_zero _ => Some 0%Q
  | S754_finite s m e =>
      let v := (inject_Z (Z.pos m) * Qpower 2 e)%Q in
      Some (if s then (- v)%Q else v)
  | _ => None
  end.

(** ** JavaScript strings, as far as the program uses them *)

Module Str.

Definition newline : string := String "010"%char EmptyString.
Definition comma : string := ",".

(** [s.split(c)] for a one-character separator: never an empty array. *)
Fixpoint split (c : ascii) (s : string) : list string :=
  match s with
  | EmptyString => [EmptyString]
  | String a rest =>
      if Ascii.eqb a c then EmptyString :: split c rest
      else match split c rest with
           | [] => [String a EmptyString]
           | first :: fields => String a first :: fields
           end
  end.

(** [fields.join(c)] *)
Definition join (c : ascii) (fields : list string) : string :=
  String.concat (String c EmptyString) fields.

(** [s.replace(/c/g, '')]: every occurrence of the character taken out. *)
Fixpoint remove (c : ascii) (s : string) : string :=
  match s with
  | EmptyString => EmptyString
  | String a rest =>
      if Ascii.eqb a c then remove c rest else String a (remove c rest)
  end.

(** [s.replace(/[\x00-\x1F]/g, '')]: the control characters taken out. *)
Definition isControl (a : ascii) : bool := (nat_of_ascii a <? 32)%nat.

Fixpoint removeControl (s : string) : string :=
  match s with
  | EmptyString => EmptyString
  | String a rest =>
      if isControl a then removeControl rest else String a (removeControl rest)
  end.

(** [array[i]], [undefined] past the end. *)
Definition at_ {A : Type} (l : list A) (i : nat) : option A := nth_error l i.

End Str.

(** ** [components/PartsTable.tsx] *)

(** A change of one cell, as [InputCell] hands it to [handleUpdate]: the
    number fields receive [Number(e.target.value)], the text fields the text
    itself.  (The id has no input cell.) *)
Inductive CellEdit :=
| SetWidth (value : Q)
| SetLength (value : Q)
| SetQuantity (value : Q)
| SetThickness (value : Q)
| SetGrade (value : string)
| SetProjectName (value : string).

(** [{ ...p, [field]: value }] *)
Definition withField (edit : CellEdit) (p : Part.t) : Part.t :=
  match edit with
  | SetWidth v =>
      Part.mk (Part.id p) v (Part.length p) (Part.quantity p) (Part.thickness p)
        (Part.grade p) (Part.projectName p)
  | SetLength v =>
      Part.mk (Part.id p) (Part.width p) v (Part.quantity p) (Part.thickness p)
        (Part.grade p) (Part.projectName p)
  | SetQuantity v =>
      Part.mk (Part.id p) (Part.width p) (Part.length p) v (Part.thickness p)
        (Part.grade p) (Part.projectName p)
  | SetThickness v =>
      Part.mk (Part.id p) (Part.width p) (Part.length p) (Part.quantity p) v
        (Part.grade p) (Part.projectName p)
  | SetGrade s =>
      Part.mk (Part.id p) (Part.width p) (Part.length p) (Part.quantity p)
        (Part.thickness p) s (Part.projectName p)
  | SetProjectName s =>
      Part.mk (Part.id p) (Part.width p) (Part.length p) (Part.quantity p)
        (Part.thickness p) (Part.grade p) s
  end.

(** [setParts(prevParts => prevParts.map(p => p.id === id ? {...} : p))] *)
Definition handleUpdate (id : string) (edit : CellEdit) (parts : list Part.t)
  : list Part.t :=
  map (fun p => if String.eqb (Part.id p) id then withField edit p else p) parts.

(** The row that [addRow] appends; [newId] is what [uuidv4()] returns. *)
Definition newPart (newId : string) : Part.t :=
  Part.mk newId 0 0 1 0 EmptyString EmptyString.

Definition addRow (newId : string) (parts : list Part.t) : list Part.t :=
  parts ++ [newPart newId].

(** [deleteRow]: the parts and the errors it leaves. *)
Definition deleteRow (id : string)
    (parts : list Part.t) (errs : gmap string PartError.t)
  : list Part.t * gmap string PartError.t :=
  (List.filter (fun p => negb (String.eqb (Part.id p) id)) parts,
   delete id errs).

(** The row of the table is shown in yellow, and so is its length cell. *)
Definition rowHighlighted (maxSheetLength : Q) (part : Part.t) : bool :=
  Num.gtb (Part.length part) maxSheetLength.

Definition CSV_HEADER : string :=
  "id,width,length,quantity,thickness,grade,projectName" ++ Str.newline.

Section PartsCsv.
Variable Number_toString : Q -> string.
(** [parseFloat] and [parseInt]: [None] stands for [NaN]. *)
Variable parseFloat : string -> option Q.
Variable parseInt : string -> option Q.
Variable String_trim : string -> string.
(** [uuidv4()], as it answers during one import for the row of the given
    index; it is random, so another import has answers of its own. *)
Variable uuidv4 : nat -> string.

(** One line of the file: id, width, length, quantity and thickness as they
    print, then the grade and the project name between double quotes, all
    separated by commas. *)
Definition partLine (p : Part.t) : string :=
  Part.id p ++ "," ++ Number_toString (Part.width p) ++ ","
  ++ Number_toString (Part.length p) ++ ","
  ++ Number_toString (Part.quantity p) ++ ","
  ++ Number_toString (Part.thickness p) ++ ","
  ++ quoted (Part.grade p) ++ "," ++ quoted (Part.projectName p).

(** The text that [handleExportCSV] offers as [parts_data.csv]. *)
Definition handleExportCSV (parts : list Part.t) : string :=
  CSV_HEADER ++ Str.join "010"%char (map partLine parts).

(** [parse(values[i]) || 0], where [values[i]] may be [undefined] *)
Definition numberOr0 (parse : string -> option Q) (value : option string) : Q :=
  match value with
  | None => 0%Q
  | Some text =>
      match parse text with
      | None => 0%Q
      | Some n => Num.orZero n
      end
  end.

(** [values[i]] with every double quote taken out, the empty text when it
    is [undefined] *)
Definition unquotedOrEmpty (value : option string) : string :=
  match value with
  | None => EmptyString
  | Some text => Str.remove "034"%char text
  end.

(** The callback of [rows.map] in [handleImportCSV]. *)
Definition importRow (index : nat) (row : string) : Part.t :=
  let values := Str.split ","%char row in
  Part.mk
    (match Str.at_ values 0 with
     | Some EmptyString | None => uuidv4 index
     | Some id => id
     end)
    (numberOr0 parseFloat (Str.at_ values 1))
    (numberOr0 parseFloat (Str.at_ values 2))
    (numberOr0 parseInt (Str.at_ values 3))
    (numberOr0 parseFloat (Str.at_ values 4))
    (unquotedOrEmpty (Str.at_ values 5))
    (unquotedOrEmpty (Str.at_ values 6)).

(** [rows.map(callback)], the callback receiving the index too *)
Fixpoint mapIndexed {A B : Type} (f : nat -> A -> B) (index : nat) (l : list A)
  : list B :=
  match l with
  | [] => []
  | a :: rest => f index a :: mapIndexed f (S index) rest
  end.

(** The parts that [handleImportCSV] stores with [setParts] for the text of
    the file. *)
Definition handleImportCSV (text : string) : list Part.t :=
  let rows := skipn 1 (Str.split "010"%char text) in
  mapIndexed importRow 0
    (List.filter (fun row => negb (isEmptyString (String_trim row))) rows).

End PartsCsv.

(** ** The arithmetic of JavaScript numbers

    A number of the program is a binary64 value, and the model keeps its
    exact value, a rational.  Comparisons are exact.  A sum, a difference or
    a quotient is the exact one rounded to a binary64 value: [round] is that
    rounding, and the operations below take it as a parameter.  Module
    [Binary64] gives the rounding of the program itself, to the nearest value
    with ties to the even one, for results that do not overflow. *)
Module Rounded.
Section Rounded.
Variable round : Q -> Q.

Definition add (a b : Q) : Q := round (a + b).
Definition sub (a b : Q) : Q := round (a - b).
Definition div (a b : Q) : Q := round (a / b).

End Rounded.
End Rounded.

Module Binary64.

Definition pow2 (e : Z) : Q := (2 ^ e)%Q.

(** The integer nearest to [x], the even one when two are as near. *)
Definition nearestEven (x : Q) : Z :=
  let f := Qfloor x in
  match (x - inject_Z f ?= 1 # 2)%Q with
  | Lt => f
  | Gt => (f + 1)%Z
  | Eq => if Z.even f then f else (f + 1)%Z
  end.

(** For [q > 0], the exponent [e] with [2^e <= q < 2^(e+1)]. *)
Definition exponent (q : Q) : Z :=
  let k := (Z.log2 (Qnum q) - Z.log2 (Z.pos (Qden q)))%Z in
  if Qle_bool (pow2 k) q then k else (k - 1)%Z.

(** The exponent of the unit in the last place: 53 significant bits, and
    no unit below [2^-1074]. *)
Definition unitExponent (q : Q) : Z := Z.max (exponent q - 52) (-1074).

Definition roundPositive (q : Q) : Q :=
  (inject_Z (nearestEven (q / pow2 (unitExponent q))) * pow2 (unitExponent q))%Q.

Definition round (q : Q) : Q :=
  match (q ?= 0)%Q with
  | Eq => 0%Q
  | Gt => roundPositive q
  | Lt => (- roundPositive (- q))%Q
  end.

(** The rounded operation of the model gives what the binary64 operation
    gives on these two numbers. *)
Definition agrees (op64 : float -> float -> float) (op : Q -> Q -> Q)
    (a b : float) : bool :=
  match exactValue a, exactValue b, exactValue (op64 a b) with
  | Some x, Some y, Some z => Qeq_bool (round (op x y)) z
  | _, _, _ => false
  end.

End Binary64.

(** What the facts below use of the rounding: it is monotone, and it leaves
    a rounded value as it is. *)
Definition Monotone (round : Q -> Q) : Prop :=
  forall a b, (a <= b)%Q -> (round a <= round b)%Q.

Definition Idempotent (round : Q -> Q) : Prop :=
  forall a, (round (round a) == round a)%Q.

(** The rational is a value of the arithmetic: rounding leaves it as it is.
    The numbers of a reply are such values, [JSON.parse] has made them. *)
Definition Representable (round : Q -> Q) (v : Q) : Prop := (round v == v)%Q.

(** ** [services/exportService.ts]: [exportToDxf] *)

(** The text made of the given lines, each one ended by a line break. *)
Definition dxfLines (lines : list string) : string :=
  String.concat EmptyString (map (fun line => line ++ Str.newline) lines).

Definition dxfHeader : string :=
  dxfLines ["0"; "SECTION"; "2"; "HEADER"; "0"; "ENDSEC";
            "0"; "SECTION"; "2"; "ENTITIES"].

Definition dxfFooter : string := dxfLines ["0"; "ENDSEC"; "0"; "EOF"].

(** [Math.min(a, b)] *)
Definition Math_min (a b : Q) : Q := if Num.leb a b then a else b.

Section Dxf.
Variable Number_toString : Q -> string.
Variable Number_toFixed : nat -> Q -> string.
Variable round : Q -> Q.

Local Abbreviation add := (Rounded.add round).
Local Abbreviation sub := (Rounded.sub round).
Local Abbreviation div := (Rounded.div round).

(** A closed polyline of four vertices. *)
Definition drawRect (x y w h : Q) (layer : string) (color : Q) : string :=
  dxfLines
    ["0"; "LWPOLYLINE"; "8"; layer; "62"; Number_toString color;
     "90"; "4"; "70"; "1";
     "10"; Number_toString x; "20"; Number_toString y;
     "10"; Number_toString (add x w); "20"; Number_toString y;
     "10"; Number_toString (add x w); "20"; Number_toString (add y h);
     "10"; Number_toString x; "20"; Number_toString (add y h)].

Definition drawText (x y : Q) (text layer : string) (height color : Q) : string :=
  let safeText := Str.removeControl text in
  dxfLines
    ["0"; "TEXT"; "8"; layer; "62"; Number_toString color;
     "10"; Number_toString x; "20"; Number_toString y;
     "40"; Number_toString height; "1"; safeText].

(** The width and the height a part is drawn with. *)
Definition drawW (part : NestedPart.t) : Q :=
  if NestedPart.rotated part then Num.orZero (NestedPart.length part)
  else Num.orZero (NestedPart.width part).
Definition drawH (part : NestedPart.t) : Q :=
  if NestedPart.rotated part then Num.orZero (NestedPart.width part)
  else Num.orZero (NestedPart.length part).

Definition labelSize (part : NestedPart.t) : Q :=
  div (Math_min (drawW part) (drawH part)) 6.

Definition labelText (part : NestedPart.t) : string :=
  NestedPart.partId part ++ " (" ++ Number_toString (drawW part) ++ "x"
  ++ Number_toString (drawH part) ++ ")".

(** The body of the innermost [forEach]. *)
Definition dxfPartStep (globalYOffset : Q) (dxf : string) (part : NestedPart.t)
  : string :=
  let dxf :=
    dxf ++ drawRect (NestedPart.x part) (add globalYOffset (NestedPart.y part))
             (drawW part) (drawH part) "PARTS" 5 in
  if Num.gtb (labelSize part) 5
  then dxf ++ drawText (add (NestedPart.x part) 5)
                (add (add globalYOffset (NestedPart.y part)) 5)
                (labelText part) "TEXT" (labelSize part) 1
  else dxf.

(** The body of the [forEach] over the layouts of a group; the state is the
    text so far and [globalYOffset].  [globalYOffset += layout.length + 500]
    adds the two on the right first. *)
Definition dxfLayoutStep (st : string * Q) (layout : SheetLayout.t) : string * Q :=
  let '(dxf, globalYOffset) := st in
  let dxf :=
    dxf ++ drawRect 0 globalYOffset (SheetLayout.width layout)
             (SheetLayout.length layout) "SHEETS" 7 in
  let dxf :=
    dxf ++ drawText 10 (add globalYOffset 10)
             ("Sheet " ++ Number_toString (SheetLayout.sheetNumber layout)
              ++ " - Waste "
              ++ Number_toFixed 2 (SheetLayout.wastePercentage layout) ++ "%")
             "TEXT" 50 7 in
  let dxf :=
    fold_left (dxfPartStep globalYOffset) (SheetLayout.nestedParts layout) dxf in
  (dxf, add globalYOffset (add (SheetLayout.length layout) 500)).

(** The body of the outer [forEach]. *)
Definition dxfGroupStep (st : string * Q) (group : OptimizationGroupResult.t)
  : string * Q :=
  let '(dxf, globalYOffset) := st in
  let dxf :=
    dxf ++ drawText 0 (sub globalYOffset 200)
             ("Group " ++ OptimizationGroupResult.materialKey group ++ " T"
              ++ Number_toString (OptimizationGroupResult.thickness group))
             "TEXT" 150 7 in
  let '(dxf, globalYOffset) :=
    fold_left dxfLayoutStep (OptimizationGroupResult.layouts group)
      (dxf, globalYOffset) in
  (dxf, add globalYOffset 1000).

(** The text offered for download as [nesting_layout.dxf]. *)
Definition exportToDxf (result : OptimizationResult.t) : string :=
  let '(dxf, _) :=
    fold_left dxfGroupStep (OptimizationResult.resultsByGroup result)
      (dxfHeader, 0%Q) in
  dxf ++ dxfFooter.

End Dxf.

(** ** [components/ResultsDisplay.tsx]: the waste of the main sheets and of
    the last sheet *)

Section GroupResultCard.
Variable Number_toFixed : nat -> Q -> string.
Variable round : Q -> Q.

(** [(mainSheetsWaste, lastSheetWaste)] as [GroupResultCard] computes them. *)
Definition wasteSplit (layouts : list SheetLayout.t) : Q * Q :=
  let totalSheets := List.length layouts in
  let wasteAt (i : nat) :=
    match Str.at_ layouts i with
    | Some layout => SheetLayout.wastePercentage layout
    | None => 0%Q
    end in
  if (1 <? totalSheets)%nat then
    let mainSheets := firstn (totalSheets - 1) layouts in
    let totalMainWaste :=
      fold_left (fun sum l =>
                   Rounded.add round sum (SheetLayout.wastePercentage l))
        mainSheets 0%Q in
    (Rounded.div round totalMainWaste
       (inject_Z (Z.of_nat (List.length mainSheets))),
     wasteAt (totalSheets - 1)%nat)
  else if (totalSheets =? 1)%nat then (0%Q, wasteAt 0%nat)
  else (0%Q, 0%Q).

(** The two figures as the card shows them: the first is a dash unless
    there are two sheets or more. *)
Definition mainSheetsText (layouts : list SheetLayout.t) : string :=
  if (1 <? List.length layouts)%nat
  then Number_toFixed 2 (fst (wasteSplit layouts)) ++ "%"
  else "-".

Definition lastSheetText (layouts : list SheetLayout.t) : string :=
  Number_toFixed 2 (snd (wasteSplit layouts)) ++ "%".

End GroupResultCard.

(** ** Vocabulary for stating what [exportToDxf] draws *)

Inductive DxfEntity :=
| Polyline (x y w h : Q) (layer : string) (color : Q)
| TextEntity (x y : Q) (text layer : string) (height color : Q).

Section DxfVocabulary.
Variable Number_toString : Q -> string.
Variable Number_toFixed : nat -> Q -> string.
Variable round : Q -> Q.

Local Abbreviation add := (Rounded.add round).
Local Abbreviation sub := (Rounded.sub round).

Definition renderEntity (e : DxfEntity) : string :=
  match e with
  | Polyline x y w h layer color =>
      drawRect Number_toString round x y w h layer color
  | TextEntity x y text layer height color =>
      drawText Number_toString x y text layer height color
  end.

Definition partEntities (offset : Q) (part : NestedPart.t) : list DxfEntity :=
  Polyline (NestedPart.x part) (add offset (NestedPart.y part))
    (drawW part) (drawH part) "PARTS" 5
  :: if Num.gtb (labelSize round part) 5
     then [TextEntity (add (NestedPart.x part) 5)
             (add (add offset (NestedPart.y part)) 5)
             (labelText Number_toString part) "TEXT" (labelSize round part) 1]
     else [].

Definition layoutEntities (offset : Q) (layout : SheetLayout.t)
  : list DxfEntity :=
  Polyline 0 offset (SheetLayout.width layout) (SheetLayout.length layout)
    "SHEETS" 7
  :: TextEntity 10 (add offset 10)
       ("Sheet " ++ Number_toString (SheetLayout.sheetNumber layout)
        ++ " - Waste "
        ++ Number_toFixed 2 (SheetLayout.wastePercentage layout) ++ "%")
       "TEXT" 50 7
  :: flat_map (partEntities offset) (SheetLayout.nestedParts layout).

(** The offset at which the sheet after this one is drawn. *)
Definition nextOffset (offset : Q) (layout : SheetLayout.t) : Q :=
  add offset (add (SheetLayout.length layout) 500).

(** The entities of a run of sheets drawn from [offset] on, and the offset
    after them. *)
Fixpoint layoutsEntities (offset : Q) (layouts : list SheetLayout.t)
  : list DxfEntity * Q :=
  match layouts with
  | [] => ([], offset)
  | layout :: rest =>
      let '(entities, final) := layoutsEntities (nextOffset offset layout) rest in
      ((layoutEntities offset layout ++ entities)%list, final)
  end.

Fixpoint groupsEntities (offset : Q) (groups : list OptimizationGroupResult.t)
  : list DxfEntity * Q :=
  match groups with
  | [] => ([], offset)
  | group :: rest =>
      let '(sheets, afterSheets) :=
        layoutsEntities offset (OptimizationGroupResult.layouts group) in
      let '(entities, final) := groupsEntities (add afterSheets 1000) rest in
      ((TextEntity 0 (sub offset 200)
          ("Group " ++ OptimizationGroupResult.materialKey group ++ " T"
           ++ Number_toString (OptimizationGroupResult.thickness group))
          "TEXT" 150 7
        :: sheets ++ entities)%list, final)
  end.

End DxfVocabulary.

(** The spans [(y, height)] of the sheet boundaries among the entities, in
    the order in which they are drawn. *)
Fixpoint sheetSpans (entities : list DxfEntity) : list (Q * Q) :=
  match entities with
  | [] => []
  | Polyline _ y _ h layer _ :: rest =>
      if String.eqb layer "SHEETS" then (y, h) :: sheetSpans rest
      else sheetSpans rest
  | TextEntity _ _ _ _ _ _ :: rest => sheetSpans rest
  end.

Definition countPolylines (layer : string) (entities : list DxfEntity) : nat :=
  List.length
    (List.filter (fun e =>
       match e with
       | Polyline _ _ _ _ l _ => String.eqb l layer
       | TextEntity _ _ _ _ _ _ => false
       end) entities).

(** ** Vocabulary for stating what the parts file round trip needs *)

(** The same part, the numbers compared as numbers. *)
Definition PartEquiv (p q : Part.t) : Prop :=
  Part.id p = Part.id q
  /\ (Part.width p == Part.width q)%Q
  /\ (Part.length p == Part.length q)%Q
  /\ (Part.quantity p == Part.quantity q)%Q
  /\ (Part.thickness p == Part.thickness q)%Q
  /\ Part.grade p = Part.grade q
  /\ Part.projectName p = Part.projectName q.

(** Two parts read from the same row by two imports, [uuidv4] and [uuidv4']
    being the draws of the one and of the other: the fields are the same,
    and so is the id unless each import drew it for that row. *)
Definition ReadAlike (uuidv4 uuidv4' : nat -> string) (p q : Part.t) : Prop :=
  (Part.id p = Part.id q
   \/ exists index, Part.id p = uuidv4 index /\ Part.id q = uuidv4' index)
  /\ Part.width p = Part.width q
  /\ Part.length p = Part.length q
  /\ Part.quantity p = Part.quantity q
  /\ Part.thickness p = Part.thickness q
  /\ Part.grade p = Part.grade q
  /\ Part.projectName p = Part.projectName q.

(** The text has neither a comma nor a line break. *)
Definition plainField (s : string) : bool :=
  negb (occurs ","%char s) && negb (occurs "010"%char s).

Section RoundTripVocabulary.
Variable Number_toString : Q -> string.
Variable parseFloat : string -> option Q.
Variable parseInt : string -> option Q.
Variable String_trim : string -> string.

(** The number prints as a plain field and [parse] reads it back. *)
Definition readsBack (parse : string -> option Q) (n : Q) : bool :=
  plainField (Number_toString n)
  && match parse (Number_toString n) with
     | Some n' => Qeq_bool n' n
     | None => false
     end.

(** What the round trip asks of a part: a non-empty id, plain texts without
    double quotes, numbers that read back (the quantity through [parseInt]),
    and a line that [trim] does not take for blank. *)
Definition partSurvivesCsv (p : Part.t) : bool :=
  negb (isEmptyString (Part.id p)) && plainField (Part.id p)
  && plainField (Part.grade p) && negb (occurs "034"%char (Part.grade p))
  && plainField (Part.projectName p)
  && negb (occurs "034"%char (Part.projectName p))
  && readsBack parseFloat (Part.width p)
  && readsBack parseFloat (Part.length p)
  && readsBack parseInt (Part.quantity p)
  && readsBack parseFloat (Part.thickness p)
  && negb (isEmptyString (String_trim (partLine Number_toString p))).

Definition partsSurviveCsv (parts : list Part.t) : bool :=
  isEmptyString (String_trim EmptyString) && forallb partSurvivesCsv parts.

End RoundTripVocabulary.

(** ** [validateParts]: the errors object and its prototype

    [newErrors] is a plain object and [newErrors[part.id] = partErrors] an
    ordinary assignment.  For every id but [__proto__] it adds the entry of
    that id or replaces it.  For the id [__proto__] it runs the setter that a
    plain object inherits: [partErrors] becomes the prototype of [newErrors]
    and no entry is added.  The object is modelled by its own entries (those
    that [Object.keys] lists) and by the object that has replaced its
    prototype, if any; what a read finds along the prototype chain is not
    modelled. *)
Module ErrorsObject.

Record t := mk {
  entries : gmap string PartError.t;
  prototype : option PartError.t
}.

(** [{}] *)
Definition empty : t := mk ∅ None.

(** [o[id] = partErrors] *)
Definition assign (id : string) (partErrors : PartError.t) (o : t) : t :=
  if String.eqb id "__proto__" then mk (entries o) (Some partErrors)
  else mk (<[id := partErrors]> (entries o)) (prototype o).

(** The body of the [forEach] callback of [validateParts]. *)
Definition validateStep (st : t * bool) (part : Part.t) : t * bool :=
  let partErrors := partErrorsOf part in
  if hasKeys partErrors
  then (assign (Part.id part) partErrors (fst st), true)
  else st.

Definition validateParts (parts : list Part.t) : t * bool :=
  let '(newErrors, hasErrors) := fold_left validateStep parts (empty, false) in
  (newErrors, negb hasErrors).

End ErrorsObject.

(** The id of the part is not [__proto__]. *)
Definition isOwnKey (part : Part.t) : bool :=
  negb (String.eqb (Part.id part) "__proto__").

(** No part of the table has the id [__proto__]. *)
Definition idsAreOwnKeys (parts : list Part.t) : bool := forallb isOwnKey parts.

(** The part has something wrong. *)
Definition faulty (part : Part.t) : bool := hasKeys (partErrorsOf part).

(** ** [runOptimization] and [handleRunOptimization] from the first line on

    [new GoogleGenAI({ apiKey: process.env.API_KEY })] is the first statement
    of [runOptimization] and stands before the [try]: when it throws, the
    function ends there with what was thrown, before the parts are grouped
    and before any request, and its [catch] does not see it. *)

(** The client as it comes out of its constructor during this call: the
    constructor throws (with a message when it throws an [Error]), or the
    client is there and [generateContent] is the remote model as it answers
    through it. *)
Inductive Client :=
| ClientThrows (thrown : option string)
| ClientReady (generateContent : Prompt -> Reply).

(** How the promise that [runOptimization] returns is settled. *)
Inductive Settled :=
| Rejected (thrown : option string)
| Resolved (result : OptimizationResult.t).

Definition unknownErrorMessage : string :=
  "An unknown error occurred during optimization.".

Module FromClient.
Section FromClient.
Variable Number_toString : Q -> string.

Definition runOptimization (client : Client)
    (parts : list Part.t) (parameters : UserParameters.t)
  : list Event * Settled :=
  match client with
  | ClientThrows thrown => ([], Rejected thrown)
  | ClientReady generateContent =>
      let '(calls, outcome) :=
        runOptimization Number_toString generateContent parts parameters in
      (calls,
       match outcome with
       | Throws message => Rejected (Some message)
       | Returns result => Resolved result
       end)
  end.

Definition handleRunOptimization (client : Client)
    (parts : list Part.t) (parameters : UserParameters.t) (st : AppState)
  : list Event * AppState :=
  let '(newErrors, valid) := validateParts parts in
  if negb valid then
    ([], mkAppState newErrors (optimizationResult st) (isLoading st)
           (Some fixTableFirst))
  else
    let '(calls, settled) := runOptimization client parts parameters in
    match settled with
    | Resolved result => (calls, mkAppState newErrors (Some result) false None)
    | Rejected (Some message) =>
        (calls, mkAppState newErrors None false (Some message))
    | Rejected None =>
        (calls, mkAppState newErrors None false (Some unknownErrorMessage))
    end.

End FromClient.
End FromClient.

(** ** Vocabulary for stating how a run ends *)

(** How a run on parts that pass validation ends: no error entries, the
    loading flag down, and
    - when the constructor of the client throws: no call at all, the earlier
      result cleared, and the message of what was thrown, or the fixed text
      for something thrown that is no [Error];
    - otherwise: the parts grouped and one request sent, and either the reply
      stored as the result and no message, or the earlier result cleared and
      one of the two fixed messages of [runOptimization]. *)
Definition RunCompleted (Number_toString : Q -> string) (client : Client)
    (parts : list Part.t) (parameters : UserParameters.t)
    (out : list Event * AppState) : Prop :=
  errors (snd out) = ∅
  /\ isLoading (snd out) = false
  /\ match client with
     | ClientThrows thrown =>
         fst out = []
         /\ optimizationResult (snd out) = None
         /\ apiError (snd out)
            = Some (match thrown with
                    | Some message => message
                    | None => unknownErrorMessage
                    end)
     | ClientReady generateContent =>
         fst out
         = [CallPreprocessData parts (UserParameters.maxSheetLength parameters);
            CallGenerateContent (promptFor Number_toString parts parameters)]
         /\ ((exists result,
                generateContent (promptFor Number_toString parts parameters)
                = Parsed result
                /\ optimizationResult (snd out) = Some result
                /\ apiError (snd out) = None)
             \/ (exists thrown,
                   generateContent (promptFor Number_toString parts parameters)
                   = Thrown thrown
                   /\ optimizationResult (snd out) = None
                   /\ (apiError (snd out) = Some invalidApiKeyMessage
                       \/ apiError (snd out) = Some noValidResponseMessage)))
     end.


(** ** Vocabulary for the table, the files and the drawing *)

(** Two edits of the same cell. *)
Definition sameCell (e1 e2 : CellEdit) : bool :=
  match e1, e2 with
  | SetWidth _, SetWidth _ | SetLength _, SetLength _
  | SetQuantity _, SetQuantity _ | SetThickness _, SetThickness _
  | SetGrade _, SetGrade _ | SetProjectName _, SetProjectName _ => true
  | _, _ => false
  end.

(** No cell of a row of the results file holds a line break. *)
Definition csvCellsOnOneLine (Number_toString : Q -> string)
    (Number_toFixed : nat -> Q -> string) (result : OptimizationResult.t)
  : bool :=
  forallb (fun glp =>
      forallb (fun cell =>
          negb (occurs "010"%char (cellText Number_toString cell)))
        (csvRow Number_toFixed (fst (fst glp)) (snd (fst glp)) (snd glp)))
    (nestedPartsInOrder result).

(** The thirteen columns of the row of one nested part: the name each has in
    the first line of the file, and the text of its cell. *)
Definition csvColumns (Number_toString : Q -> string)
    (Number_toFixed : nat -> Q -> string)
    (group : OptimizationGroupResult.t) (layout : SheetLayout.t)
    (part : NestedPart.t) : list (string * string) :=
  [ ("Material Group", quoted (OptimizationGroupResult.materialKey group));
    ("Thickness (mm)", Number_toString (OptimizationGroupResult.thickness group));
    ("Grade", quoted (OptimizationGroupResult.grade group));
    ("Sheet Number", Number_toString (SheetLayout.sheetNumber layout));
    ("Sheet Width (mm)", Number_toString (SheetLayout.width layout));
    ("Sheet Length (mm)", Number_toString (SheetLayout.length layout));
    ("Part ID", quoted (NestedPart.partId part));
    ("Part Width (mm)", Number_toString (Num.orZero (NestedPart.width part)));
    ("Part Length (mm)", Number_toString (Num.orZero (NestedPart.length part)));
    ("X", Number_toString (NestedPart.x part));
    ("Y", Number_toString (NestedPart.y part));
    ("Rotated", if NestedPart.rotated part then "TRUE" else "FALSE");
    ("Sheet Waste %", Number_toFixed 2 (SheetLayout.wastePercentage layout)) ].

(** No cell of the row of this nested part holds a comma. *)
Definition csvRowWithoutComma (Number_toString : Q -> string)
    (Number_toFixed : nat -> Q -> string)
    (glp : OptimizationGroupResult.t * SheetLayout.t * NestedPart.t) : bool :=
  forallb (fun column => negb (occurs ","%char (snd column)))
    (csvColumns Number_toString Number_toFixed
       (fst (fst glp)) (snd (fst glp)) (snd glp)).

(** What C9 asks of the file that [exportToCsv] writes, read line by line:
    the first line holds the thirteen column names; after it comes exactly
    one line per nested part, over all groups and sheets in the order of the
    result; the line of a nested part is its thirteen cells separated by
    commas, and, when none of the cells holds a comma, cutting the line at
    the commas gives back the thirteen columns. *)
Definition OneRowPerNestedPart (Number_toString : Q -> string)
    (Number_toFixed : nat -> Q -> string) (result : OptimizationResult.t)
  : Prop :=
  let lines :=
    Str.split "010"%char (exportToCsv Number_toString Number_toFixed result) in
  map snd (nestedPartsInOrder result)
  = flat_map (fun group =>
      flat_map SheetLayout.nestedParts (OptimizationGroupResult.layouts group))
      (OptimizationResult.resultsByGroup result)
  /\ Str.split ","%char (hd EmptyString lines) = csvHeader
  /\ Forall2 (fun line glp =>
         let columns :=
           csvColumns Number_toString Number_toFixed
             (fst (fst glp)) (snd (fst glp)) (snd glp) in
         map fst columns = csvHeader
         /\ line = Str.join ","%char (map snd columns)
         /\ (csvRowWithoutComma Number_toString Number_toFixed glp = true ->
             combine csvHeader (Str.split ","%char line) = columns))
       (tl lines) (nestedPartsInOrder result).

(** Every character of the text has a code of 32 or more: none is a control
    character. *)
Fixpoint printable (s : string) : bool :=
  match s with
  | EmptyString => true
  | String a rest => (32 <=? nat_of_ascii a)%nat && printable rest
  end.

(** The sheets are drawn one after the other along [y]: each one starts
    where the ones before it end, or above.  A boundary drawn from [y] with
    the height [h] ends at [y + h] as [drawRect] computes it. *)
Definition Stacked (round : Q -> Q) (spans : list (Q * Q)) : Prop :=
  StronglySorted
    (fun a b => (Rounded.add round (fst a) (snd a) <= fst b)%Q) spans.

(** The numbers of the sheets are values of the arithmetic, and no sheet
    has a negative length. *)
Definition SheetLengthsDrawable (round : Q -> Q)
    (groups : list OptimizationGroupResult.t) : Prop :=
  Forall (fun group =>
            Forall (fun layout =>
                      (0 <= SheetLayout.length layout)%Q
                      /\ Representable round (SheetLayout.length layout))
              (OptimizationGroupResult.layouts group)) groups.

(** The text of a list of entities, one after the other. *)
Definition renderAll (Number_toString : Q -> string) (round : Q -> Q)
    (entities : list DxfEntity) : string :=
  String.concat EmptyString (map (renderEntity Number_toString round) entities).

(** ** Reading decimal text, for running the program on sample data

    [parseFloat], [parseInt] and [trim] for texts in plain decimal notation
    and the blanks of ASCII. *)

Module Scan.

Definition digit (a : ascii) : option Z :=
  let n := nat_of_ascii a in
  if (48 <=? n)%nat && (n <=? 57)%nat then Some (Z.of_nat (n - 48)) else None.

(** the digits at the head of [s]: their value, their number, and the rest *)
Fixpoint digits (s : string) (value : Z) (count : nat) : Z * nat * string :=
  match s with
  | EmptyString => (value, count, s)
  | String a rest =>
      match digit a with
      | Some d => digits rest (10 * value + d)%Z (S count)
      | None => (value, count, s)
      end
  end.

Definition isBlank (a : ascii) : bool :=
  let n := nat_of_ascii a in
  (n =? 32)%nat || ((9 <=? n)%nat && (n <=? 13)%nat).

Fixpoint trimStart (s : string) : string :=
  match s with
  | EmptyString => EmptyString
  | String a rest => if isBlank a then trimStart rest else s
  end.

Fixpoint trimEnd (s : string) : string :=
  match s with
  | EmptyString => EmptyString
  | String a rest =>
      match trimEnd rest with
      | EmptyString => if isBlank a then EmptyString else String a EmptyString
      | kept => String a kept
      end
  end.

Definition trim (s : string) : string := trimEnd (trimStart s).

Definition signed (read : string -> option Q) (s : string) : option Q :=
  match trimStart s with
  | String "-"%char rest => option_map Qopp (read rest)
  | text => read text
  end.

Definition parseInt : string -> option Q :=
  signed (fun s =>
    let '(value, count, _) := digits s 0%Z 0%nat in
    if (count =? 0)%nat then None else Some (inject_Z value)).

Definition parseFloat : string -> option Q :=
  signed (fun s =>
    let '(whole, count, rest) := digits s 0%Z 0%nat in
    match rest with
    | String "."%char after =>
        let '(part, places, _) := digits after 0%Z 0%nat in
        if (count + places =? 0)%nat then None
        else Some (Qmake (whole * 10 ^ Z.of_nat places + part)
                     (Z.to_pos (10 ^ Z.of_nat places)))
    | _ => if (count =? 0)%nat then None else Some (inject_Z whole)
    end).

End Scan.

Module SampleTable.

(** the ids that [uuidv4] would hand out, and those of another import *)
Definition uuid (index : nat) : string := "row-" ++ Decimal.ofZ (Z.of_nat index).
Definition uuid' (index : nat) : string := "again-" ++ Decimal.ofZ (Z.of_nat index).

(** the table of the form with a part of 1.5 mm added *)
Definition parts : list Part.t :=
  [Sample.partA; Sample.partB; Sample.partC; Sample.partHalf].

(** a grade with a comma in it *)
Definition partComma : Part.t :=
  Part.mk "k" 1000 2500 1 2 "SS400,hot" "Project A".

(** a row with nothing filled in, of the id [__proto__] *)
Definition partProto : Part.t :=
  Part.mk "__proto__" 0 0 1 0 EmptyString EmptyString.

(** a table in which the only faulty rows are those of the id [new] *)
Definition partsWithBlank : list Part.t :=
  [Sample.partA; Sample.partBlank; Sample.partB].

End SampleTable.

(** * Facts *)

Local Open Scope list_scope.

(** ** Numbers *)

Lemma Num_leb_le a b : Num.leb a b = true <-> (a <= b)%Q.
Proof. apply Qle_bool_iff. Qed.

Lemma Num_leb_gt a b : Num.leb a b = false <-> (b < a)%Q.
Proof.
  unfold Num.leb. rewrite <- not_true_iff_false, Qle_bool_iff.
  split; [apply Qnot_le_lt | apply Qlt_not_le].
Qed.

Lemma Num_ltb_lt a b : Num.ltb a b = true <-> (a < b)%Q.
Proof. unfold Num.ltb. rewrite negb_true_iff. apply Num_leb_gt. Qed.

Lemma Num_gtb_gt a b : Num.gtb a b = true <-> (b < a)%Q.
Proof. apply Num_ltb_lt. Qed.

Lemma Num_neqb_false a b : Num.neqb a b = false <-> (a == b)%Q.
Proof. unfold Num.neqb. rewrite negb_false_iff. apply Qeq_bool_iff. Qed.

Lemma Num_neqb_true a b : Num.neqb a b = true <-> ~ (a == b)%Q.
Proof.
  unfold Num.neqb.
  rewrite negb_true_iff, <- not_true_iff_false, Qeq_bool_iff. reflexivity.
Qed.

(** ** [Array.prototype.sort] *)

Section ArraySortFacts.
Context {A : Type}.
Variable compareFn : A -> A -> Q.

Lemma sort_insert_Permutation a l :
  Permutation (sort_insert compareFn a l) (a :: l).
Proof.
  induction l as [|b l IH]; simpl; [reflexivity|].
  destruct (Num.leb (compareFn a b) 0); [reflexivity|].
  rewrite IH. apply perm_swap.
Qed.

Lemma Array_sort_Permutation l : Permutation (Array_sort compareFn l) l.
Proof.
  induction l as [|a l IH]; simpl; [reflexivity|].
  rewrite sort_insert_Permutation. now apply perm_skip.
Qed.

(** Elements that may stand before one another in either order stay in
    the order of the input. *)
Lemma sort_insert_filter_in (P : A -> bool) a l :
  (forall b, In b l -> P b = true -> mayPrecede compareFn a b) ->
  P a = true ->
  List.filter P (sort_insert compareFn a l) = a :: List.filter P l.
Proof.
  intros Hcls Ha. induction l as [|b l IH]; simpl.
  - now rewrite Ha.
  - destruct (Num.leb (compareFn a b) 0) eqn:Hab; simpl.
    + now rewrite Ha.
    + destruct (P b) eqn:Hb.
      * exfalso. apply Num_leb_gt in Hab.
        apply (Qlt_not_le _ _ Hab). apply Hcls; [now left | exact Hb].
      * apply IH. intros c Hc. apply Hcls. now right.
Qed.

Lemma sort_insert_filter_out (P : A -> bool) a l :
  P a = false ->
  List.filter P (sort_insert compareFn a l) = List.filter P l.
Proof.
  intros Ha. induction l as [|b l IH]; simpl.
  - now rewrite Ha.
  - destruct (Num.leb (compareFn a b) 0); simpl.
    + now rewrite Ha.
    + now rewrite IH.
Qed.

Lemma Array_sort_stable (P : A -> bool) l :
  (forall a b, P a = true -> P b = true -> mayPrecede compareFn a b) ->
  List.filter P (Array_sort compareFn l) = List.filter P l.
Proof.
  intros Hcls. induction l as [|a l IH]; simpl; [reflexivity|].
  destruct (P a) eqn:Ha.
  - rewrite sort_insert_filter_in; [now rewrite IH | | exact Ha].
    intros b _ Hb. now apply Hcls.
  - rewrite sort_insert_filter_out; [exact IH | exact Ha].
Qed.

Hypothesis total : forall a b, ~ mayPrecede compareFn a b -> mayPrecede compareFn b a.
Hypothesis transitive : forall a b c, mayPrecede compareFn a b -> mayPrecede compareFn b c -> mayPrecede compareFn a c.

Lemma sort_insert_sorted a l :
  StronglySorted (mayPrecede compareFn) l ->
  StronglySorted (mayPrecede compareFn) (sort_insert compareFn a l).
Proof.
  induction 1 as [|b l Hs IH Hb]; simpl.
  - repeat constructor.
  - destruct (Num.leb (compareFn a b) 0) eqn:Hab.
    + apply Num_leb_le in Hab. constructor; [now constructor|].
      constructor; [exact Hab|].
      eapply Forall_impl; [exact Hb|]. intros c Hc. now apply (transitive a b c).
    + constructor; [exact IH|].
      apply (Permutation_Forall (Permutation_sym (sort_insert_Permutation a l))).
      constructor; [|exact Hb].
      apply total. unfold mayPrecede. apply Qlt_not_le. now apply Num_leb_gt.
Qed.

Lemma Array_sort_sorted l : StronglySorted (mayPrecede compareFn) (Array_sort compareFn l).
Proof.
  induction l as [|a l IH]; simpl; [constructor | now apply sort_insert_sorted].
Qed.

Lemma mayPrecede_refl a : mayPrecede compareFn a a.
Proof.
  destruct (Qlt_le_dec 0 (compareFn a a)) as [H|H]; [|exact H].
  apply total. now apply Qlt_not_le.
Qed.

Lemma ties_refl a : ties compareFn a a = true.
Proof.
  unfold ties. rewrite (proj2 (Num_leb_le _ _) (mayPrecede_refl a)). reflexivity.
Qed.

Lemma ties_spec a b : ties compareFn a b = true <-> mayPrecede compareFn a b /\ mayPrecede compareFn b a.
Proof. unfold ties. rewrite andb_true_iff, !Num_leb_le. reflexivity. Qed.

(** A sorted list is determined by the order in which it lists each class
    of elements that compare equal. *)
Lemma stable_sorted_unique l1 : forall l2,
  StronglySorted (mayPrecede compareFn) l1 -> StronglySorted (mayPrecede compareFn) l2 ->
  (forall x, List.filter (ties compareFn x) l1 = List.filter (ties compareFn x) l2) ->
  l1 = l2.
Proof.
  induction l1 as [|a l1 IH]; intros [|b l2] S1 S2 Hcls.
  - reflexivity.
  - specialize (Hcls b). simpl in Hcls. now rewrite ties_refl in Hcls.
  - specialize (Hcls a). simpl in Hcls. now rewrite ties_refl in Hcls.
  - apply StronglySorted_inv in S1 as [S1 F1].
    apply StronglySorted_inv in S2 as [S2 F2].
    assert (Hab : ties compareFn a b = true).
    { apply ties_spec. split.
      - assert (Hin : In b (List.filter (ties compareFn b) (a :: l1))).
        { rewrite (Hcls b). simpl. rewrite ties_refl. now left. }
        apply filter_In in Hin as [[->|Hin] _]; [apply mayPrecede_refl|].
        rewrite List.Forall_forall in F1. now apply F1.
      - assert (Hin : In a (List.filter (ties compareFn a) (b :: l2))).
        { rewrite <- (Hcls a). simpl. rewrite ties_refl. now left. }
        apply filter_In in Hin as [[->|Hin] _]; [apply mayPrecede_refl|].
        rewrite List.Forall_forall in F2. now apply F2. }
    assert (a = b) as <-.
    { specialize (Hcls a). simpl in Hcls. rewrite ties_refl, Hab in Hcls.
      now injection Hcls. }
    f_equal. apply IH; [exact S1 | exact S2 |].
    intros x. specialize (Hcls x). simpl in Hcls.
    destruct (ties compareFn x a); [now injection Hcls | exact Hcls].
Qed.

(** The outcome of [Array_sort] is the only list that is sorted and keeps
    the elements that compare equal in the order of the input. *)
Lemma Array_sort_unique l l' :
  StronglySorted (mayPrecede compareFn) l' ->
  (forall x, List.filter (ties compareFn x) l' = List.filter (ties compareFn x) l) ->
  l' = Array_sort compareFn l.
Proof.
  intros S Hcls. apply stable_sorted_unique; [exact S | apply Array_sort_sorted |].
  intros x. rewrite Hcls. symmetry. apply Array_sort_stable.
  intros a b Ha Hb. apply ties_spec in Ha as [_ Ha]. apply ties_spec in Hb as [Hb _].
  now apply (transitive a x b).
Qed.

End ArraySortFacts.

(** ** The comparator of [preprocessData] *)

Lemma StronglySorted_weaken {A : Type} (R R' : A -> A -> Prop) l :
  (forall a b, R a b -> R' a b) -> StronglySorted R l -> StronglySorted R' l.
Proof.
  intros HR. induction 1 as [|a l Hs IH Ha]; constructor; [exact IH|].
  eapply List.Forall_impl; [|exact Ha]. intros b. apply HR.
Qed.

Lemma compareParts_precedes a b : mayPrecede compareParts a b <-> precedes a b.
Proof.
  unfold mayPrecede, compareParts, precedes.
  destruct (Num.neqb (GroupedPart.width b) (GroupedPart.width a)) eqn:Hw.
  - apply Num_neqb_true in Hw. split; intros H.
    + left. apply Qle_minus_iff in H.
      destruct (Qlt_le_dec (GroupedPart.width b) (GroupedPart.width a)) as [Hlt|Hle];
        [exact Hlt|].
      exfalso. apply Hw. apply Qle_antisym; [|exact Hle]. lra.
    + destruct H as [H|[H _]]; [lra|]. exfalso. apply Hw. now symmetry.
  - apply Num_neqb_false in Hw.
    destruct (Num.neqb (GroupedPart.area b) (GroupedPart.area a)) eqn:Ha.
    + apply Num_neqb_true in Ha. split; intros H.
      * right. split; [now symmetry|]. left.
        destruct (Qlt_le_dec (GroupedPart.area b) (GroupedPart.area a)) as [Hlt|Hle];
          [exact Hlt|].
        exfalso. apply Ha. apply Qle_antisym; [|exact Hle]. lra.
      * destruct H as [H|[_ [H|[H _]]]]; [lra | lra |].
        exfalso. apply Ha. now symmetry.
    + apply Num_neqb_false in Ha. split; intros H.
      * right. split; [now symmetry|]. right. split; [now symmetry|]. lra.
      * destruct H as [H|[_ [H|[_ H]]]]; lra.
Qed.

Lemma precedes_total a b : ~ precedes a b -> precedes b a.
Proof.
  unfold precedes. intros H.
  destruct (Q_dec (GroupedPart.width a) (GroupedPart.width b)) as [[Hw|Hw]|Hw].
  - now left.
  - exfalso. apply H. now left.
  - right. split; [now symmetry|].
    destruct (Q_dec (GroupedPart.area a) (GroupedPart.area b)) as [[Ha|Ha]|Ha].
    + now left.
    + exfalso. apply H. right. split; [exact Hw|]. now left.
    + right. split; [now symmetry|].
      destruct (Qlt_le_dec (GroupedPart.length a) (GroupedPart.length b)) as [Hl|Hl].
      * now apply Qlt_le_weak.
      * exfalso. apply H. right. split; [exact Hw|]. right. now split.
Qed.

Lemma precedes_trans a b c : precedes a b -> precedes b c -> precedes a c.
Proof.
  unfold precedes.
  intros [H1|[H1 [H1'|[H1' H1'']]]] [H2|[H2 [H2'|[H2' H2'']]]];
    first [ left; lra
          | right; split; [lra|]; first [ left; lra | right; split; lra ] ].
Qed.

Lemma compareParts_total a b :
  ~ mayPrecede compareParts a b -> mayPrecede compareParts b a.
Proof. rewrite !compareParts_precedes. apply precedes_total. Qed.

Lemma compareParts_trans a b c :
  mayPrecede compareParts a b -> mayPrecede compareParts b c ->
  mayPrecede compareParts a c.
Proof. rewrite !compareParts_precedes. apply precedes_trans. Qed.

Lemma tie_spec a b : tie a b = true <-> precedes a b /\ precedes b a.
Proof.
  unfold tie, precedes. rewrite !andb_true_iff, !Qeq_bool_iff. split.
  - intros [[Hw Ha] Hl]. split; right; (split; [lra|]); right; split; lra.
  - intros [[H1|[H1 [H1'|[H1' H1'']]]] [H2|[H2 [H2'|[H2' H2'']]]]];
      lra.
Qed.

Lemma tie_ties a b : tie a b = ties compareParts a b.
Proof.
  apply eq_true_iff_eq. rewrite tie_spec, ties_spec, !compareParts_precedes.
  reflexivity.
Qed.

(** The order of a sorted group does not depend on how the engine sorts: it
    is the only arrangement in descending order that keeps ties as they
    were. *)
Lemma sortGroup_canonical g l' :
  StronglySorted precedes l' ->
  (forall a, List.filter (tie a) l' = List.filter (tie a) (MaterialGroup.parts g)) ->
  l' = MaterialGroup.parts (sortGroup g).
Proof.
  intros Hs Ht. unfold sortGroup. simpl.
  apply Array_sort_unique.
  - apply compareParts_total.
  - apply compareParts_trans.
  - revert Hs. apply StronglySorted_weaken.
    intros a b. apply compareParts_precedes.
  - intros a. rewrite <- !(filter_ext _ _ (tie_ties a)). apply Ht.
Qed.

(** ** Objects as dictionaries *)

Section ObjFacts.
Context {V : Type}.
Implicit Types (acc : Obj.t V) (k : string) (ks : list string).

Lemma Obj_get_tabulate (F : string -> V) k ks :
  Obj.get k (map (fun k' => (k', F k')) ks)
  = if in_dec string_dec k ks then Some (F k) else None.
Proof.
  induction ks as [|k0 ks IH]; [reflexivity|].
  cbn [Obj.get map]. rewrite IH.
  destruct (String.eqb_spec k0 k) as [->|Hne].
  - destruct (in_dec string_dec k (k :: ks)) as [_|C]; [reflexivity|].
    destruct C. now left.
  - destruct (in_dec string_dec k ks) as [Hin|Hnin];
      destruct (in_dec string_dec k (k0 :: ks)) as [Hin'|Hnin']; try reflexivity.
    + destruct Hnin'. now right.
    + destruct Hin' as [C|C]; [now destruct Hne | now destruct Hnin].
Qed.

Lemma Obj_set_fresh k (v : V) acc :
  Obj.get k acc = None -> Obj.set k v acc = (acc ++ [(k, v)])%list.
Proof.
  induction acc as [|[k0 w] acc IH]; simpl; [reflexivity|].
  destruct (String.eqb k0 k); [discriminate|].
  intros H. now rewrite IH.
Qed.

Lemma Obj_update_fresh k (f : V -> V) acc :
  Obj.get k acc = None -> Obj.update k f acc = acc.
Proof.
  induction acc as [|[k0 w] acc IH]; simpl; [reflexivity|].
  destruct (String.eqb k0 k); [discriminate|].
  intros H. now rewrite IH.
Qed.

Lemma Obj_update_snoc k (f : V -> V) (v : V) acc :
  Obj.get k acc = None ->
  Obj.update k f (acc ++ [(k, v)]) = (acc ++ [(k, f v)])%list.
Proof.
  induction acc as [|[k0 w] acc IH]; simpl.
  - now rewrite String.eqb_refl.
  - destruct (String.eqb k0 k); [discriminate|].
    intros H. now rewrite IH.
Qed.

Lemma Obj_update_tabulate (F : string -> V) (f : V -> V) k ks :
  List.NoDup ks ->
  Obj.update k f (map (fun k' => (k', F k')) ks)
  = map (fun k' => (k', if String.eqb k' k then f (F k') else F k')) ks.
Proof.
  induction 1 as [|k0 ks Hk0 Hnd IH]; simpl; [reflexivity|].
  destruct (String.eqb_spec k0 k) as [->|Hne].
  - f_equal. apply map_ext_in. intros k' Hk'.
    destruct (String.eqb_spec k' k) as [->|_]; [now destruct Hk0 | reflexivity].
  - now rewrite IH.
Qed.

End ObjFacts.

(** ** First occurrences *)

Lemma firstOccurrences_In k ks : In k (firstOccurrences ks) <-> In k ks.
Proof.
  induction ks as [|k0 ks IH]; simpl; [reflexivity|].
  rewrite filter_In, IH, negb_true_iff.
  destruct (String.eqb_spec k k0) as [->|Hne]; [tauto|].
  split; [tauto|]. intros [->|H]; [now destruct Hne | tauto].
Qed.

Lemma firstOccurrences_NoDup ks : List.NoDup (firstOccurrences ks).
Proof.
  induction ks as [|k0 ks IH]; simpl; constructor.
  - rewrite filter_In, String.eqb_refl. now intros [_ H].
  - now apply List.NoDup_filter.
Qed.

Lemma firstOccurrences_snoc ks k :
  firstOccurrences (ks ++ [k])
  = if in_dec string_dec k ks then firstOccurrences ks
    else (firstOccurrences ks ++ [k])%list.
Proof.
  induction ks as [|k0 ks IH]; [reflexivity|].
  cbn [app firstOccurrences]. rewrite IH.
  destruct (in_dec string_dec k ks) as [Hin|Hnin];
    destruct (in_dec string_dec k (k0 :: ks)) as [Hin'|Hnin']; try reflexivity.
  - destruct Hnin'. now right.
  - destruct Hin' as [->|C]; [|now destruct Hnin].
    rewrite List.filter_app. simpl. rewrite String.eqb_refl. simpl.
    now rewrite app_nil_r.
  - rewrite List.filter_app. simpl.
    destruct (String.eqb_spec k k0) as [->|_]; [|reflexivity].
    destruct Hnin'. now left.
Qed.

(** ** [preprocessData] in closed form *)

Section GroupingFacts.
Variable Number_toString : Q -> string.
Variable maxSheetLength : Q.

Local Abbreviation key := (materialKeyOf Number_toString).
Local Abbreviation keysOf parts := (map (materialKeyOf Number_toString) parts).

Lemma withKey_app k l l' :
  withKey Number_toString k (l ++ l')
  = withKey Number_toString k l ++ withKey Number_toString k l'.
Proof. apply List.filter_app. Qed.

Lemma withKey_In k l p :
  In p (withKey Number_toString k l) <-> In p l /\ key p = k.
Proof. unfold withKey. rewrite filter_In, String.eqb_eq. reflexivity. Qed.

Lemma withKey_nil k l :
  ~ In k (keysOf l) -> withKey Number_toString k l = [].
Proof.
  intros Hk. destruct (withKey Number_toString k l) as [|p w] eqn:E; [reflexivity|].
  exfalso. apply Hk. apply in_map_iff. exists p.
  assert (Hp : In p (withKey Number_toString k l)) by (rewrite E; now left).
  apply withKey_In in Hp. tauto.
Qed.

Lemma withKey_cons k l :
  In k (keysOf l) -> exists p w, withKey Number_toString k l = p :: w.
Proof.
  intros Hk. apply in_map_iff in Hk as [p [Hp Hin]].
  destruct (withKey Number_toString k l) as [|p' w] eqn:E; [|now eauto].
  exfalso. assert (In p (withKey Number_toString k l)) as H
    by (apply withKey_In; tauto).
  now rewrite E in H.
Qed.

Lemma bucket_snoc_other l p k :
  key p <> k ->
  bucket Number_toString maxSheetLength (l ++ [p]) k
  = bucket Number_toString maxSheetLength l k.
Proof.
  intros Hne. unfold bucket. rewrite withKey_app.
  assert (withKey Number_toString k [p] = []) as ->.
  { unfold withKey. simpl. now destruct (String.eqb_spec (key p) k). }
  now rewrite app_nil_r.
Qed.

Lemma bucket_snoc_new l p :
  ~ In (key p) (keysOf l) ->
  bucket Number_toString maxSheetLength (l ++ [p]) (key p)
  = MaterialGroup.mk (key p) (Part.thickness p) (Part.grade p)
      [annotate maxSheetLength p].
Proof.
  intros Hk. unfold bucket. rewrite withKey_app, (withKey_nil _ _ Hk).
  unfold withKey. simpl. now rewrite String.eqb_refl.
Qed.

Lemma bucket_snoc_old l p :
  In (key p) (keysOf l) ->
  bucket Number_toString maxSheetLength (l ++ [p]) (key p)
  = MaterialGroup.withParts (bucket Number_toString maxSheetLength l (key p))
      (MaterialGroup.parts (bucket Number_toString maxSheetLength l (key p))
       ++ [annotate maxSheetLength p]).
Proof.
  intros Hk. unfold bucket. rewrite withKey_app.
  destruct (withKey_cons _ _ Hk) as [p0 [w ->]].
  unfold withKey at 1 2. simpl. rewrite String.eqb_refl. simpl.
  unfold MaterialGroup.withParts. simpl.
  now rewrite map_app.
Qed.

Lemma groupStep_closed_form l p :
  groupStep Number_toString maxSheetLength
    (map (fun k => (k, bucket Number_toString maxSheetLength l k))
       (firstOccurrences (keysOf l))) p
  = map (fun k => (k, bucket Number_toString maxSheetLength (l ++ [p]) k))
      (firstOccurrences (keysOf (l ++ [p]))).
Proof.
  unfold groupStep. rewrite Obj_get_tabulate, map_app. simpl map.
  rewrite firstOccurrences_snoc.
  destruct (in_dec string_dec (key p) (firstOccurrences (keysOf l))) as [Hin|Hnin];
    destruct (in_dec string_dec (key p) (keysOf l)) as [Hin'|Hnin'];
    try (exfalso; rewrite firstOccurrences_In in *; tauto).
  - rewrite Obj_update_tabulate by apply firstOccurrences_NoDup.
    apply map_ext. intros k.
    destruct (String.eqb_spec k (key p)) as [->|Hne].
    + now rewrite bucket_snoc_old.
    + rewrite bucket_snoc_other; [reflexivity | congruence].
  - rewrite Obj_set_fresh, Obj_update_snoc, map_app.
    + simpl. rewrite bucket_snoc_new by exact Hnin'.
      f_equal. apply map_ext_in. intros k Hk.
      rewrite bucket_snoc_other; [reflexivity|].
      intros <-. now apply Hnin.
    + rewrite Obj_get_tabulate.
      now destruct (in_dec string_dec (key p) (firstOccurrences (keysOf l))).
    + rewrite Obj_get_tabulate.
      now destruct (in_dec string_dec (key p) (firstOccurrences (keysOf l))).
Qed.

Lemma groups_closed_form parts :
  fold_left (groupStep Number_toString maxSheetLength) parts []
  = map (fun k => (k, bucket Number_toString maxSheetLength parts k))
      (firstOccurrences (keysOf parts)).
Proof.
  induction parts as [|p l IH] using rev_ind; [reflexivity|].
  rewrite fold_left_app. simpl. rewrite IH. apply groupStep_closed_form.
Qed.

Lemma preprocessData_closed_form parts :
  preprocessData Number_toString parts maxSheetLength
  = map (fun k => sortGroup (bucket Number_toString maxSheetLength parts k))
      (firstOccurrences (keysOf parts)).
Proof.
  unfold preprocessData, Obj.values. rewrite groups_closed_form, !map_map.
  reflexivity.
Qed.

End GroupingFacts.

(** ** The group key *)

Lemma string_app_nil (t : string) : (EmptyString ++ t)%string = t.
Proof. reflexivity. Qed.

Lemma string_app_cons c (s t : string) :
  (String c s ++ t)%string = String c (s ++ t)%string.
Proof. reflexivity. Qed.

Ltac string_app := rewrite ?string_app_cons, ?string_app_nil in *.

Lemma string_app_assoc (s t u : string) : ((s ++ t) ++ u = s ++ (t ++ u))%string.
Proof. induction s as [|c s IH]; string_app; [reflexivity | now rewrite IH]. Qed.

Lemma string_length_app (s t : string) :
  String.length (s ++ t)%string = String.length s + String.length t.
Proof.
  induction s as [|c s IH]; string_app; simpl; [reflexivity | now rewrite IH].
Qed.

Lemma string_app_cancel_r (t s1 s2 : string) :
  (s1 ++ t = s2 ++ t)%string -> s1 = s2.
Proof.
  revert s2. induction s1 as [|c s1 IH]; intros [|d s2] H; string_app.
  - reflexivity.
  - apply (f_equal String.length) in H. simpl in H.
    rewrite string_length_app in H. lia.
  - apply (f_equal String.length) in H. simpl in H.
    rewrite string_length_app in H. lia.
  - injection H as -> H. f_equal. now apply IH.
Qed.

Lemma occurs_app c (s t : string) :
  occurs c (s ++ t)%string = occurs c s || occurs c t.
Proof.
  induction s as [|d s IH]; string_app; simpl; [reflexivity|].
  now rewrite IH, orb_assoc.
Qed.

(** A text is cut in one way only at its last occurrence of [c]. *)
Lemma split_at_last c (a a' b b' : string) :
  occurs c b = false -> occurs c b' = false ->
  (a ++ String c b = a' ++ String c b')%string -> a = a' /\ b = b'.
Proof.
  intros Hb Hb'. revert a'.
  induction a as [|x a IH]; intros [|x' a'] H; string_app.
  - injection H as H. now split.
  - injection H as <- H. exfalso.
    rewrite H, occurs_app in Hb. simpl in Hb.
    rewrite Ascii.eqb_refl, orb_true_r in Hb. discriminate.
  - injection H as -> H. exfalso.
    rewrite <- H, occurs_app in Hb'. simpl in Hb'.
    rewrite Ascii.eqb_refl, orb_true_r in Hb'. discriminate.
  - injection H as -> H. destruct (IH _ H) as [-> ->]. now split.
Qed.

Section KeyFacts.
Variable Number_toString : Q -> string.
Local Abbreviation key := (materialKeyOf Number_toString).

(** Every key ends in "mm": none is a canonical array index, and
    [Object.values] lists the groups in insertion order. *)
Lemma materialKeyOf_suffix p : exists s, key p = (s ++ "mm")%string.
Proof.
  exists (Part.grade p ++ "_" ++ Number_toString (Part.thickness p))%string.
  unfold materialKeyOf. now rewrite !string_app_assoc.
Qed.

Lemma materialKeyOf_inj p q :
  occurs "_" (Number_toString (Part.thickness p)) = false ->
  occurs "_" (Number_toString (Part.thickness q)) = false ->
  key p = key q ->
  Part.grade p = Part.grade q
  /\ Number_toString (Part.thickness p) = Number_toString (Part.thickness q).
Proof.
  intros Hp Hq H. unfold materialKeyOf in H. string_app.
  apply split_at_last in H as [Hg Ht].
  - split; [exact Hg|]. now apply (string_app_cancel_r "mm").
  - rewrite occurs_app, Hp. reflexivity.
  - rewrite occurs_app, Hq. reflexivity.
Qed.

Lemma thicknessTextFaithful_spec parts :
  thicknessTextFaithful Number_toString parts = true ->
  forall p q, In p parts -> In q parts ->
    (key p = key q <->
     Part.grade p = Part.grade q /\ (Part.thickness p == Part.thickness q)%Q).
Proof.
  unfold thicknessTextFaithful. rewrite forallb_forall.
  intros H p q Hp Hq.
  destruct (proj1 (andb_true_iff _ _) (H p Hp)) as [Hup Hfp].
  destruct (proj1 (andb_true_iff _ _) (H q Hq)) as [Huq _].
  apply negb_true_iff in Hup, Huq.
  rewrite forallb_forall in Hfp. specialize (Hfp q Hq).
  apply Bool.eqb_prop in Hfp.
  split.
  - intros Hk. apply materialKeyOf_inj in Hk as [Hg Ht]; try assumption.
    split; [exact Hg|]. apply Qeq_bool_iff. rewrite <- Hfp.
    now apply String.eqb_eq.
  - intros [Hg Ht]. apply Qeq_bool_iff in Ht. rewrite <- Hfp in Ht.
    apply String.eqb_eq in Ht. unfold materialKeyOf. now rewrite Hg, Ht.
Qed.

End KeyFacts.

(** ** The groups partition the input *)

Lemma filter_all {A : Type} (f : A -> bool) l :
  (forall a, In a l -> f a = true) -> List.filter f l = l.
Proof.
  induction l as [|a l IH]; simpl; intros H; [reflexivity|].
  rewrite (H a) by now left. f_equal. apply IH. intros b Hb. apply H. now right.
Qed.

(** The lists [G k], for [k] running over distinct keys, with the one of
    [k0] taken out in front. *)
Lemma flat_map_take_out {A : Type} (G : string -> list A) k0 ks :
  List.NoDup ks ->
  (~ In k0 ks -> G k0 = []) ->
  Permutation (flat_map G ks)
    (G k0 ++ flat_map G (List.filter (fun k => negb (String.eqb k k0)) ks)).
Proof.
  induction 1 as [|k ks Hk Hnd IH]; intros Hout.
  - rewrite Hout by tauto. reflexivity.
  - simpl. destruct (String.eqb_spec k k0) as [->|Hne]; simpl.
    + rewrite filter_all; [reflexivity|].
      intros k Hin. apply negb_true_iff.
      destruct (String.eqb_spec k k0) as [->|_]; [now destruct Hk | reflexivity].
    + rewrite IH.
      * apply Permutation_app_swap_app.
      * intros Hin. apply Hout. intros [C|C]; [now destruct Hne | now destruct Hin].
Qed.

Lemma Permutation_flat_map_pointwise {A B : Type} (f g : A -> list B) l :
  (forall a, In a l -> Permutation (f a) (g a)) ->
  Permutation (flat_map f l) (flat_map g l).
Proof.
  induction l as [|a l IH]; simpl; intros H; [reflexivity|].
  apply Permutation_app; [apply H; now left|].
  apply IH. intros b Hb. apply H. now right.
Qed.

Section PartitionFacts.
Variable Number_toString : Q -> string.
Variable maxSheetLength : Q.
Local Abbreviation key := (materialKeyOf Number_toString).
Local Abbreviation keysOf parts := (map (materialKeyOf Number_toString) parts).
Local Abbreviation group parts k :=
  (sortGroup (bucket Number_toString maxSheetLength parts k)).

Lemma withKey_partition parts :
  Permutation
    (flat_map (fun k => withKey Number_toString k parts)
       (firstOccurrences (keysOf parts)))
    parts.
Proof.
  induction parts as [|p l IH]; [reflexivity|].
  cbn [map firstOccurrences flat_map].
  unfold withKey at 1. cbn [List.filter]. rewrite String.eqb_refl.
  cbn [app]. apply perm_skip.
  etransitivity; [|exact IH]. symmetry.
  etransitivity;
    [ apply (flat_map_take_out (fun k => withKey Number_toString k l) (key p));
      [ apply firstOccurrences_NoDup
      | rewrite firstOccurrences_In; apply withKey_nil ] |].
  apply Permutation_app_head. apply Permutation_flat_map_pointwise.
  intros k Hk. apply filter_In in Hk as [_ Hk]. apply negb_true_iff in Hk.
  unfold withKey. cbn [List.filter].
  rewrite String.eqb_sym, Hk. reflexivity.
Qed.

Lemma bucket_parts parts k :
  MaterialGroup.parts (bucket Number_toString maxSheetLength parts k)
  = map (annotate maxSheetLength) (withKey Number_toString k parts).
Proof.
  unfold bucket. now destruct (withKey Number_toString k parts).
Qed.

Lemma bucket_key parts k :
  MaterialGroup.materialKey (bucket Number_toString maxSheetLength parts k) = k.
Proof.
  unfold bucket. now destruct (withKey Number_toString k parts).
Qed.

(** A group takes its fields from a part of the input that carries its key. *)
Lemma bucket_first parts k :
  In k (keysOf parts) ->
  exists p, In p parts /\ key p = k
    /\ MaterialGroup.thickness (bucket Number_toString maxSheetLength parts k)
       = Part.thickness p
    /\ MaterialGroup.grade (bucket Number_toString maxSheetLength parts k)
       = Part.grade p.
Proof.
  intros Hk. destruct (withKey_cons _ _ _ Hk) as [p [w E]].
  assert (Hp : In p (withKey Number_toString k parts)) by (rewrite E; now left).
  apply withKey_In in Hp as [Hp Hkp].
  exists p. unfold bucket. rewrite E. simpl. tauto.
Qed.

Lemma group_parts parts k :
  MaterialGroup.parts (group parts k)
  = Array_sort compareParts
      (map (annotate maxSheetLength) (withKey Number_toString k parts)).
Proof. unfold sortGroup. simpl. now rewrite bucket_parts. Qed.

Lemma preprocessData_keys parts :
  map MaterialGroup.materialKey
    (preprocessData Number_toString parts maxSheetLength)
  = firstOccurrences (keysOf parts).
Proof.
  rewrite preprocessData_closed_form, map_map.
  rewrite <- (map_id (firstOccurrences (keysOf parts))) at 2.
  apply map_ext. intros k. unfold sortGroup. simpl. apply bucket_key.
Qed.

Lemma preprocessData_In parts g :
  In g (preprocessData Number_toString parts maxSheetLength) <->
  exists k, In k (keysOf parts) /\ g = group parts k.
Proof.
  rewrite preprocessData_closed_form, in_map_iff.
  split; intros [k [H1 H2]]; exists k.
  - apply (proj1 (firstOccurrences_In _ _)) in H2.
    split; [exact H2 | now symmetry].
  - split; [now symmetry | now apply (proj2 (firstOccurrences_In _ _))].
Qed.

Lemma preprocessData_partition parts :
  Permutation
    (flat_map MaterialGroup.parts
       (preprocessData Number_toString parts maxSheetLength))
    (map (annotate maxSheetLength) parts).
Proof.
  rewrite preprocessData_closed_form, flat_map_concat_map, map_map,
    <- flat_map_concat_map.
  etransitivity;
    [| apply Permutation_map; apply (withKey_partition parts) ].
  rewrite (flat_map_concat_map (fun k => withKey Number_toString k parts)),
    concat_map, map_map, <- flat_map_concat_map.
  apply Permutation_flat_map_pointwise. intros k _.
  rewrite group_parts. apply Array_sort_Permutation.
Qed.

End PartitionFacts.

(** * The grouper: [preprocessData] *)

Section GrouperClaims.
Variable Number_toString : Q -> string.
Variable maxSheetLength : Q.
Local Abbreviation key := (materialKeyOf Number_toString).
Local Abbreviation keysOf parts := (map (materialKeyOf Number_toString) parts).

Lemma group_fields parts k :
  In k (keysOf parts) ->
  exists p, In p parts /\ key p = k
    /\ MaterialGroup.materialKey
         (sortGroup (bucket Number_toString maxSheetLength parts k)) = k
    /\ MaterialGroup.thickness
         (sortGroup (bucket Number_toString maxSheetLength parts k))
       = Part.thickness p
    /\ MaterialGroup.grade
         (sortGroup (bucket Number_toString maxSheetLength parts k))
       = Part.grade p.
Proof.
  intros Hk. destruct (bucket_first Number_toString maxSheetLength _ _ Hk)
    as [p [Hp [Hkp [Ht Hg]]]].
  exists p. unfold sortGroup. simpl. rewrite bucket_key. tauto.
Qed.

Lemma annotate_in_group parts k a :
  In a (MaterialGroup.parts
          (sortGroup (bucket Number_toString maxSheetLength parts k))) ->
  exists p, In p parts /\ key p = k /\ a = annotate maxSheetLength p.
Proof.
  rewrite group_parts. intros Ha.
  apply (Permutation_in _ (Array_sort_Permutation compareParts _)) in Ha.
  apply in_map_iff in Ha as [p [<- Hp]]. apply withKey_In in Hp.
  exists p. tauto.
Qed.

(** C4. For every part list on whose thicknesses the number-to-text
    conversion is faithful, and every [maxSheetLength], [preprocessData]
    partitions the parts into groups keyed by (grade, thickness): one group
    per distinct pair, in first-occurrence order, every part in exactly one
    group, annotated with [area = width * length] and
    [exceedsSheetLength = (length > maxSheetLength)]. *)
Theorem preprocessData_groups_by_material parts :
  thicknessTextFaithful Number_toString parts = true ->
  GroupedByMaterial Number_toString parts maxSheetLength
    (preprocessData Number_toString parts maxSheetLength).
Proof.
  intros Hfaith.
  pose proof (thicknessTextFaithful_spec _ _ Hfaith) as Hkey.
  unfold GroupedByMaterial. repeat apply conj.
  - apply preprocessData_keys.
  - rewrite preprocessData_keys. apply firstOccurrences_NoDup.
  - intros g Hg. apply preprocessData_In in Hg as [k [Hk ->]].
    destruct (group_fields _ _ Hk) as [p [_ [Hkp [-> [-> ->]]]]].
    now rewrite <- Hkp.
  - intros g h Hg Hh Hgr Hth.
    apply preprocessData_In in Hg as [k [Hk ->]].
    apply preprocessData_In in Hh as [k' [Hk' ->]].
    destruct (group_fields _ _ Hk) as [p [Hp [Hkp [_ [Ht Hgd]]]]].
    destruct (group_fields _ _ Hk') as [p' [Hp' [Hkp' [_ [Ht' Hgd']]]]].
    rewrite Ht, Ht' in Hth. rewrite Hgd, Hgd' in Hgr.
    assert (k = k') as ->; [|reflexivity].
    rewrite <- Hkp, <- Hkp'. apply Hkey; tauto.
  - intros g Hg. apply preprocessData_In in Hg as [k [Hk ->]].
    destruct (group_fields _ _ Hk) as [p [Hp [Hkp [_ [Ht Hgd]]]]].
    rewrite Ht, Hgd, group_parts. split.
    + intros E.
      assert (Hin : In (annotate maxSheetLength p)
                      (Array_sort compareParts
                         (map (annotate maxSheetLength)
                            (withKey Number_toString k parts)))).
      { apply (Permutation_in _
                 (Permutation_sym (Array_sort_Permutation compareParts _))).
        apply in_map. apply withKey_In. tauto. }
      now rewrite E in Hin.
    + rewrite Array_sort_Permutation. apply Permutation_map.
      unfold withKey. erewrite filter_ext_in; [reflexivity|].
      intros q Hq. cbv beta. apply eq_true_iff_eq.
      rewrite andb_true_iff, !String.eqb_eq, Qeq_bool_iff, <- Hkp.
      apply Hkey; assumption.
  - apply preprocessData_partition.
  - intros g a Hg Ha. apply preprocessData_In in Hg as [k [Hk ->]].
    apply annotate_in_group in Ha as [p [_ [_ ->]]]. simpl.
    split; [reflexivity | apply Num_gtb_gt].
Qed.

(** C5. Within every group that [preprocessData] returns, the parts are in
    descending order of width, then of area, then of length, and parts that
    tie on the three keys are in the order of the input. *)
Theorem preprocessData_sorts_stably parts :
  Forall (fun g =>
      StronglySorted precedes (MaterialGroup.parts g)
      /\ forall a,
           List.filter (tie a) (MaterialGroup.parts g)
           = List.filter (tie a)
               (map (annotate maxSheetLength)
                  (withKey Number_toString (MaterialGroup.materialKey g) parts)))
    (preprocessData Number_toString parts maxSheetLength).
Proof.
  apply List.Forall_forall. intros g Hg.
  apply preprocessData_In in Hg as [k [Hk ->]].
  destruct (group_fields _ _ Hk) as [_ [_ [_ [-> _]]]].
  rewrite group_parts. split.
  - apply (StronglySorted_weaken (mayPrecede compareParts)).
    + intros a b. apply compareParts_precedes.
    + apply Array_sort_sorted; [apply compareParts_total | apply compareParts_trans].
  - intros a. apply Array_sort_stable.
    intros b c Hb Hc. apply compareParts_precedes.
    apply tie_spec in Hb as [_ Hb]. apply tie_spec in Hc as [Hc _].
    now apply (precedes_trans b a c).
Qed.

End GrouperClaims.

(** * The engine call: [runOptimization] *)

(** ** The tests on a result, read as statements *)

Lemma allButLast_spec {A : Type} (ok : A -> bool) (l : list A) :
  Invariant.allButLast ok l = true <->
  forall (i : nat) a, l !! i = Some a -> S i < List.length l -> ok a = true.
Proof.
  induction l as [|a [|b l] IH].
  - split; [intros _ i a H | reflexivity]. discriminate.
  - split; [intros _ [|i] c H Hi; simpl in Hi; lia | reflexivity].
  - change (Invariant.allButLast ok (a :: b :: l))
      with (ok a && Invariant.allButLast ok (b :: l)).
    rewrite andb_true_iff, IH. split.
    + intros [Ha H] [|i] c Hc Hi.
      * now injection Hc as <-.
      * apply (H i c Hc). simpl in *. lia.
    + intros H. split.
      * apply (H 0%nat a eq_refl). simpl. lia.
      * intros i c Hc Hi. apply (H (S i) c Hc). simpl in *. lia.
Qed.

Lemma In_lookup {A : Type} (l : list A) a :
  In a l <-> exists i : nat, l !! i = Some a.
Proof. rewrite <- list_elem_of_In. apply list_elem_of_lookup. Qed.

Lemma sheetsWithinBounds_spec parameters widths result :
  Invariant.sheetsWithinBounds parameters widths result = true <->
  SheetsWithinBounds parameters widths result.
Proof.
  unfold Invariant.sheetsWithinBounds, Invariant.allSheets, SheetsWithinBounds.
  rewrite andb_true_iff, !forallb_forall.
  split.
  - intros [Hall Hwin] group Hg i sheet Hs.
    specialize (Hall group Hg). rewrite forallb_forall in Hall.
    assert (Hin : In sheet (OptimizationGroupResult.layouts group))
      by (apply In_lookup; eauto).
    specialize (Hall sheet Hin). apply andb_true_iff in Hall as [Hlen Hw].
    split; [now apply Num_leb_le|]. split.
    + unfold Invariant.isCandidateWidth in Hw. apply existsb_exists in Hw.
      destruct Hw as [w [Hw Heq]]. exists w. split; [exact Hw|].
      now apply Qeq_bool_iff.
    + intros Hi. specialize (Hwin group Hg).
      rewrite allButLast_spec in Hwin. specialize (Hwin i sheet Hs Hi).
      unfold Invariant.inWeightWindow in Hwin.
      apply andb_true_iff in Hwin as [H1 H2].
      split; now apply Num_leb_le.
  - intros H. split.
    + intros group Hg. apply forallb_forall. intros sheet Hs.
      apply In_lookup in Hs as [i Hs].
      destruct (H group Hg i sheet Hs) as [Hlen [[w [Hw Heq]] _]].
      apply andb_true_iff. split; [now apply Num_leb_le|].
      apply existsb_exists. exists w. split; [exact Hw|].
      now apply Qeq_bool_iff.
    + intros group Hg. apply allButLast_spec. intros i sheet Hs Hi.
      destruct (H group Hg i sheet Hs) as [_ [_ Hwin]].
      destruct (Hwin Hi) as [H1 H2].
      unfold Invariant.inWeightWindow. apply andb_true_iff.
      split; now apply Num_leb_le.
Qed.

Lemma kerfApart_spec kerf p q :
  Invariant.kerfApart kerf p q = true <-> KerfApart kerf p q.
Proof.
  unfold Invariant.kerfApart, KerfApart.
  rewrite !orb_true_iff, !Num_leb_le. tauto.
Qed.

Lemma KerfApart_sym kerf p q : KerfApart kerf p q -> KerfApart kerf q p.
Proof. unfold KerfApart. tauto. Qed.

Lemma pairwise_spec {A : Type} (ok : A -> A -> bool) (l : list A) :
  (forall a b, ok a b = true -> ok b a = true) ->
  (Invariant.pairwise ok l = true <->
   forall (i j : nat) a b, i <> j -> l !! i = Some a -> l !! j = Some b ->
     ok a b = true).
Proof.
  intros Hsym. induction l as [|c l IH]; simpl.
  - split; [intros _ i j a b _ H | reflexivity]. discriminate.
  - rewrite andb_true_iff, forallb_forall, IH. split.
    + intros [Hc Hl] [|i] [|j] a b Hij Ha Hb; simpl in *.
      * now destruct Hij.
      * injection Ha as <-. apply Hc. apply In_lookup. eauto.
      * injection Hb as <-. apply Hsym, Hc. apply In_lookup. eauto.
      * apply (Hl i j); [congruence | exact Ha | exact Hb].
    + intros H. split.
      * intros b Hb. apply In_lookup in Hb as [j Hb].
        apply (H 0%nat (S j)); [discriminate | reflexivity | exact Hb].
      * intros i j a b Hij Ha Hb.
        apply (H (S i) (S j)); [congruence | exact Ha | exact Hb].
Qed.

Lemma placementsValid_spec parameters result :
  Invariant.placementsValid parameters result = true <->
  PlacementsValid parameters result.
Proof.
  unfold Invariant.placementsValid, Invariant.allSheets, PlacementsValid.
  rewrite forallb_forall.
  assert (Hsheet : forall sheet,
    Invariant.placementsOk (UserParameters.kerf parameters) sheet = true <->
    (forall p, In p (SheetLayout.nestedParts sheet) ->
       (0 <= NestedPart.x p /\ 0 <= NestedPart.y p
        /\ NestedPart.x p + Invariant.effectiveWidth p <= SheetLayout.width sheet
        /\ NestedPart.y p + Invariant.effectiveLength p
           <= SheetLayout.length sheet)%Q)
    /\ (forall (i j : nat) p q, i <> j ->
          SheetLayout.nestedParts sheet !! i = Some p ->
          SheetLayout.nestedParts sheet !! j = Some q ->
          KerfApart (UserParameters.kerf parameters) p q)).
  { intros sheet. unfold Invariant.placementsOk.
    rewrite andb_true_iff, forallb_forall, pairwise_spec
      by (intros a b; rewrite !kerfApart_spec; apply KerfApart_sym).
    split; intros [H1 H2]; split.
    - intros p Hp. specialize (H1 p Hp). unfold Invariant.insideSheet in H1.
      rewrite !andb_true_iff, !Num_leb_le in H1. tauto.
    - intros i j p q Hij Hp Hq. apply kerfApart_spec. now apply (H2 i j).
    - intros p Hp. specialize (H1 p Hp). unfold Invariant.insideSheet.
      rewrite !andb_true_iff, !Num_leb_le. tauto.
    - intros i j p q Hij Hp Hq. apply kerfApart_spec. now apply (H2 i j). }
  split.
  - intros H group Hg sheet Hs. apply Hsheet.
    specialize (H group Hg). rewrite forallb_forall in H. now apply H.
  - intros H group Hg. apply forallb_forall. intros sheet Hs.
    apply Hsheet. exact (H group Hg sheet Hs).
Qed.

(** ** What a run does *)

Section EngineFacts.
Variable Number_toString : Q -> string.

Lemma runOptimization_calls generateContent parts parameters :
  fst (runOptimization Number_toString generateContent parts parameters)
  = [CallPreprocessData parts (UserParameters.maxSheetLength parameters);
     CallGenerateContent (promptFor Number_toString parts parameters)].
Proof. reflexivity. Qed.

(** A run returns a result exactly when the reply parses, and then it
    returns the parsed value itself. *)
Lemma runOptimization_returns generateContent parts parameters result :
  snd (runOptimization Number_toString generateContent parts parameters)
  = Returns result
  <-> generateContent (promptFor Number_toString parts parameters)
      = Parsed result.
Proof.
  unfold runOptimization, promptFor. simpl.
  destruct (generateContent _) as [[message|]|r]; simpl.
  - destruct (includes message "API_KEY"); split; discriminate.
  - split; discriminate.
  - split; intros H; injection H as ->; reflexivity.
Qed.

Lemma preprocessData_keeps maxSheetLength parts p :
  In p parts ->
  exists group,
    In group (preprocessData Number_toString parts maxSheetLength)
    /\ In (annotate maxSheetLength p) (MaterialGroup.parts group).
Proof.
  intros Hp. apply in_flat_map.
  apply (Permutation_in _
           (Permutation_sym
              (preprocessData_partition Number_toString maxSheetLength parts))).
  now apply in_map.
Qed.

End EngineFacts.

Section EngineClaims.
Variable Number_toString : Q -> string.

(** C1, as amended. Two runs on identical parts and parameters make the
    same calls and send the same prompt, and they end alike whenever the
    remote model gives the same reply to that prompt: the outcome is a
    function of the parts, the parameters and that reply, and of nothing
    kept from an earlier run. *)
Theorem runOptimization_determined_by_reply
    (generateContent1 generateContent2 : Prompt -> Reply) parts parameters :
  generateContent1 (promptFor Number_toString parts parameters)
  = generateContent2 (promptFor Number_toString parts parameters) ->
  runOptimization Number_toString generateContent1 parts parameters
  = runOptimization Number_toString generateContent2 parts parameters.
Proof.
  intros H. unfold runOptimization. fold (promptFor Number_toString parts parameters).
  now rewrite H.
Qed.

(** C2, as amended. For every result that [runOptimization] returns, if
    the reply of the remote model keeps every sheet within
    [maxSheetLength], on a candidate width and, the last sheet of a group
    apart, within the roll weight range, then so does the result: the
    sheets are those of the reply. *)
Theorem runOptimization_sheets_as_replied
    generateContent parts parameters widths result :
  snd (runOptimization Number_toString generateContent parts parameters)
  = Returns result ->
  (forall reply,
     generateContent (promptFor Number_toString parts parameters) = Parsed reply ->
     Invariant.sheetsWithinBounds parameters widths reply = true) ->
  SheetsWithinBounds parameters widths result.
Proof.
  intros Hrun Hreply. apply runOptimization_returns in Hrun.
  apply sheetsWithinBounds_spec. now apply Hreply.
Qed.

(** C3, as amended. For every result that [runOptimization] returns, if
    in the reply of the remote model every placement lies within its sheet
    and every two placements of a sheet keep the kerf between them, then so
    it is in the result: the placements are those of the reply. *)
Theorem runOptimization_placements_as_replied
    generateContent parts parameters result :
  snd (runOptimization Number_toString generateContent parts parameters)
  = Returns result ->
  (forall reply,
     generateContent (promptFor Number_toString parts parameters) = Parsed reply ->
     Invariant.placementsValid parameters reply = true) ->
  PlacementsValid parameters result.
Proof.
  intros Hrun Hreply. apply runOptimization_returns in Hrun.
  apply placementsValid_spec. now apply Hreply.
Qed.

(** C7, as amended. Every part whose length exceeds [maxSheetLength] is
    flagged [exceedsSheetLength = true] and stays in its group, which is
    sent to the remote model in the prompt. *)
Theorem runOptimization_flags_long_parts generateContent parts parameters p :
  In p parts ->
  (UserParameters.maxSheetLength parameters < Part.length p)%Q ->
  exists group a,
    In (CallGenerateContent (promptFor Number_toString parts parameters))
      (fst (runOptimization Number_toString generateContent parts parameters))
    /\ In group
         (prompt_materialGroups (promptFor Number_toString parts parameters))
    /\ In a (MaterialGroup.parts group)
    /\ GroupedPart.part a = p
    /\ GroupedPart.exceedsSheetLength a = true.
Proof.
  intros Hp Hlong.
  destruct (preprocessData_keeps Number_toString
              (UserParameters.maxSheetLength parameters) parts p Hp)
    as [group [Hg Ha]].
  exists group, (annotate (UserParameters.maxSheetLength parameters) p).
  repeat split.
  - rewrite runOptimization_calls. right. now left.
  - exact Hg.
  - exact Ha.
  - simpl. now apply Num_gtb_gt.
Qed.

End EngineClaims.

(** ** On sample data *)

Lemma preprocessData_groups_by_material_witness :
  thicknessTextFaithful Decimal.toString Sample.mixedParts = true
  /\ GroupedByMaterial Decimal.toString Sample.mixedParts 18000
       (preprocessData Decimal.toString Sample.mixedParts 18000).
Proof.
  split; [reflexivity|].
  apply (preprocessData_groups_by_material Decimal.toString 18000 Sample.mixedParts).
  reflexivity.
Defined.

(** The groups of the sample, by the ids of their parts: the tie between
    [b] and [b2] is left in the order of the input. *)
Example preprocessData_sample :
  map (fun g => (MaterialGroup.materialKey g,
                 map (fun a => Part.id (GroupedPart.part a))
                   (MaterialGroup.parts g)))
    (preprocessData Decimal.toString Sample.mixedParts 18000)
  = [("SS400_2mm", ["a"; "b"; "b2"]);
     ("A36_3mm", ["long"; "c"]);
     ("SS400_1.5mm", ["h"])].
Proof. reflexivity. Qed.

(** What the caller gets when the service turns the request down. *)
Example runOptimization_sample_errors :
  snd (runOptimization Decimal.toString
         (Sample.fails "API_KEY not valid. Please pass a valid API key.")
         Sample.initialParts Sample.initialParameters)
  = Throws invalidApiKeyMessage
  /\ snd (runOptimization Decimal.toString (Sample.fails "503 overloaded")
            Sample.initialParts Sample.initialParameters)
     = Throws noValidResponseMessage
  /\ snd (handleRunOptimization Decimal.toString (Sample.fails "503 overloaded")
            Sample.initialParts Sample.initialParameters Sample.initialState)
     = mkAppState ∅ None false (Some noValidResponseMessage).
Proof. repeat split; vm_compute; reflexivity. Qed.

(** C1 fails as stated: on the same parts and parameters, two runs return
    different results when the remote model answers differently. *)
Lemma runOptimization_not_a_function_of_its_arguments :
  snd (runOptimization Decimal.toString (Sample.answers Sample.replyGood)
         Sample.initialParts Sample.initialParameters)
  <> snd (runOptimization Decimal.toString (Sample.answers Sample.replyTooLong)
            Sample.initialParts Sample.initialParameters).
Proof. vm_compute. discriminate. Qed.

Lemma runOptimization_determined_by_reply_witness :
  Sample.answers Sample.replyGood
    (promptFor Decimal.toString Sample.initialParts Sample.initialParameters)
  = Sample.answersMockOnly Sample.replyGood
      (promptFor Decimal.toString Sample.initialParts Sample.initialParameters)
  /\ runOptimization Decimal.toString (Sample.answers Sample.replyGood)
       Sample.initialParts Sample.initialParameters
     = runOptimization Decimal.toString (Sample.answersMockOnly Sample.replyGood)
         Sample.initialParts Sample.initialParameters.
Proof.
  split; [reflexivity|].
  apply (runOptimization_determined_by_reply Decimal.toString). reflexivity.
Defined.

(** C2 fails as stated: a result is returned with a sheet of 20000 mm under
    a ceiling of 18000 mm, on a width that is no candidate. *)
Lemma runOptimization_returns_sheet_beyond_bounds :
  exists result group sheet,
    snd (runOptimization Decimal.toString (Sample.answers Sample.replyTooLong)
           Sample.initialParts Sample.initialParameters)
    = Returns result
    /\ In group (OptimizationResult.resultsByGroup result)
    /\ In sheet (OptimizationGroupResult.layouts group)
    /\ ~ (SheetLayout.length sheet
          <= UserParameters.maxSheetLength Sample.initialParameters)%Q
    /\ ~ (exists w, In w Sample.candidateWidths
                    /\ (SheetLayout.width sheet == w)%Q).
Proof.
  exists Sample.replyTooLong, (OptimizationGroupResult.mk "A36_3mm" 3 "A36" 1 1 48
                                [Sample.sheetTooLong]), Sample.sheetTooLong.
  split; [reflexivity|]. split; [now left|]. split; [now left|]. split.
  - apply Qlt_not_le. reflexivity.
  - intros [w [Hw Heq]]. simpl in Heq.
    repeat (destruct Hw as [<-|Hw]; [discriminate Heq|]). exact Hw.
Qed.

Lemma runOptimization_sheets_as_replied_witness :
  snd (runOptimization Decimal.toString (Sample.answers Sample.replyTwoSheets)
         Sample.initialParts Sample.lightParameters)
  = Returns Sample.replyTwoSheets
  /\ (forall reply,
        Sample.answers Sample.replyTwoSheets
          (promptFor Decimal.toString Sample.initialParts Sample.lightParameters)
        = Parsed reply ->
        Invariant.sheetsWithinBounds Sample.lightParameters [1200; 1500]%Q reply
        = true)
  /\ SheetsWithinBounds Sample.lightParameters [1200; 1500]%Q
       Sample.replyTwoSheets.
Proof.
  assert (Hreply : forall reply,
    Sample.answers Sample.replyTwoSheets
      (promptFor Decimal.toString Sample.initialParts Sample.lightParameters)
    = Parsed reply ->
    Invariant.sheetsWithinBounds Sample.lightParameters [1200; 1500]%Q reply
    = true).
  { intros reply H. injection H as <-. reflexivity. }
  split; [reflexivity|]. split; [exact Hreply|].
  apply (runOptimization_sheets_as_replied Decimal.toString
           (Sample.answers Sample.replyTwoSheets) Sample.initialParts
           Sample.lightParameters); [reflexivity | exact Hreply].
Defined.

(** C3 fails as stated: a result is returned in which two placements of one
    sheet overlap and the second runs past the edge of the sheet. *)
Lemma runOptimization_returns_overlapping_placements :
  exists result group sheet p q,
    snd (runOptimization Decimal.toString (Sample.answers Sample.replyOverlap)
           Sample.initialParts Sample.initialParameters)
    = Returns result
    /\ In group (OptimizationResult.resultsByGroup result)
    /\ In sheet (OptimizationGroupResult.layouts group)
    /\ SheetLayout.nestedParts sheet !! 0%nat = Some p
    /\ SheetLayout.nestedParts sheet !! 1%nat = Some q
    /\ ~ KerfApart (UserParameters.kerf Sample.initialParameters) p q
    /\ ~ (NestedPart.x q + Invariant.effectiveWidth q
          <= SheetLayout.width sheet)%Q.
Proof.
  exists Sample.replyOverlap,
    (OptimizationGroupResult.mk "SS400_2mm" 2 "SS400" 2 1 10 [Sample.sheetOverlap]),
    Sample.sheetOverlap,
    (NestedPart.mk "a" 0 0 1000 2500 false),
    (NestedPart.mk "a" 600 100 1000 2500 false).
  split; [reflexivity|]. split; [now left|]. split; [now left|].
  split; [reflexivity|]. split; [reflexivity|]. split.
  - rewrite <- kerfApart_spec. discriminate.
  - apply Qlt_not_le. reflexivity.
Qed.

Lemma runOptimization_placements_as_replied_witness :
  snd (runOptimization Decimal.toString (Sample.answers Sample.replyTwoSheets)
         Sample.initialParts Sample.lightParameters)
  = Returns Sample.replyTwoSheets
  /\ (forall reply,
        Sample.answers Sample.replyTwoSheets
          (promptFor Decimal.toString Sample.initialParts Sample.lightParameters)
        = Parsed reply ->
        Invariant.placementsValid Sample.lightParameters reply = true)
  /\ PlacementsValid Sample.lightParameters Sample.replyTwoSheets.
Proof.
  assert (Hreply : forall reply,
    Sample.answers Sample.replyTwoSheets
      (promptFor Decimal.toString Sample.initialParts Sample.lightParameters)
    = Parsed reply ->
    Invariant.placementsValid Sample.lightParameters reply = true).
  { intros reply H. injection H as <-. reflexivity. }
  split; [reflexivity|]. split; [exact Hreply|].
  apply (runOptimization_placements_as_replied Decimal.toString
           (Sample.answers Sample.replyTwoSheets) Sample.initialParts
           Sample.lightParameters); [reflexivity | exact Hreply].
Defined.

(** C7 fails as stated: a part of 20000 mm, under a ceiling of 18000 mm, is
    among the placements of the result that is returned. *)
Lemma runOptimization_returns_long_part_placed :
  exists p result,
    In p Sample.mixedParts
    /\ (UserParameters.maxSheetLength Sample.initialParameters < Part.length p)%Q
    /\ snd (runOptimization Decimal.toString
              (Sample.answers Sample.replyWithLong)
              Sample.mixedParts Sample.initialParameters)
       = Returns result
    /\ In (Part.id p) (Invariant.placedIds result).
Proof.
  exists Sample.partLong, Sample.replyWithLong.
  split; [simpl; tauto|]. split; [reflexivity|]. split; [reflexivity|].
  now left.
Qed.

Lemma runOptimization_flags_long_parts_witness :
  In Sample.partLong Sample.mixedParts
  /\ (UserParameters.maxSheetLength Sample.initialParameters
      < Part.length Sample.partLong)%Q
  /\ exists group a,
       In (CallGenerateContent
             (promptFor Decimal.toString Sample.mixedParts Sample.initialParameters))
         (fst (runOptimization Decimal.toString
                 (Sample.answers Sample.replyWithLong)
                 Sample.mixedParts Sample.initialParameters))
       /\ In group
            (prompt_materialGroups
               (promptFor Decimal.toString Sample.mixedParts
                  Sample.initialParameters))
       /\ In a (MaterialGroup.parts group)
       /\ GroupedPart.part a = Sample.partLong
       /\ GroupedPart.exceedsSheetLength a = true.
Proof.
  assert (Hin : In Sample.partLong Sample.mixedParts) by (simpl; tauto).
  split; [exact Hin|]. split; [reflexivity|].
  apply (runOptimization_flags_long_parts Decimal.toString
           (Sample.answers Sample.replyWithLong) Sample.mixedParts
           Sample.initialParameters Sample.partLong Hin).
  reflexivity.
Defined.

(** * Validation: [validateParts] and [handleRunOptimization] *)

Lemma Qred_inject_Z z : Qred (inject_Z z) = inject_Z z.
Proof.
  unfold Qred, inject_Z.
  generalize (Z.ggcd_gcd z 1) (Z.ggcd_correct_divisors z 1).
  destruct (Z.ggcd z 1) as [g [a b]]. simpl.
  rewrite Z.gcd_1_r. intros -> [Ha Hb].
  rewrite Z.mul_1_l in Ha, Hb. now subst.
Qed.

Lemma isInteger_spec a : Num.isInteger a = true <-> IsInteger a.
Proof.
  unfold Num.isInteger, IsInteger. rewrite Pos.eqb_eq. split.
  - intros H. exists (Qnum (Qred a)).
    rewrite <- (Qred_correct a) at 1.
    destruct (Qred a) as [n d]. simpl in *. now subst.
  - intros [z Hz]. apply Qred_complete in Hz. rewrite Hz, Qred_inject_Z.
    reflexivity.
Qed.

Lemma hasKeys_of_invalid p : InputInvalid p -> hasKeys (partErrorsOf p) = true.
Proof.
  unfold InputInvalid, hasKeys, partErrorsOf. simpl.
  intros [H|[H|[H|H]]].
  - apply Num_leb_le in H. now rewrite H.
  - apply Num_leb_le in H. rewrite H. simpl. now rewrite orb_true_r.
  - apply Num_leb_le in H. rewrite H. simpl. now rewrite !orb_true_r.
  - assert (negb (Num.isInteger (Part.quantity p))
            || Num.leb (Part.quantity p) 0 = true) as ->.
    { destruct (Num.isInteger (Part.quantity p)) eqn:Hi; [|reflexivity].
      simpl. apply Num_leb_le. apply Qnot_lt_le. intros Hpos. apply H.
      split; [now apply isInteger_spec | exact Hpos]. }
    simpl. now rewrite !orb_true_r.
Qed.

Lemma no_keys_valid p :
  hasKeys (partErrorsOf p) = false ->
  ~ InputInvalid p
  /\ Part.grade p <> EmptyString /\ Part.projectName p <> EmptyString.
Proof.
  intros H. split.
  - intros Hinv. apply hasKeys_of_invalid in Hinv. congruence.
  - unfold hasKeys, partErrorsOf in H. simpl in H.
    apply orb_false_iff in H as [H Hpn]. apply orb_false_iff in H as [_ Hg].
    split; intros E; rewrite E in *; discriminate.
Qed.

(** The error object names the offending fields. *)
Lemma partErrorsOf_fields p :
  ((Part.width p <= 0)%Q <-> PartError.width (partErrorsOf p) = Some mustBePositive)
  /\ ((Part.length p <= 0)%Q
      <-> PartError.length (partErrorsOf p) = Some mustBePositive)
  /\ ((Part.thickness p <= 0)%Q
      <-> PartError.thickness (partErrorsOf p) = Some mustBePositive)
  /\ (~ (IsInteger (Part.quantity p) /\ (0 < Part.quantity p)%Q)
      <-> PartError.quantity (partErrorsOf p) = Some mustBePositiveInteger).
Proof.
  unfold partErrorsOf. simpl. repeat split;
    try (intros H; apply Num_leb_le in H; now rewrite H);
    try (intros H; apply Num_leb_le;
         match type of H with
         | (if ?b then _ else _) = _ => now destruct b
         end).
  - intros H.
    destruct (Num.isInteger (Part.quantity p)) eqn:Hi; [|reflexivity]. simpl.
    destruct (Num.leb (Part.quantity p) 0) eqn:Hq; [reflexivity|].
    exfalso. apply H. split; [now apply isInteger_spec | now apply Num_leb_gt].
  - intros H [Hi Hq]. apply isInteger_spec in Hi. apply Num_leb_gt in Hq.
    now rewrite Hi, Hq in H.
Qed.

Section ValidationFacts.
Implicit Types (st : gmap string PartError.t * bool) (parts : list Part.t).

Lemma validate_flag parts st :
  snd (fold_left validateStep parts st)
  = snd st || existsb (fun p => hasKeys (partErrorsOf p)) parts.
Proof.
  revert st. induction parts as [|p parts IH]; intros st; simpl.
  - now rewrite orb_false_r.
  - rewrite IH. unfold validateStep.
    destruct (hasKeys (partErrorsOf p)); simpl; [|reflexivity].
    now rewrite orb_true_r.
Qed.

(** An entry, once written, is still there at the end, or a later part of
    the same id has written its own. *)
Lemma validate_keeps parts st k :
  (exists e, fst st !! k = Some e /\ hasKeys e = true) ->
  exists e, fst (fold_left validateStep parts st) !! k = Some e
            /\ hasKeys e = true.
Proof.
  revert st. induction parts as [|p parts IH]; intros st H; [exact H|].
  simpl. apply IH. unfold validateStep.
  destruct (hasKeys (partErrorsOf p)) eqn:Hp; [|exact H]. simpl.
  destruct (decide (Part.id p = k)) as [<-|Hne].
  - exists (partErrorsOf p). now rewrite lookup_insert_eq.
  - now rewrite lookup_insert_ne.
Qed.

Lemma validate_reports parts st p :
  In p parts -> hasKeys (partErrorsOf p) = true ->
  exists e, fst (fold_left validateStep parts st) !! Part.id p = Some e
            /\ hasKeys e = true.
Proof.
  revert st. induction parts as [|q parts IH]; intros st Hin Hp; [destruct Hin|].
  simpl. destruct Hin as [->|Hin]; [|now apply IH].
  apply validate_keeps. unfold validateStep. rewrite Hp. simpl.
  exists (partErrorsOf p). now rewrite lookup_insert_eq.
Qed.

Lemma validate_untouched parts st k :
  (forall q, In q parts -> Part.id q <> k) ->
  fst (fold_left validateStep parts st) !! k = fst st !! k.
Proof.
  revert st. induction parts as [|p parts IH]; intros st H; [reflexivity|].
  simpl. rewrite IH by (intros q Hq; apply H; now right).
  unfold validateStep. destruct (hasKeys (partErrorsOf p)); [|reflexivity].
  simpl. apply lookup_insert_ne. apply H. now left.
Qed.

(** With distinct ids, the entry of a part is its own error object. *)
Lemma validate_reports_exactly parts st p :
  List.NoDup (map Part.id parts) ->
  In p parts -> hasKeys (partErrorsOf p) = true ->
  fst (fold_left validateStep parts st) !! Part.id p = Some (partErrorsOf p).
Proof.
  revert st. induction parts as [|q parts IH]; intros st Hnd Hin Hp;
    [destruct Hin|].
  simpl in *. apply List.NoDup_cons_iff in Hnd as [Hq Hnd].
  destruct Hin as [->|Hin]; [|now apply IH].
  rewrite validate_untouched.
  - unfold validateStep. rewrite Hp. simpl. apply lookup_insert_eq.
  - intros q Hq' E. apply Hq. rewrite <- E. now apply in_map.
Qed.

Lemma validateParts_spec parts :
  validateParts parts
  = (fst (fold_left validateStep parts (∅, false)),
     negb (existsb (fun p => hasKeys (partErrorsOf p)) parts)).
Proof.
  unfold validateParts.
  pose proof (validate_flag parts (∅, false)) as H.
  destruct (fold_left validateStep parts (∅, false)) as [m b].
  simpl in *. now subst.
Qed.

End ValidationFacts.

Section ValidationClaims.
Variable Number_toString : Q -> string.

Lemma handleRunOptimization_invalid generateContent parts parameters st :
  snd (validateParts parts) = false ->
  handleRunOptimization Number_toString generateContent parts parameters st
  = ([], mkAppState (fst (validateParts parts)) (optimizationResult st)
           (isLoading st) (Some fixTableFirst)).
Proof.
  unfold handleRunOptimization.
  destruct (validateParts parts) as [newErrors valid]. simpl.
  now intros ->.
Qed.

(** C6. For every part list with at least one part of non-positive width,
    length or thickness, or of a quantity that is no positive integer,
    [handleRunOptimization] refuses the run before the engine is called
    (no grouping, no request), and the errors it stores hold an entry for
    every offending part id, not for the first one only. *)
Theorem handleRunOptimization_refuses_invalid_input
    generateContent parts parameters st :
  (exists p, In p parts /\ InputInvalid p) ->
  RunRefused parts st
    (handleRunOptimization Number_toString generateContent parts parameters st).
Proof.
  intros [p0 [Hin0 Hinv0]].
  assert (Hvalid : snd (validateParts parts) = false).
  { rewrite validateParts_spec. simpl. apply negb_false_iff.
    apply existsb_exists. exists p0. split; [exact Hin0|].
    now apply hasKeys_of_invalid. }
  rewrite (handleRunOptimization_invalid _ _ _ _ Hvalid).
  unfold RunRefused. simpl. rewrite validateParts_spec. simpl.
  repeat apply conj; try reflexivity.
  - intros p Hin Hinv. apply validate_reports; [exact Hin|].
    now apply hasKeys_of_invalid.
  - intros Hnd p Hin Hinv. apply validate_reports_exactly; try assumption.
    now apply hasKeys_of_invalid.
Qed.

(** What validation lets through meets the invariant of the data model. *)
Lemma validateParts_sound parts :
  snd (validateParts parts) = true ->
  Forall (fun p => ~ InputInvalid p) parts.
Proof.
  rewrite validateParts_spec. simpl. intros H. apply negb_true_iff in H.
  apply List.Forall_forall. intros p Hp Hinv.
  apply hasKeys_of_invalid in Hinv.
  assert (existsb (fun p => hasKeys (partErrorsOf p)) parts = true)
    by (apply existsb_exists; eauto).
  congruence.
Qed.

End ValidationClaims.

Lemma partA_valid : ~ InputInvalid Sample.partA.
Proof.
  apply (no_keys_valid Sample.partA). reflexivity.
Qed.

Lemma partNoGrade_valid : ~ InputInvalid Sample.partNoGrade.
Proof.
  intros [H|[H|[H|H]]]; try (revert H; apply Qlt_not_le; reflexivity).
  apply H. split; [exists 10%Z; reflexivity | reflexivity].
Qed.

(** C10. Validation is strictly stronger than the invariant of the data
    model: whatever it accepts meets the invariant, and there is a part list
    whose parts all have positive width, length and thickness and a positive
    integer quantity, one of them with an empty grade, that it rejects, so
    that the run is not started. *)
Theorem validateParts_stricter_than_InputInvalid :
  (forall parts, snd (validateParts parts) = true ->
                 Forall (fun p => ~ InputInvalid p) parts)
  /\ exists parts,
       Forall (fun p => ~ InputInvalid p) parts
       /\ Exists (fun p => Part.grade p = EmptyString
                           \/ Part.projectName p = EmptyString) parts
       /\ snd (validateParts parts) = false
       /\ forall Number_toString generateContent parameters st,
            fst (handleRunOptimization Number_toString generateContent parts
                   parameters st) = []
            /\ optimizationResult
                 (snd (handleRunOptimization Number_toString generateContent
                         parts parameters st))
               = optimizationResult st.
Proof.
  split; [apply validateParts_sound|].
  exists [Sample.partA; Sample.partNoGrade].
  split; [repeat constructor; [apply partA_valid | apply partNoGrade_valid]|].
  split; [apply Exists_cons_tl, Exists_cons_hd; now left|].
  assert (Hvalid : snd (validateParts [Sample.partA; Sample.partNoGrade]) = false)
    by (rewrite validateParts_spec; reflexivity).
  split; [exact Hvalid|].
  intros Number_toString generateContent parameters st.
  rewrite (handleRunOptimization_invalid _ _ _ _ _ Hvalid). now split.
Qed.

Lemma partBlank_invalid : InputInvalid Sample.partBlank.
Proof. left. apply Qle_refl. Qed.

Lemma handleRunOptimization_refuses_invalid_input_witness :
  (exists p, In p Sample.faultyParts /\ InputInvalid p)
  /\ RunRefused Sample.faultyParts Sample.initialState
       (handleRunOptimization Decimal.toString (Sample.answers Sample.replyGood)
          Sample.faultyParts Sample.initialParameters Sample.initialState).
Proof.
  assert (H : exists p, In p Sample.faultyParts /\ InputInvalid p).
  { exists Sample.partBlank. split; [right; now left | apply partBlank_invalid]. }
  split; [exact H|].
  apply (handleRunOptimization_refuses_invalid_input Decimal.toString
           (Sample.answers Sample.replyGood) Sample.faultyParts
           Sample.initialParameters Sample.initialState H).
Defined.

(** On the faulty table both offending rows are reported, each with its
    fields. *)
Example validateParts_sample :
  fst (validateParts Sample.faultyParts) !! "new"
  = Some (PartError.mk (Some mustBePositive) (Some mustBePositive) None
            (Some mustBePositive) (Some mustNotBeEmpty) (Some mustNotBeEmpty))
  /\ fst (validateParts Sample.faultyParts) !! "f"
     = Some (PartError.mk None None (Some mustBePositiveInteger) None None None)
  /\ fst (validateParts Sample.faultyParts) !! "a" = None
  /\ snd (validateParts Sample.faultyParts) = false.
Proof. repeat split; vm_compute; reflexivity. Qed.

(** * The CSV exporter: [exportToCsv] *)

(** ** Splitting and joining text *)

Lemma split_not_nil c s : Str.split c s <> [].
Proof.
  destruct s as [|a s]; simpl; [discriminate|].
  destruct (Ascii.eqb a c); [discriminate|].
  destruct (Str.split c s); discriminate.
Qed.

Lemma split_plain c s : occurs c s = false -> Str.split c s = [s].
Proof.
  induction s as [|a s IH]; simpl; [reflexivity|].
  destruct (Ascii.eqb a c); simpl; [discriminate|].
  intros H. now rewrite IH.
Qed.

(** Up to its first separator, a text is the first field. *)
Lemma split_app c (s t : string) :
  occurs c s = false ->
  Str.split c (s ++ String c t)%string = s :: Str.split c t.
Proof.
  induction s as [|a s IH]; string_app; simpl.
  - now rewrite Ascii.eqb_refl.
  - destruct (Ascii.eqb a c); simpl; [discriminate|].
    intros H. now rewrite IH.
Qed.

Lemma join_cons c f g (fields : list string) :
  Str.join c (f :: g :: fields)
  = (f ++ String c (Str.join c (g :: fields)))%string.
Proof. reflexivity. Qed.

Lemma split_join c (fields : list string) :
  fields <> [] ->
  forallb (fun f => negb (occurs c f)) fields = true ->
  Str.split c (Str.join c fields) = fields.
Proof.
  induction fields as [|f [|g fields] IH]; intros Hne Hplain.
  - now destruct Hne.
  - simpl in Hplain. rewrite andb_true_r in Hplain.
    apply negb_true_iff in Hplain. now apply split_plain.
  - rewrite join_cons.
    change (forallb (fun f => negb (occurs c f)) (f :: g :: fields))
      with (negb (occurs c f)
            && forallb (fun f => negb (occurs c f)) (g :: fields)) in Hplain.
    apply andb_true_iff in Hplain as [Hf Hrest]. apply negb_true_iff in Hf.
    rewrite split_app by exact Hf. f_equal. apply IH; [discriminate | exact Hrest].
Qed.

Lemma join_split c s : Str.join c (Str.split c s) = s.
Proof.
  induction s as [|a s IH]; [reflexivity|]. simpl.
  destruct (Ascii.eqb_spec a c) as [->|Hne].
  - pose proof (split_not_nil c s) as Hnil.
    destruct (Str.split c s) as [|g fields] eqn:E; [now destruct Hnil|].
    rewrite join_cons, IH. reflexivity.
  - pose proof (split_not_nil c s) as Hnil.
    destruct (Str.split c s) as [|g [|h fields]] eqn:E; [now destruct Hnil| |].
    + change (g = s) in IH. subst g. reflexivity.
    + rewrite join_cons in IH. rewrite join_cons. string_app. now rewrite IH.
Qed.

Lemma occurs_join c d (fields : list string) :
  Ascii.eqb d c = false ->
  forallb (fun f => negb (occurs c f)) fields = true ->
  occurs c (Str.join d fields) = false.
Proof.
  intros Hdc. induction fields as [|f [|g fields] IH]; intros H.
  - reflexivity.
  - simpl in *. rewrite andb_true_r in H. now apply negb_true_iff.
  - rewrite join_cons, occurs_app.
    change (forallb (fun f => negb (occurs c f)) (f :: g :: fields))
      with (negb (occurs c f)
            && forallb (fun f => negb (occurs c f)) (g :: fields)) in H.
    apply andb_true_iff in H as [Hf Hrest]. apply negb_true_iff in Hf.
    rewrite Hf. simpl. rewrite Hdc. simpl. now apply IH.
Qed.

Lemma remove_app c (s t : string) :
  Str.remove c (s ++ t)%string = (Str.remove c s ++ Str.remove c t)%string.
Proof.
  induction s as [|a s IH]; string_app; simpl; [reflexivity|].
  destruct (Ascii.eqb a c); [exact IH|]. string_app. now rewrite IH.
Qed.

Lemma remove_plain c s : occurs c s = false -> Str.remove c s = s.
Proof.
  induction s as [|a s IH]; simpl; [reflexivity|].
  destruct (Ascii.eqb a c); simpl; [discriminate|].
  intros H. now rewrite IH.
Qed.

Lemma remove_quoted s :
  occurs "034"%char s = false -> Str.remove "034"%char (quoted s) = s.
Proof.
  intros H. unfold quoted, doubleQuote. rewrite !remove_app, (remove_plain _ _ H).
  simpl. string_app. induction s as [|a s IH]; [reflexivity|].
  string_app. f_equal. apply IH. simpl in H.
  now destruct (Ascii.eqb a "034"%char).
Qed.


Lemma fold_left_push {A B : Type} (f : A -> B) (l : list A) (acc : list B) :
  fold_left (fun rows a => rows ++ [f a]) l acc = acc ++ map f l.
Proof.
  revert acc. induction l as [|a l IH]; intros acc; simpl.
  - now rewrite app_nil_r.
  - now rewrite IH, <- app_assoc.
Qed.

Lemma fold_left_push_all {A B : Type} (F : A -> list B)
    (step : list B -> A -> list B) (l : list A) (acc : list B) :
  (forall rows a, step rows a = rows ++ F a) ->
  fold_left step l acc = acc ++ flat_map F l.
Proof.
  intros Hstep. revert acc. induction l as [|a l IH]; intros acc; simpl.
  - now rewrite app_nil_r.
  - now rewrite IH, Hstep, <- app_assoc.
Qed.

Lemma orZero_eq a : (Num.orZero a == a)%Q.
Proof.
  unfold Num.orZero. destruct (Qeq_bool a 0) eqn:E; [|reflexivity].
  symmetry. now apply Qeq_bool_iff.
Qed.

Lemma Forall2_map_self {A B : Type} (P : B -> A -> Prop) (f : A -> B) l :
  (forall a, P (f a) a) -> Forall2 P (map f l) l.
Proof. intros H. induction l as [|a l IH]; constructor; auto. Qed.

Section ExportClaims.
Variable Number_toString : Q -> string.
Variable Number_toFixed : nat -> Q -> string.

(** The three nested [forEach] loops push one row per nested part, in the
    order of the result. *)
Lemma csvRows_flat result :
  csvRows Number_toString Number_toFixed result
  = String.concat "," csvHeader
    :: map (fun glp =>
              joinCells Number_toString
                (csvRow Number_toFixed (fst (fst glp)) (snd (fst glp)) (snd glp)))
         (nestedPartsInOrder result).
Proof.
  unfold csvRows, nestedPartsInOrder.
  rewrite (fold_left_push_all
    (fun group =>
       flat_map (fun layout =>
         map (fun part =>
                joinCells Number_toString (csvRow Number_toFixed group layout part))
           (SheetLayout.nestedParts layout))
         (OptimizationGroupResult.layouts group))).
  - simpl. f_equal. rewrite !flat_map_concat_map, concat_map, !map_map.
    f_equal. apply map_ext. intros group.
    rewrite !flat_map_concat_map, concat_map, !map_map.
    f_equal. apply map_ext. intros layout. now rewrite map_map.
  - intros rows group.
    apply (fold_left_push_all
      (fun layout =>
         map (fun part =>
                joinCells Number_toString (csvRow Number_toFixed group layout part))
           (SheetLayout.nestedParts layout))).
    intros rows' layout. apply fold_left_push.
Qed.

Lemma nestedPartsInOrder_parts result :
  map snd (nestedPartsInOrder result)
  = flat_map (fun group =>
      flat_map SheetLayout.nestedParts (OptimizationGroupResult.layouts group))
      (OptimizationResult.resultsByGroup result).
Proof.
  unfold nestedPartsInOrder.
  rewrite !flat_map_concat_map, concat_map, !map_map.
  f_equal. apply map_ext. intros group.
  rewrite !flat_map_concat_map, concat_map, !map_map.
  f_equal. apply map_ext. intros layout. rewrite map_map. simpl.
  apply map_id.
Qed.

(** When no cell holds a line break, the lines of the file are the rows. *)
Lemma exportToCsv_split result :
  csvCellsOnOneLine Number_toString Number_toFixed result = true ->
  Str.split "010"%char (exportToCsv Number_toString Number_toFixed result)
  = csvRows Number_toString Number_toFixed result.
Proof.
  intros Hcells. unfold exportToCsv. apply (split_join "010"%char).
  - rewrite csvRows_flat. discriminate.
  - rewrite csvRows_flat. cbn [forallb]. apply andb_true_iff.
    split; [reflexivity|].
    rewrite forallb_forall. intros row Hrow.
    apply in_map_iff in Hrow as [glp [<- Hglp]].
    unfold csvCellsOnOneLine in Hcells. rewrite forallb_forall in Hcells.
    specialize (Hcells glp Hglp). apply negb_true_iff.
    unfold joinCells. apply (occurs_join "010"%char ","%char); [reflexivity|].
    rewrite forallb_forall. intros text Htext.
    apply in_map_iff in Htext as [cell [<- Hcell]].
    rewrite forallb_forall in Hcells. now apply Hcells.
Qed.

(** C9, as amended. For every result none of whose cells holds a line break,
    the file that [exportToCsv] writes has, after the line of the column
    names, exactly one line per nested part, over all groups and sheets in the
    order of the result; the line holds the thirteen cells group key,
    thickness, grade, sheet number, sheet width, sheet length, part id, part
    width, part length, x, y, rotated and sheet waste percentage, separated by
    commas, and reads back as these thirteen columns when none of the cells
    holds a comma.  The part width and length written are the numbers of the
    nested part. *)
Theorem exportToCsv_one_row_per_nested_part result :
  csvCellsOnOneLine Number_toString Number_toFixed result = true ->
  OneRowPerNestedPart Number_toString Number_toFixed result
  /\ List.length
       (Str.split "010"%char (exportToCsv Number_toString Number_toFixed result))
     = S (List.length
            (flat_map (fun group =>
               flat_map SheetLayout.nestedParts
                 (OptimizationGroupResult.layouts group))
               (OptimizationResult.resultsByGroup result)))
  /\ forall part,
       (Num.orZero (NestedPart.width part) == NestedPart.width part)%Q
       /\ (Num.orZero (NestedPart.length part) == NestedPart.length part)%Q.
Proof.
  intros Hcells.
  pose proof (exportToCsv_split result Hcells) as Hsplit.
  rewrite csvRows_flat in Hsplit.
  split; [|split].
  - unfold OneRowPerNestedPart. cbv zeta. rewrite Hsplit. cbn [hd tl].
    split; [apply nestedPartsInOrder_parts|]. split.
    + apply (split_join ","%char); [discriminate | reflexivity].
    + apply Forall2_map_self. intros [[group layout] part]. cbn [fst snd].
      split; [reflexivity|]. split; [reflexivity|].
      intros Hcomma.
      change (joinCells Number_toString (csvRow Number_toFixed group layout part))
        with (Str.join ","%char
                (map snd (csvColumns Number_toString Number_toFixed
                            group layout part))).
      rewrite split_join; [reflexivity | discriminate |].
      unfold csvRowWithoutComma in Hcomma. cbn [fst snd] in Hcomma.
      rewrite forallb_forall in Hcomma. rewrite forallb_forall.
      intros text Htext. apply in_map_iff in Htext as [column [<- Hcolumn]].
      now apply Hcomma.
  - rewrite Hsplit, <- nestedPartsInOrder_parts. simpl.
    now rewrite !length_map.
  - intros part. split; apply orZero_eq.
Qed.

End ExportClaims.

(** The sample reply of two sheets has no line break and no comma in any
    cell: its file is the line of names and four lines of thirteen cells. *)
Lemma exportToCsv_one_row_per_nested_part_witness :
  csvCellsOnOneLine Decimal.toString Decimal.toFixed Sample.replyTwoSheets = true
  /\ forallb (csvRowWithoutComma Decimal.toString Decimal.toFixed)
       (nestedPartsInOrder Sample.replyTwoSheets) = true
  /\ OneRowPerNestedPart Decimal.toString Decimal.toFixed Sample.replyTwoSheets
  /\ List.length
       (Str.split "010"%char
          (exportToCsv Decimal.toString Decimal.toFixed Sample.replyTwoSheets))
     = 5%nat.
Proof.
  split; [vm_compute; reflexivity|]. split; [vm_compute; reflexivity|].
  destruct (exportToCsv_one_row_per_nested_part Decimal.toString Decimal.toFixed
              Sample.replyTwoSheets) as [Hrows [Hlength _]];
    [vm_compute; reflexivity|].
  split; [exact Hrows | exact Hlength].
Defined.

(** C9 fails as stated: the texts are put between double quotes but written
    as they are, so a part id that holds a double quote followed by a line
    break is spread over two lines.  The reply has one nested part and its
    file has three lines, the line of names and two more. *)
Lemma exportToCsv_breaks_row_at_line_break :
  List.length (nestedPartsInOrder Sample.replyBrokenId) = 1%nat
  /\ Str.split "010"%char
       (exportToCsv Decimal.toString Decimal.toFixed Sample.replyBrokenId)
     = [ String.concat "," csvHeader;
         (quoted "SS400_2mm" ++ ",2," ++ quoted "SS400" ++ ",1,1500,2600,"
          ++ doubleQuote ++ "a" ++ doubleQuote)%string;
         ("b" ++ doubleQuote ++ ",1000,2500,0,0,FALSE,33.40")%string ]
  /\ ~ OneRowPerNestedPart Decimal.toString Decimal.toFixed Sample.replyBrokenId.
Proof.
  split; [reflexivity|]. split; [vm_compute; reflexivity|].
  intros [_ [_ Hlines]]. apply Forall2_length in Hlines.
  vm_compute in Hlines. discriminate.
Qed.

(** The file written for the sample reply of two sheets. *)
Example exportToCsv_sample :
  csvRows Decimal.toString Decimal.toFixed Sample.replyTwoSheets
  = [ "Material Group,Thickness (mm),Grade,Sheet Number,Sheet Width (mm),Sheet Length (mm),Part ID,Part Width (mm),Part Length (mm),X,Y,Rotated,Sheet Waste %";
      quoted "SS400_2mm" ++ ",2," ++ quoted "SS400" ++ ",1,1500,5010,"
        ++ quoted "a" ++ ",1000,2500,0,0,FALSE,33.40";
      quoted "SS400_2mm" ++ ",2," ++ quoted "SS400" ++ ",1,1500,5010,"
        ++ quoted "a" ++ ",1000,2500,0,2505,FALSE,33.40";
      quoted "SS400_2mm" ++ ",2," ++ quoted "SS400" ++ ",2,1500,3010,"
        ++ quoted "a" ++ ",1000,2500,0,0,FALSE,33.40";
      quoted "SS400_2mm" ++ ",2," ++ quoted "SS400" ++ ",2,1500,3010,"
        ++ quoted "b" ++ ",500,1500,0,2505,TRUE,33.40" ]%string.
Proof. vm_compute. reflexivity. Qed.

(** * The sheet weight *)

(** The quotient [785 / 100000000] is the binary64 number that the literal
    [0.00000785] of the specification denotes: the one nearest to 785 / 10^8,
    within half a unit in the last place (2^-70). *)
Lemma density_literal :
  Prim2SF (785 / 100000000)%float = S754_finite false 4633822111315839 (-69)
  /\ exists v, exactValue (785 / 100000000)%float = Some v
       /\ (Qabs (v - (785 # 100000000)) <= Qpower 2 (-70))%Q.
Proof.
  split; [vm_compute; reflexivity|].
  eexists. split; [vm_compute; reflexivity|].
  apply Qle_bool_iff. vm_compute. reflexivity.
Qed.

(** C8 fails as stated: for a sheet of 1500 x 2500 mm, 2 mm thick, the
    weight that the program computes is 58.875 and is shown as 58.88 kg,
    while the formula of the specification, evaluated in the same
    arithmetic, gives 58.874999999999993, which prints as 58.87. *)
Lemma weightKg64_differs_from_formula :
  PrimFloat.eqb (Weight.weightKg64 1500 2500 2) (Weight.formulaKg64 1500 2500 2)
  = false
  /\ Weight.toFixed2 (Weight.weightKg64 1500 2500 2) = Some 5888%Z
  /\ Weight.toFixed2 (Weight.formulaKg64 1500 2500 2) = Some 5887%Z.
Proof. repeat split; vm_compute; reflexivity. Qed.

(** The same on a smaller sheet, 100 x 1000 x 1 mm: 0.79 kg against 0.78. *)
Example weightKg64_differs_small :
  Weight.toFixed2 (Weight.weightKg64 100 1000 1) = Some 79%Z
  /\ Weight.toFixed2 (Weight.formulaKg64 100 1000 1) = Some 78%Z.
Proof. split; vm_compute; reflexivity. Qed.

(** Where the two agree to the last bit: the first part of the sample. *)
Example weightKg64_agrees_sample :
  PrimFloat.eqb (Weight.weightKg64 1000 2500 2) (Weight.formulaKg64 1000 2500 2)
  = true.
Proof. vm_compute. reflexivity. Qed.

(** C8, as amended. As exact quantities, the weight that the program
    computes, (width / 1000) * (length / 1000) * (thickness / 1000) * 7850,
    equals width * length * thickness * 0.00000785, for all widths, lengths
    and thicknesses. *)
Theorem weightKg_equals_formula width length thickness :
  (Weight.weightKg width length thickness
   == Weight.formulaKg width length thickness)%Q.
Proof.
  unfold Weight.weightKg, Weight.formulaKg, Weight.steelDensityKgPerM3.
  field.
Qed.

(** The exact weights of the two sheets above. *)
Example weightKg_sample :
  (Weight.weightKg 1500 2500 2 == 58875 # 1000)%Q
  /\ (Weight.weightKg 100 1000 1 == 785 # 1000)%Q.
Proof. split; reflexivity. Qed.

(** * Beyond the claims: the table, the files and the drawing *)

Lemma string_app_nil_r (s : string) : (s ++ EmptyString)%string = s.
Proof. induction s as [|a s IH]; string_app; [reflexivity | now rewrite IH]. Qed.

Lemma concat_empty_cons (x : string) (l : list string) :
  String.concat EmptyString (x :: l) = (x ++ String.concat EmptyString l)%string.
Proof. destruct l; [simpl; now rewrite string_app_nil_r | reflexivity]. Qed.

Lemma concat_empty_app (l1 l2 : list string) :
  String.concat EmptyString (l1 ++ l2)
  = (String.concat EmptyString l1 ++ String.concat EmptyString l2)%string.
Proof.
  induction l1 as [|x l1 IH]; [reflexivity|].
  change ((x :: l1) ++ l2) with (x :: (l1 ++ l2)).
  now rewrite !concat_empty_cons, IH, string_app_assoc.
Qed.

(** The lines of a text made by [dxfLines] are the lines it was made of,
    and an empty one after the last line break. *)
Lemma split_dxfLines (lines : list string) :
  forallb (fun line => negb (occurs "010"%char line)) lines = true ->
  Str.split "010"%char (dxfLines lines) = lines ++ [EmptyString].
Proof.
  unfold dxfLines. induction lines as [|line lines IH]; intros H; [reflexivity|].
  cbn [forallb] in H. apply andb_true_iff in H as [Hline H].
  apply negb_true_iff in Hline. cbn [map]. rewrite concat_empty_cons.
  rewrite string_app_assoc.
  change (Str.newline ++ ?t)%string with (String "010"%char t).
  rewrite (split_app _ _ _ Hline), (IH H). reflexivity.
Qed.

(** ** [PartsTable]: the parts file *)

Lemma plainField_spec s :
  plainField s = true <->
  occurs ","%char s = false /\ occurs "010"%char s = false.
Proof.
  unfold plainField. rewrite andb_true_iff, !negb_true_iff. reflexivity.
Qed.

Lemma plainField_quoted s : plainField s = true -> plainField (quoted s) = true.
Proof.
  rewrite !plainField_spec. intros [H1 H2].
  unfold quoted, doubleQuote. rewrite !occurs_app, H1, H2. split; reflexivity.
Qed.

Lemma orZero_of_eq a b : (a == b)%Q -> (Num.orZero a == b)%Q.
Proof. intros H. now rewrite orZero_eq. Qed.

Section PartsCsvFacts.
Variable Number_toString : Q -> string.
Variable parseFloat : string -> option Q.
Variable parseInt : string -> option Q.
Variable String_trim : string -> string.
Variable uuidv4 : nat -> string.

Local Abbreviation survives :=
  (partSurvivesCsv Number_toString parseFloat parseInt String_trim).
Local Abbreviation import :=
  (handleImportCSV parseFloat parseInt String_trim uuidv4).

Lemma partLine_join p :
  partLine Number_toString p
  = Str.join ","%char
      [Part.id p; Number_toString (Part.width p);
       Number_toString (Part.length p); Number_toString (Part.quantity p);
       Number_toString (Part.thickness p);
       quoted (Part.grade p); quoted (Part.projectName p)].
Proof. reflexivity. Qed.

Lemma readsBack_spec parse n :
  readsBack Number_toString parse n = true ->
  plainField (Number_toString n) = true
  /\ (numberOr0 parse (Some (Number_toString n)) == n)%Q.
Proof.
  unfold readsBack. rewrite andb_true_iff. intros [Hplain Hparse].
  split; [exact Hplain|]. simpl.
  destruct (parse (Number_toString n)) as [n'|]; [|discriminate].
  apply orZero_of_eq. now apply Qeq_bool_iff.
Qed.

Lemma survives_fields p :
  survives p = true ->
  forallb plainField
    [Part.id p; Number_toString (Part.width p);
     Number_toString (Part.length p); Number_toString (Part.quantity p);
     Number_toString (Part.thickness p);
     quoted (Part.grade p); quoted (Part.projectName p)] = true.
Proof.
  unfold partSurvivesCsv. rewrite !andb_true_iff.
  intros [[[[[[[[[[_ Hid] Hg] _] Hp] _] Hw] Hl] Hq] Ht] _].
  apply readsBack_spec in Hw as [Hw _]. apply readsBack_spec in Hl as [Hl _].
  apply readsBack_spec in Hq as [Hq _]. apply readsBack_spec in Ht as [Ht _].
  simpl. rewrite Hid, Hw, Hl, Hq, Ht, (plainField_quoted _ Hg),
    (plainField_quoted _ Hp). reflexivity.
Qed.

Lemma forallb_plain_comma fields :
  forallb plainField fields = true ->
  forallb (fun f => negb (occurs ","%char f)) fields = true.
Proof.
  rewrite !forallb_forall. intros H f Hf. specialize (H f Hf).
  apply plainField_spec in H as [H _]. now rewrite H.
Qed.

Lemma forallb_plain_newline fields :
  forallb plainField fields = true ->
  forallb (fun f => negb (occurs "010"%char f)) fields = true.
Proof.
  rewrite !forallb_forall. intros H f Hf. specialize (H f Hf).
  apply plainField_spec in H as [_ H]. now rewrite H.
Qed.

Lemma partLine_no_newline p :
  survives p = true -> occurs "010"%char (partLine Number_toString p) = false.
Proof.
  intros H. rewrite partLine_join. apply occurs_join; [reflexivity|].
  apply forallb_plain_newline. now apply survives_fields.
Qed.

(** A line that was written for a part reads back as that part. *)
Lemma importRow_partLine index p :
  survives p = true ->
  PartEquiv (importRow parseFloat parseInt uuidv4 index
               (partLine Number_toString p)) p.
Proof.
  intros H. pose proof (survives_fields p H) as Hfields.
  unfold importRow. rewrite partLine_join, split_join;
    [| discriminate | now apply forallb_plain_comma].
  unfold partSurvivesCsv in H. rewrite !andb_true_iff in H.
  destruct H as [[[[[[[[[[Hne _] _] Hg] _] Hp] Hw] Hl] Hq] Ht] _].
  apply readsBack_spec in Hw as [_ Hw]. apply readsBack_spec in Hl as [_ Hl].
  apply readsBack_spec in Hq as [_ Hq]. apply readsBack_spec in Ht as [_ Ht].
  apply negb_true_iff in Hg, Hp, Hne.
  unfold PartEquiv. cbn [Str.at_ nth_error Part.id Part.width Part.length
    Part.quantity Part.thickness Part.grade Part.projectName unquotedOrEmpty].
  repeat split; try assumption.
  - destruct (Part.id p); [discriminate | reflexivity].
  - now apply remove_quoted.
  - now apply remove_quoted.
Qed.

Lemma importRows_partLines parts : forall index,
  forallb survives parts = true ->
  Forall2 PartEquiv
    (mapIndexed (importRow parseFloat parseInt uuidv4) index
       (map (partLine Number_toString) parts))
    parts.
Proof.
  induction parts as [|p parts IH]; intros index H; simpl; [constructor|].
  simpl in H. apply andb_true_iff in H as [Hp Hrest].
  constructor; [now apply importRow_partLine | now apply IH].
Qed.

Lemma header_plain :
  occurs "010"%char "id,width,length,quantity,thickness,grade,projectName"
  = false.
Proof. reflexivity. Qed.

(** The lines of the text after the first. *)
Lemma import_lines (first rest : string) :
  occurs "010"%char first = false ->
  import (first ++ String "010"%char rest)%string
  = mapIndexed (importRow parseFloat parseInt uuidv4) 0
      (List.filter (fun row => negb (isEmptyString (String_trim row)))
         (Str.split "010"%char rest)).
Proof.
  intros H. unfold handleImportCSV. now rewrite split_app.
Qed.

(** X1. Export then import: the parts written by [handleExportCSV] are read
    back by [handleImportCSV], row by row and in order, provided every part
    has a non-empty id, texts without comma, line break or double quote, and
    numbers that print as plain fields and parse back (the quantity through
    [parseInt]). *)
Theorem handleImportCSV_handleExportCSV parts :
  partsSurviveCsv Number_toString parseFloat parseInt String_trim parts = true ->
  Forall2 PartEquiv (import (handleExportCSV Number_toString parts)) parts.
Proof.
  unfold partsSurviveCsv. rewrite andb_true_iff. intros [Htrim Hparts].
  assert (handleExportCSV Number_toString parts
          = ("id,width,length,quantity,thickness,grade,projectName"
             ++ String "010"%char
                  (Str.join "010"%char (map (partLine Number_toString) parts)))%string)
    as -> by (unfold handleExportCSV, CSV_HEADER; now rewrite string_app_assoc).
  rewrite import_lines by apply header_plain.
  destruct parts as [|p parts].
  - simpl. destruct (String_trim EmptyString); [constructor | discriminate].
  - rewrite split_join.
    + rewrite filter_all; [now apply importRows_partLines|].
      intros row Hrow. apply in_map_iff in Hrow as [q [<- Hq]].
      rewrite forallb_forall in Hparts. specialize (Hparts q Hq).
      unfold partSurvivesCsv in Hparts. rewrite !andb_true_iff in Hparts.
      tauto.
    + discriminate.
    + rewrite forallb_forall. intros row Hrow.
      apply in_map_iff in Hrow as [q [<- Hq]].
      rewrite forallb_forall in Hparts.
      now rewrite (partLine_no_newline q (Hparts q Hq)).
Qed.

End PartsCsvFacts.

Section PartsCsvFirstLine.
Variable parseFloat : string -> option Q.
Variable parseInt : string -> option Q.
Variable String_trim : string -> string.
(** The draws of [uuidv4] during two imports. *)
Variable uuidv4 uuidv4' : nat -> string.

Lemma importRow_alike index row :
  ReadAlike uuidv4 uuidv4'
    (importRow parseFloat parseInt uuidv4 index row)
    (importRow parseFloat parseInt uuidv4' index row).
Proof.
  unfold ReadAlike, importRow. cbn [Part.id Part.width Part.length
    Part.quantity Part.thickness Part.grade Part.projectName].
  split; [|repeat split].
  destruct (Str.at_ (Str.split ","%char row) 0) as [[|a id]|]; eauto.
Qed.

Lemma importRows_alike rows : forall index,
  Forall2 (ReadAlike uuidv4 uuidv4')
    (mapIndexed (importRow parseFloat parseInt uuidv4) index rows)
    (mapIndexed (importRow parseFloat parseInt uuidv4') index rows).
Proof.
  induction rows as [|row rows IH]; intros index; cbn [mapIndexed];
    constructor; [apply importRow_alike | apply IH].
Qed.

(** X2. The first line of the file is skipped without being looked at:
    whatever stands there, the parts read are those of the lines after it.
    Two imports of files that differ in their first line only read the same
    parts, row by row, up to the ids that [uuidv4] draws for the rows without
    id, and the very same parts when the draws are the same; a text of one
    line gives no part at all. *)
Theorem handleImportCSV_skips_first_line (first first' rest : string) :
  occurs "010"%char first = false ->
  occurs "010"%char first' = false ->
  Forall2 (ReadAlike uuidv4 uuidv4')
    (handleImportCSV parseFloat parseInt String_trim uuidv4
       (first ++ String "010"%char rest)%string)
    (handleImportCSV parseFloat parseInt String_trim uuidv4'
       (first' ++ String "010"%char rest)%string)
  /\ handleImportCSV parseFloat parseInt String_trim uuidv4
       (first ++ String "010"%char rest)%string
     = handleImportCSV parseFloat parseInt String_trim uuidv4
         (first' ++ String "010"%char rest)%string
  /\ handleImportCSV parseFloat parseInt String_trim uuidv4 first = [].
Proof.
  intros H H'. split; [|split].
  - rewrite !import_lines by assumption. apply importRows_alike.
  - now rewrite !import_lines.
  - unfold handleImportCSV. now rewrite split_plain.
Qed.

End PartsCsvFirstLine.

(** ** [validateParts]: what the error object holds *)

Lemma validate_entries parts : forall (st : gmap string PartError.t * bool) k e,
  fst (fold_left validateStep parts st) !! k = Some e ->
  fst st !! k = Some e
  \/ exists p, In p parts /\ Part.id p = k /\ e = partErrorsOf p
               /\ hasKeys e = true.
Proof.
  induction parts as [|q parts IH]; intros st k e H; simpl in H; [now left|].
  apply IH in H as [H|[p [Hp Hrest]]].
  - unfold validateStep in H.
    destruct (hasKeys (partErrorsOf q)) eqn:Hq; [|now left]. simpl in H.
    destruct (decide (Part.id q = k)) as [<-|Hne].
    + rewrite lookup_insert_eq in H. injection H as <-.
      right. exists q. split; [now left | tauto].
    + rewrite lookup_insert_ne in H by exact Hne. now left.
  - right. exists p. split; [now right | exact Hrest].
Qed.

Lemma validateParts_lookup parts k e :
  fst (validateParts parts) !! k = Some e ->
  exists p, In p parts /\ Part.id p = k /\ e = partErrorsOf p
            /\ hasKeys e = true.
Proof.
  rewrite validateParts_spec. simpl. intros H.
  apply validate_entries in H as [H|H]; [|exact H].
  simpl in H. now rewrite lookup_empty in H.
Qed.

Lemma validateParts_valid_empty parts :
  snd (validateParts parts) = true <-> fst (validateParts parts) = ∅.
Proof.
  split.
  - intros Hvalid. apply map_eq. intros k. rewrite lookup_empty.
    destruct (fst (validateParts parts) !! k) as [e|] eqn:E; [|reflexivity].
    destruct (validateParts_lookup parts k e E) as [p [Hp [_ [-> Hk]]]].
    rewrite validateParts_spec in Hvalid. simpl in Hvalid.
    apply negb_true_iff in Hvalid.
    assert (existsb (fun p => hasKeys (partErrorsOf p)) parts = true)
      by (apply existsb_exists; eauto).
    congruence.
  - intros Hempty. rewrite validateParts_spec. simpl. apply negb_true_iff.
    destruct (existsb (fun p => hasKeys (partErrorsOf p)) parts) eqn:E;
      [|reflexivity].
    apply existsb_exists in E as [p [Hp Hk]].
    destruct (validate_reports parts (∅, false) p Hp Hk) as [e [He _]].
    rewrite validateParts_spec in Hempty. simpl in Hempty.
    rewrite Hempty, lookup_empty in He. discriminate.
Qed.

(** The own entries are those that the parts of an id other than
    [__proto__] leave. *)
Lemma validateObject_entries parts : forall o b b',
  ErrorsObject.entries (fst (fold_left ErrorsObject.validateStep parts (o, b)))
  = fst (fold_left validateStep (List.filter isOwnKey parts)
           (ErrorsObject.entries o, b')).
Proof.
  induction parts as [|p parts IH]; intros o b b'; [reflexivity|].
  cbn [fold_left List.filter].
  set (st := ErrorsObject.validateStep (o, b) p).
  assert (Hst : ErrorsObject.entries (fst st)
                = if isOwnKey p
                  then fst (validateStep (ErrorsObject.entries o, b') p)
                  else ErrorsObject.entries o).
  { unfold st, ErrorsObject.validateStep, validateStep, ErrorsObject.assign,
      isOwnKey. cbn [fst].
    destruct (hasKeys (partErrorsOf p));
      destruct (String.eqb (Part.id p) "__proto__"); reflexivity. }
  destruct st as [o1 b1]. cbn [fst] in Hst.
  destruct (isOwnKey p).
  - cbn [fold_left].
    rewrite (IH o1 b1 (snd (validateStep (ErrorsObject.entries o, b') p))), Hst.
    now destruct (validateStep (ErrorsObject.entries o, b') p).
  - now rewrite (IH o1 b1 b'), Hst.
Qed.

Lemma validateObject_flag parts : forall st,
  snd (fold_left ErrorsObject.validateStep parts st)
  = snd st || existsb faulty parts.
Proof.
  induction parts as [|p parts IH]; intros st; simpl.
  - now rewrite orb_false_r.
  - rewrite IH. unfold ErrorsObject.validateStep, faulty.
    destruct (hasKeys (partErrorsOf p)); simpl; [|reflexivity].
    now rewrite orb_true_r.
Qed.

Lemma validateObject_prototype parts : forall st,
  idsAreOwnKeys parts = true ->
  ErrorsObject.prototype (fst (fold_left ErrorsObject.validateStep parts st))
  = ErrorsObject.prototype (fst st).
Proof.
  induction parts as [|p parts IH]; intros st Hids; [reflexivity|].
  unfold idsAreOwnKeys in Hids. cbn [forallb] in Hids.
  apply andb_true_iff in Hids as [Hp Hids]. cbn [fold_left].
  rewrite (IH _ Hids). unfold ErrorsObject.validateStep.
  destruct (hasKeys (partErrorsOf p)); [|reflexivity]. cbn [fst].
  unfold ErrorsObject.assign. unfold isOwnKey in Hp.
  apply negb_true_iff in Hp. now rewrite Hp.
Qed.

(** The last faulty part of the id [__proto__] gives the prototype. *)
Lemma validateObject_prototype_set parts : forall st,
  existsb (fun p => faulty p && negb (isOwnKey p)) parts = true ->
  exists p, In p parts /\ Part.id p = "__proto__" /\ faulty p = true
    /\ ErrorsObject.prototype
         (fst (fold_left ErrorsObject.validateStep parts st))
       = Some (partErrorsOf p).
Proof.
  induction parts as [|q parts IH]; intros st H; [discriminate|].
  cbn [existsb fold_left] in *.
  destruct (existsb (fun p => faulty p && negb (isOwnKey p)) parts) eqn:E.
  - destruct (IH (ErrorsObject.validateStep st q) eq_refl)
      as [p [Hin Hrest]].
    exists p. split; [now right | exact Hrest].
  - rewrite orb_false_r in H. apply andb_true_iff in H as [Hq Hproto].
    unfold isOwnKey in Hproto. rewrite negb_involutive in Hproto.
    exists q. split; [now left|].
    split; [now apply String.eqb_eq|]. split; [exact Hq|].
    assert (Hrest : forall st', ErrorsObject.prototype
        (fst (fold_left ErrorsObject.validateStep parts st'))
      = ErrorsObject.prototype (fst st')).
    { clear IH. induction parts as [|r parts IH']; intros st'; [reflexivity|].
      cbn [existsb] in E. apply orb_false_iff in E as [Hr E].
      cbn [fold_left]. rewrite (IH' E). unfold ErrorsObject.validateStep.
      unfold faulty in Hr.
      destruct (hasKeys (partErrorsOf r)); [|reflexivity]. cbn [fst].
      unfold ErrorsObject.assign. unfold isOwnKey in Hr.
      cbn [andb] in Hr. rewrite negb_involutive in Hr. now rewrite Hr. }
    rewrite Hrest. unfold ErrorsObject.validateStep. unfold faulty in Hq.
    rewrite Hq. cbn [fst]. unfold ErrorsObject.assign. now rewrite Hproto.
Qed.

Lemma validatePartsObject_spec parts :
  ErrorsObject.validateParts parts
  = (fst (fold_left ErrorsObject.validateStep parts (ErrorsObject.empty, false)),
     negb (existsb faulty parts)).
Proof.
  unfold ErrorsObject.validateParts.
  pose proof (validateObject_flag parts (ErrorsObject.empty, false)) as H.
  destruct (fold_left ErrorsObject.validateStep parts _) as [o b].
  simpl in *. now subst.
Qed.

Lemma filter_isOwnKey parts :
  idsAreOwnKeys parts = true -> List.filter isOwnKey parts = parts.
Proof.
  intros H. apply filter_all. intros p Hp.
  unfold idsAreOwnKeys in H. rewrite forallb_forall in H. now apply H.
Qed.

(** X3. The errors object that [validateParts] builds, as long as no part of
    the table has the id [__proto__]: its prototype is left alone, and its
    own entries (those that [Object.keys] lists) are what the insertions in
    a dictionary give.  It has no entry exactly when the parts pass, and each
    of its entries is the error object of a part of that id that has
    something wrong: no part is listed that is in order. *)
Theorem validateParts_reports_only_faulty parts :
  idsAreOwnKeys parts = true ->
  let errors := fst (ErrorsObject.validateParts parts) in
  let valid := snd (ErrorsObject.validateParts parts) in
  ErrorsObject.prototype errors = None
  /\ ErrorsObject.entries errors = fst (validateParts parts)
  /\ valid = snd (validateParts parts)
  /\ (valid = true <-> ErrorsObject.entries errors = ∅)
  /\ forall k e, ErrorsObject.entries errors !! k = Some e ->
       exists p, In p parts /\ Part.id p = k /\ e = partErrorsOf p
                 /\ hasKeys e = true.
Proof.
  intros Hids. cbv zeta.
  assert (Hentries : ErrorsObject.entries (fst (ErrorsObject.validateParts parts))
                     = fst (validateParts parts)).
  { rewrite validatePartsObject_spec, validateParts_spec. cbn [fst].
    rewrite (validateObject_entries parts _ _ false).
    now rewrite (filter_isOwnKey parts Hids). }
  assert (Hvalid : snd (ErrorsObject.validateParts parts)
                   = snd (validateParts parts))
    by now rewrite validatePartsObject_spec, validateParts_spec.
  split.
  { rewrite validatePartsObject_spec. cbn [fst].
    now rewrite validateObject_prototype. }
  split; [exact Hentries|]. split; [exact Hvalid|].
  rewrite Hentries, Hvalid.
  split; [apply validateParts_valid_empty | apply validateParts_lookup].
Qed.

(** X20. A row of the id [__proto__] is never listed: the errors object has
    no entry of that key, and its entries are those of the other rows.  When
    the only rows with something wrong have the id [__proto__], validation
    fails, the run is refused, and yet the errors object has no entry at
    all: the error object of such a row has become its prototype. *)
Theorem validateParts_proto_row_unlisted parts :
  existsb faulty parts = true ->
  forallb (fun p => negb (faulty p) || negb (isOwnKey p)) parts = true ->
  let errors := fst (ErrorsObject.validateParts parts) in
  snd (ErrorsObject.validateParts parts) = false
  /\ snd (validateParts parts) = false
  /\ ErrorsObject.entries errors = ∅
  /\ exists p, In p parts /\ Part.id p = "__proto__"
       /\ hasKeys (partErrorsOf p) = true
       /\ ErrorsObject.prototype errors = Some (partErrorsOf p).
Proof.
  intros Hfaulty Honly. cbv zeta.
  rewrite validatePartsObject_spec, validateParts_spec. cbn [fst snd].
  fold faulty. rewrite Hfaulty.
  split; [reflexivity|]. split; [reflexivity|].
  rewrite forallb_forall in Honly. split.
  - rewrite (validateObject_entries parts _ _ false). cbn [ErrorsObject.entries
      ErrorsObject.empty].
    apply map_eq. intros k. rewrite lookup_empty.
    destruct (fst (fold_left validateStep (List.filter isOwnKey parts)
                     (∅, false)) !! k) as [e|] eqn:E; [|reflexivity].
    apply validate_entries in E as [E|[p [Hp [_ [-> Hk]]]]].
    + cbn [fst] in E. now rewrite lookup_empty in E.
    + apply filter_In in Hp as [Hp Hown]. specialize (Honly p Hp).
      unfold faulty in Honly. rewrite Hk, Hown in Honly. discriminate.
  - apply validateObject_prototype_set. apply existsb_exists in Hfaulty
      as [p [Hp Hf]].
    apply existsb_exists. exists p. split; [exact Hp|].
    specialize (Honly p Hp). rewrite Hf in *. cbn [negb orb] in Honly.
    now rewrite Honly.
Qed.

(** ** [runOptimization] and [handleRunOptimization]: how a run ends *)

Section RunFacts.
Variable Number_toString : Q -> string.

(** X4. Whatever the service throws, the caller of [runOptimization] sees one
    of two fixed messages, never the message of the service: the one about
    the API key exactly when an [Error] was thrown whose message includes
    the text API_KEY. *)
Theorem runOptimization_throws_fixed_messages generateContent parts parameters :
  let outcome :=
    snd (runOptimization Number_toString generateContent parts parameters) in
  ((exists result, outcome = Returns result)
   \/ outcome = Throws invalidApiKeyMessage
   \/ outcome = Throws noValidResponseMessage)
  /\ (outcome = Throws invalidApiKeyMessage <->
      exists message,
        generateContent (promptFor Number_toString parts parameters)
        = Thrown (Some message)
        /\ includes message "API_KEY" = true).
Proof.
  unfold runOptimization, promptFor. simpl.
  destruct (generateContent _) as [[message|]|result]; simpl.
  - destruct (includes message "API_KEY") eqn:E; split; try tauto.
    + split; [eauto|reflexivity].
    + split; [discriminate|]. intros [m [[= <-] Hm]]. congruence.
  - split; [tauto|]. split; [discriminate|]. intros [m [H _]]. discriminate.
  - split; [eauto|]. split; [discriminate|]. intros [m [H _]]. discriminate.
Qed.

(** Once the client is there, the run is the one of [handleRunOptimization]
    as modelled from the grouping on. *)
Lemma handleRunOptimization_client_ready generateContent parts parameters st :
  FromClient.handleRunOptimization Number_toString (ClientReady generateContent)
    parts parameters st
  = handleRunOptimization Number_toString generateContent parts parameters st.
Proof.
  unfold FromClient.handleRunOptimization, handleRunOptimization,
    FromClient.runOptimization.
  destruct (validateParts parts) as [newErrors valid].
  destruct (negb valid); [reflexivity|].
  destruct (runOptimization Number_toString generateContent parts parameters)
    as [calls [message|result]]; reflexivity.
Qed.

(** X5. On parts that pass validation, whatever the parameters are (they are
    not checked), [handleRunOptimization] ends with no error entries and the
    loading flag down.  When the constructor of the client throws, nothing is
    grouped and nothing sent, the earlier result is cleared and the message
    shown is that of the constructor (or the fixed text for something thrown
    that is no [Error]).  Otherwise the parts are grouped and one request is
    sent, and either the reply is stored as the result with no message, or
    the earlier result is cleared and one of the two fixed messages shown. *)
Theorem handleRunOptimization_completes client parts parameters st :
  snd (validateParts parts) = true ->
  RunCompleted Number_toString client parts parameters
    (FromClient.handleRunOptimization Number_toString client parts parameters st).
Proof.
  intros Hvalid.
  pose proof (proj1 (validateParts_valid_empty parts) Hvalid) as Hempty.
  unfold FromClient.handleRunOptimization.
  destruct (validateParts parts) as [newErrors valid]. simpl in *. subst.
  unfold RunCompleted. destruct client as [[message|]|generateContent].
  - repeat split.
  - repeat split.
  - unfold FromClient.runOptimization, runOptimization, promptFor. simpl.
    destruct (generateContent _) as [[message|]|result]; simpl.
    + destruct (includes message "API_KEY"); simpl;
        (repeat split; try reflexivity); right; eexists; split;
          [reflexivity | | reflexivity |]; tauto.
    + repeat split; try reflexivity. right. eexists. split; [reflexivity|]. tauto.
    + repeat split; try reflexivity. left. eexists. split; [reflexivity|]. tauto.
Qed.

End RunFacts.

(** ** [PartsTable]: rows added, removed and edited *)

Lemma validate_snoc parts p :
  fold_left validateStep (parts ++ [p]) (∅, false)
  = validateStep (fold_left validateStep parts (∅, false)) p.
Proof. now rewrite fold_left_app. Qed.

(** X6. A row just added by [addRow] blocks the run: validation fails, the
    new id is reported with its width, length, thickness, grade and project
    name (the quantity, 1, is accepted), and [handleRunOptimization] makes
    no call. *)
Theorem addRow_blocks_run newId parts :
  snd (validateParts (addRow newId parts)) = false
  /\ fst (validateParts (addRow newId parts)) !! newId
     = Some (PartError.mk (Some mustBePositive) (Some mustBePositive) None
               (Some mustBePositive) (Some mustNotBeEmpty)
               (Some mustNotBeEmpty))
  /\ forall Number_toString generateContent parameters st,
       fst (handleRunOptimization Number_toString generateContent
              (addRow newId parts) parameters st) = [].
Proof.
  assert (Hvalid : snd (validateParts (addRow newId parts)) = false).
  { rewrite validateParts_spec. simpl. apply negb_false_iff.
    apply existsb_exists. exists (newPart newId).
    split; [apply in_or_app; right; now left | reflexivity]. }
  split; [exact Hvalid|]. split.
  - rewrite validateParts_spec. simpl. unfold addRow. rewrite validate_snoc.
    unfold validateStep. simpl. apply lookup_insert_eq.
  - intros Number_toString generateContent parameters st.
    now rewrite (handleRunOptimization_invalid _ _ _ _ _ Hvalid).
Qed.

Lemma filter_app_single {A : Type} (f : A -> bool) l a :
  List.filter f (l ++ [a]) = List.filter f l ++ (if f a then [a] else []).
Proof. rewrite List.filter_app. reflexivity. Qed.

(** X7. [deleteRow] undoes [addRow]: with an id that no part of the table
    has, adding a row and deleting it gives back the parts as they were;
    and after [deleteRow] no part has the id and the errors have no entry
    for it, the entries of the other ids being as before. *)
Theorem deleteRow_addRow newId parts errs :
  Forall (fun p => Part.id p <> newId) parts ->
  fst (deleteRow newId (addRow newId parts) errs) = parts
  /\ Forall (fun p => Part.id p <> newId)
       (fst (deleteRow newId (addRow newId parts) errs))
  /\ snd (deleteRow newId (addRow newId parts) errs) !! newId = None
  /\ forall k, k <> newId ->
       snd (deleteRow newId (addRow newId parts) errs) !! k = errs !! k.
Proof.
  intros Hfresh.
  assert (Hparts : fst (deleteRow newId (addRow newId parts) errs) = parts).
  { unfold deleteRow, addRow. simpl. rewrite filter_app_single. simpl.
    rewrite String.eqb_refl. simpl. rewrite app_nil_r.
    apply filter_all. intros p Hp. rewrite List.Forall_forall in Hfresh.
    apply negb_true_iff. destruct (String.eqb_spec (Part.id p) newId) as [E|_];
      [now destruct (Hfresh p Hp) | reflexivity]. }
  split; [exact Hparts|]. split; [now rewrite Hparts|]. split.
  - apply lookup_delete_eq.
  - intros k Hk. now apply lookup_delete_ne.
Qed.

(** X8. Deleting the rows of an id lets the run through when every faulty
    part had that id: validation then passes on what is left. *)
Theorem deleteRow_unblocks_run id parts errs :
  (forall p, In p parts -> hasKeys (partErrorsOf p) = true -> Part.id p = id) ->
  snd (validateParts (fst (deleteRow id parts errs))) = true.
Proof.
  intros Hfaulty. rewrite validateParts_spec. simpl. apply negb_true_iff.
  destruct (existsb _ _) eqn:E; [|reflexivity].
  apply existsb_exists in E as [p [Hp Hk]].
  apply filter_In in Hp as [Hp Hid]. apply negb_true_iff in Hid.
  rewrite (Hfaulty p Hp Hk), String.eqb_refl in Hid. discriminate.
Qed.

Lemma withField_id edit p : Part.id (withField edit p) = Part.id p.
Proof. now destruct edit. Qed.

(** X9. [handleUpdate] keeps the rows, their order and their ids; it changes
    every row of the given id, also when several rows share it, and no
    other row; and of two edits of the same cell the later one stands. *)
Theorem handleUpdate_edits_rows_of_id id edit parts :
  map Part.id (handleUpdate id edit parts) = map Part.id parts
  /\ Forall2 (fun p p' =>
                (Part.id p = id -> p' = withField edit p)
                /\ (Part.id p <> id -> p' = p))
       parts (handleUpdate id edit parts)
  /\ forall edit',
       sameCell edit edit' = true ->
       handleUpdate id edit' (handleUpdate id edit parts)
       = handleUpdate id edit' parts.
Proof.
  unfold handleUpdate. repeat split.
  - rewrite map_map. apply map_ext. intros p.
    destruct (String.eqb (Part.id p) id); [apply withField_id | reflexivity].
  - induction parts as [|p parts IH]; simpl; constructor; [|exact IH].
    destruct (String.eqb_spec (Part.id p) id); split; tauto.
  - intros edit' Hsame. rewrite map_map. apply map_ext. intros p.
    destruct (String.eqb (Part.id p) id) eqn:E; [|now rewrite E].
    rewrite withField_id, E.
    destruct edit, edit'; try discriminate; reflexivity.
Qed.

(** ** [preprocessData]: rows, keys and flags *)

Section GrouperFacts.
Variable Number_toString : Q -> string.
Variable maxSheetLength : Q.

Lemma length_flat_map_sum {A B : Type} (f : A -> list B) l :
  List.length (flat_map f l) = list_sum (map (fun a => List.length (f a)) l).
Proof.
  induction l as [|a l IH]; simpl; [reflexivity|].
  now rewrite length_app, IH.
Qed.

(** X10. [preprocessData] keeps one grouped instance per row of the table,
    whatever the quantity of the row: the sizes of the groups add up to the
    number of rows, there are no more groups than rows, and no group at all
    exactly when the table is empty. *)
Theorem preprocessData_counts_rows parts :
  let groups := preprocessData Number_toString parts maxSheetLength in
  list_sum (map (fun g => List.length (MaterialGroup.parts g)) groups)
  = List.length parts
  /\ List.length groups <= List.length parts
  /\ (groups = [] <-> parts = []).
Proof.
  simpl.
  assert (Hsum : list_sum
      (map (fun g => List.length (MaterialGroup.parts g))
         (preprocessData Number_toString parts maxSheetLength))
    = List.length parts).
  { rewrite <- length_flat_map_sum.
    rewrite (Permutation_length
               (preprocessData_partition Number_toString maxSheetLength parts)).
    apply length_map. }
  assert (Hkeys := preprocessData_keys Number_toString maxSheetLength parts).
  split; [exact Hsum|]. split.
  - rewrite <- (length_map MaterialGroup.materialKey), Hkeys.
    rewrite <- (length_map (materialKeyOf Number_toString) parts).
    generalize (map (materialKeyOf Number_toString) parts). intros ks.
    induction ks as [|k ks IH]; simpl; [lia|].
    pose proof (List.filter_length_le
                  (fun k' => negb (String.eqb k' k)) (firstOccurrences ks)).
    lia.
  - split.
    + intros E. rewrite E in Hsum. simpl in Hsum.
      destruct parts; [reflexivity | discriminate].
    + intros ->. reflexivity.
Qed.

(** X11. Two parts get the same group key exactly when they have the same
    grade and their thicknesses print alike, provided the printed
    thicknesses hold no underscore; the grades may hold any character. *)
Theorem materialKeyOf_same_iff p q :
  occurs "_" (Number_toString (Part.thickness p)) = false ->
  occurs "_" (Number_toString (Part.thickness q)) = false ->
  (materialKeyOf Number_toString p = materialKeyOf Number_toString q
   <-> Part.grade p = Part.grade q
       /\ Number_toString (Part.thickness p)
          = Number_toString (Part.thickness q)).
Proof.
  intros Hp Hq. split.
  - now apply materialKeyOf_inj.
  - intros [Hg Ht]. unfold materialKeyOf. now rewrite Hg, Ht.
Qed.

(** X12. The rows shown in yellow in the table are the parts that reach the
    service flagged: every grouped instance is a row of the table, and its
    [exceedsSheetLength] is the highlight of that row. *)
Theorem rowHighlighted_iff_flagged parts :
  Forall (fun g =>
    Forall (fun a =>
      In (GroupedPart.part a) parts
      /\ GroupedPart.exceedsSheetLength a
         = rowHighlighted maxSheetLength (GroupedPart.part a))
      (MaterialGroup.parts g))
    (preprocessData Number_toString parts maxSheetLength).
Proof.
  apply List.Forall_forall. intros g Hg.
  apply preprocessData_In in Hg as [k [Hk ->]].
  apply List.Forall_forall. intros a Ha.
  apply annotate_in_group in Ha as [p [Hp [_ ->]]]. simpl. now split.
Qed.

End GrouperFacts.

(** ** [exportToCsv]: the lines of the file *)

Section CsvLines.
Variable Number_toString : Q -> string.
Variable Number_toFixed : nat -> Q -> string.

(** X13. When no cell holds a line break, the results file has exactly one
    line per row: cutting the text of [exportToCsv] at the line breaks gives
    back the header and the rows, one more line than there are nested
    parts. *)
Theorem exportToCsv_lines result :
  csvCellsOnOneLine Number_toString Number_toFixed result = true ->
  Str.split "010"%char (exportToCsv Number_toString Number_toFixed result)
  = csvRows Number_toString Number_toFixed result
  /\ List.length
       (Str.split "010"%char (exportToCsv Number_toString Number_toFixed result))
     = S (List.length (nestedPartsInOrder result)).
Proof.
  intros Hcells.
  assert (Hsplit :
    Str.split "010"%char (exportToCsv Number_toString Number_toFixed result)
    = csvRows Number_toString Number_toFixed result).
  { unfold exportToCsv. apply (split_join "010"%char).
    - rewrite csvRows_flat. discriminate.
    - rewrite csvRows_flat. cbn [forallb]. apply andb_true_iff.
      split; [reflexivity|].
      rewrite forallb_forall. intros row Hrow.
      apply in_map_iff in Hrow as [glp [<- Hglp]].
      unfold csvCellsOnOneLine in Hcells. rewrite forallb_forall in Hcells.
      specialize (Hcells glp Hglp). apply negb_true_iff.
      unfold joinCells. apply (occurs_join "010"%char ","%char); [reflexivity|].
      rewrite forallb_forall. intros text Htext.
      apply in_map_iff in Htext as [cell [<- Hcell]].
      rewrite forallb_forall in Hcells. now apply Hcells. }
  split; [exact Hsplit|].
  rewrite Hsplit, csvRows_flat. simpl. now rewrite length_map.
Qed.

End CsvLines.

(** ** [drawText]: the text of a label *)

Lemma isControl_code a : Str.isControl a = negb (32 <=? nat_of_ascii a)%nat.
Proof.
  unfold Str.isControl.
  destruct (Nat.ltb_spec (nat_of_ascii a) 32), (Nat.leb_spec 32 (nat_of_ascii a));
    try reflexivity; lia.
Qed.

Lemma removeControl_printable s : printable (Str.removeControl s) = true.
Proof.
  induction s as [|a s IH]; cbn [Str.removeControl]; [reflexivity|].
  destruct (Str.isControl a) eqn:E; [exact IH|]. cbn [printable].
  rewrite isControl_code in E. apply negb_false_iff in E. now rewrite E.
Qed.

Lemma removeControl_of_printable s :
  printable s = true -> Str.removeControl s = s.
Proof.
  induction s as [|a s IH]; cbn [Str.removeControl printable]; [reflexivity|].
  rewrite isControl_code.
  destruct (32 <=? nat_of_ascii a)%nat; cbn [negb andb]; [|discriminate].
  intros H. now rewrite IH.
Qed.

Lemma printable_occurs s a :
  printable s = true -> occurs a s = true -> (32 <= nat_of_ascii a)%nat.
Proof.
  induction s as [|b s IH]; cbn [printable occurs]; [discriminate|].
  intros Hs. apply andb_true_iff in Hs as [Hb Hs].
  destruct (Ascii.eqb_spec b a) as [->|_]; cbn [orb].
  - intros _. now apply Nat.leb_le.
  - now apply IH.
Qed.

Lemma printable_on_one_line s :
  printable s = true -> occurs "010"%char s = false.
Proof.
  intros Hs. destruct (occurs "010"%char s) eqn:E; [|reflexivity].
  pose proof (printable_occurs s _ Hs E) as H. vm_compute in H. lia.
Qed.

Section DrawText.
Variable Number_toString : Q -> string.

(** X14. Whatever the label, [drawText] writes fourteen lines, each ended by
    a line break: the thirteen of the entity and then the label on a line of
    its own.  The label written is the text without its control characters:
    none of its characters has a code below 32, so a line break in a part id
    or a material key cannot break the lines of the drawing file; and a text
    without control characters is written as it is.  (The layer and the
    numbers as printed are taken to hold no line break.) *)
Theorem drawText_lines x y text layer height color :
  forallb (fun line => negb (occurs "010"%char line))
    [layer; Number_toString color; Number_toString x; Number_toString y;
     Number_toString height] = true ->
  exists label,
    Str.split "010"%char (drawText Number_toString x y text layer height color)
    = [ "0"; "TEXT"; "8"; layer; "62"; Number_toString color;
        "10"; Number_toString x; "20"; Number_toString y;
        "40"; Number_toString height; "1"; label; EmptyString ]
    /\ printable label = true
    /\ (forall a, occurs a label = true -> (32 <= nat_of_ascii a)%nat)
    /\ (printable text = true -> label = text)
    /\ label = Str.removeControl text.
Proof.
  intros Hplain. exists (Str.removeControl text).
  pose proof (removeControl_printable text) as Hlabel.
  split; [|split; [exact Hlabel|split; [|split]]].
  - unfold drawText. cbv zeta. rewrite split_dxfLines; [reflexivity|].
    cbn [forallb] in *. rewrite !andb_true_iff in *.
    destruct Hplain as [Hlayer [Hcolor [Hx [Hy [Hheight _]]]]].
    rewrite (printable_on_one_line _ Hlabel). repeat split; assumption.
  - intros a. now apply printable_occurs.
  - apply removeControl_of_printable.
  - reflexivity.
Qed.

End DrawText.

(** ** Rounding to binary64 *)

Section Binary64Facts.
Import Binary64.
Local Open Scope Q_scope.


Lemma pow2_pos e : 0 < pow2 e.
Proof. apply Qpower_0_lt. reflexivity. Qed.

Lemma pow2_le e e' : (e <= e')%Z -> pow2 e <= pow2 e'.
Proof. intros H. apply Qpower_le_compat_l; [exact H | discriminate]. Qed.

Lemma pow2_lt e e' : (e < e')%Z -> pow2 e < pow2 e'.
Proof. intros H. apply Qpower_lt_compat_l; [exact H | reflexivity]. Qed.

Lemma pow2_lt_inv e e' : pow2 e < pow2 e' -> (e < e')%Z.
Proof. intros H. apply (Qpower_lt_compat_l_inv 2); [exact H | reflexivity]. Qed.

Lemma pow2_plus a b : pow2 (a + b) == pow2 a * pow2 b.
Proof. apply Qpower_plus. discriminate. Qed.

Lemma pow2_Z a : (0 <= a)%Z -> pow2 a == inject_Z (2 ^ a).
Proof. intros H. unfold pow2. now rewrite Zpower_Qpower. Qed.

Lemma nearestEven_bounds x : (Qfloor x <= nearestEven x <= Qfloor x + 1)%Z.
Proof.
  unfold nearestEven.
  destruct (x - inject_Z (Qfloor x) ?= 1 # 2); [destruct (Z.even _)| |]; lia.
Qed.

Lemma nearestEven_mono x y : x <= y -> (nearestEven x <= nearestEven y)%Z.
Proof.
  intros H. pose proof (Qfloor_resp_le _ _ H) as Hf.
  destruct (Z.eq_dec (Qfloor x) (Qfloor y)) as [E|Hne].
  - unfold nearestEven. rewrite <- E.
    destruct (Qcompare_spec (x - inject_Z (Qfloor x)) (1 # 2)),
             (Qcompare_spec (y - inject_Z (Qfloor x)) (1 # 2));
      try lra; try lia; destruct (Z.even (Qfloor x)); lia.
  - pose proof (nearestEven_bounds x). pose proof (nearestEven_bounds y). lia.
Qed.

Lemma nearestEven_comp x y : x == y -> nearestEven x = nearestEven y.
Proof.
  intros H. apply Z.le_antisymm; apply nearestEven_mono; rewrite H; apply Qle_refl.
Qed.

Lemma nearestEven_Z z : nearestEven (inject_Z z) = z.
Proof.
  unfold nearestEven. rewrite Qfloor_Z.
  destruct (Qcompare_spec (inject_Z z - inject_Z z) (1 # 2)) as [H|H|H];
    [lra | reflexivity | lra].
Qed.

Lemma exponent_spec q :
  0 < q -> pow2 (exponent q) <= q /\ q < pow2 (exponent q + 1).
Proof.
  intros Hq. destruct q as [n d].
  assert (Hn : (0 < n)%Z) by (unfold Qlt in Hq; simpl in Hq; lia).
  unfold exponent. cbn [Qnum Qden].
  set (ln := Z.log2 n). set (ld := Z.log2 (Z.pos d)).
  destruct (Z.log2_spec n Hn) as [Hn1 Hn2]. fold ln in Hn1, Hn2.
  destruct (Z.log2_spec (Z.pos d) eq_refl) as [Hd1 Hd2]. fold ld in Hd1, Hd2.
  assert (Hln : (0 <= ln)%Z) by apply Z.log2_nonneg.
  assert (Hld : (0 <= ld)%Z) by apply Z.log2_nonneg.
  assert (Qn1 : pow2 ln <= inject_Z n)
    by (rewrite pow2_Z by exact Hln; now rewrite <- Zle_Qle).
  assert (Qn2 : inject_Z n < pow2 (ln + 1))
    by (rewrite pow2_Z by lia; rewrite <- Zlt_Qlt; lia).
  assert (Qd1 : pow2 ld <= inject_Z (Z.pos d))
    by (rewrite pow2_Z by exact Hld; now rewrite <- Zle_Qle).
  assert (Qd2 : inject_Z (Z.pos d) < pow2 (ld + 1))
    by (rewrite pow2_Z by lia; rewrite <- Zlt_Qlt; lia).
  assert (Hd : 0 < inject_Z (Z.pos d)) by reflexivity.
  assert (A : pow2 (ln - ld - 1) < n # d).
  { rewrite (Qmake_Qdiv n d). apply Qlt_shift_div_l; [exact Hd|].
    apply Qlt_le_trans with (pow2 (ln - ld - 1) * pow2 (ld + 1)).
    - apply Qmult_lt_l; [apply pow2_pos | exact Qd2].
    - rewrite <- pow2_plus. replace (ln - ld - 1 + (ld + 1))%Z with ln by lia.
      exact Qn1. }
  assert (B : n # d < pow2 (ln - ld + 1)).
  { rewrite (Qmake_Qdiv n d). apply Qlt_shift_div_r; [exact Hd|].
    apply Qlt_le_trans with (pow2 (ln - ld + 1) * pow2 ld).
    - rewrite <- pow2_plus. replace (ln - ld + 1 + ld)%Z with (ln + 1)%Z by lia.
      exact Qn2.
    - apply Qmult_le_l; [apply pow2_pos | exact Qd1]. }
  destruct (Qle_bool (pow2 (ln - ld)) (n # d)) eqn:E.
  - split; [now apply Qle_bool_iff | exact B].
  - split; [now apply Qlt_le_weak|].
    replace (ln - ld - 1 + 1)%Z with (ln - ld)%Z by lia.
    apply Qnot_le_lt. intros H. apply Qle_bool_iff in H. congruence.
Qed.

Lemma exponent_unique q e :
  pow2 e <= q -> q < pow2 (e + 1) -> exponent q = e.
Proof.
  intros H1 H2.
  assert (Hq : 0 < q) by (eapply Qlt_le_trans; [apply pow2_pos | exact H1]).
  destruct (exponent_spec q Hq) as [H3 H4].
  assert (e < exponent q + 1)%Z
    by (apply pow2_lt_inv; eapply Qle_lt_trans; eassumption).
  assert (exponent q < e + 1)%Z
    by (apply pow2_lt_inv; eapply Qle_lt_trans; eassumption).
  lia.
Qed.

Lemma exponent_comp a b : 0 < a -> a == b -> exponent a = exponent b.
Proof.
  intros Ha E. destruct (exponent_spec a Ha) as [H1 H2].
  symmetry. apply exponent_unique; now rewrite <- E.
Qed.

Lemma exponent_mono a b : 0 < a -> a <= b -> (exponent a <= exponent b)%Z.
Proof.
  intros Ha Hab.
  assert (Hb : 0 < b) by (eapply Qlt_le_trans; eassumption).
  destruct (exponent_spec a Ha) as [H1 _], (exponent_spec b Hb) as [_ H2].
  assert (exponent a < exponent b + 1)%Z; [|lia].
  apply pow2_lt_inv. eapply Qle_lt_trans; [exact H1|].
  eapply Qle_lt_trans; eassumption.
Qed.

Lemma unitExponent_spec q :
  (-1074 <= unitExponent q)%Z /\ (exponent q - 52 <= unitExponent q)%Z
  /\ (unitExponent q = -1074 \/ unitExponent q = exponent q - 52)%Z.
Proof. unfold unitExponent. lia. Qed.

Lemma pow2_53 : pow2 53 == inject_Z (2 ^ 53).
Proof. now apply pow2_Z. Qed.

Lemma pow2_52 : pow2 52 == inject_Z (2 ^ 52).
Proof. now apply pow2_Z. Qed.

(** In units of the last place, a positive number is below 2^53, and at
    least 2^52 when it is not subnormal. *)
Lemma scaled_upper q : 0 < q -> q / pow2 (unitExponent q) < pow2 53.
Proof.
  intros Hq. destruct (exponent_spec q Hq) as [_ H].
  destruct (unitExponent_spec q) as [_ [Hu _]].
  apply Qlt_shift_div_r; [apply pow2_pos|].
  eapply Qlt_le_trans; [exact H|]. rewrite <- pow2_plus. apply pow2_le. lia.
Qed.

Lemma scaled_lower q :
  0 < q -> unitExponent q = (exponent q - 52)%Z ->
  pow2 52 <= q / pow2 (unitExponent q).
Proof.
  intros Hq Hu. destruct (exponent_spec q Hq) as [H _].
  apply Qle_shift_div_l; [apply pow2_pos|].
  rewrite <- pow2_plus. eapply Qle_trans; [|exact H]. apply pow2_le. lia.
Qed.

Lemma scaled_positive q : 0 < q -> 0 < q / pow2 (unitExponent q).
Proof. intros Hq. apply Qlt_shift_div_l; [apply pow2_pos | lra]. Qed.

Lemma roundPositive_nonneg q : 0 < q -> 0 <= roundPositive q.
Proof.
  intros Hq. unfold roundPositive. apply Qmult_le_0_compat.
  - change 0 with (inject_Z 0). rewrite <- Zle_Qle.
    rewrite <- (nearestEven_Z 0) at 1.
    apply nearestEven_mono. apply Qlt_le_weak. now apply scaled_positive.
  - apply Qlt_le_weak, pow2_pos.
Qed.

Lemma nearestEven_upper q :
  0 < q -> (nearestEven (q / pow2 (unitExponent q)) <= 2 ^ 53)%Z.
Proof.
  intros Hq. rewrite <- (nearestEven_Z (2 ^ 53)) at 1.
  apply nearestEven_mono. rewrite <- pow2_53.
  apply Qlt_le_weak. now apply scaled_upper.
Qed.

Lemma nearestEven_lower q :
  0 < q -> unitExponent q = (exponent q - 52)%Z ->
  (2 ^ 52 <= nearestEven (q / pow2 (unitExponent q)))%Z.
Proof.
  intros Hq Hu. rewrite <- (nearestEven_Z (2 ^ 52)) at 1.
  apply nearestEven_mono. rewrite <- pow2_52. now apply scaled_lower.
Qed.

Lemma roundPositive_upper q :
  0 < q -> roundPositive q <= pow2 (unitExponent q + 53).
Proof.
  intros Hq. unfold roundPositive.
  rewrite Z.add_comm, pow2_plus, pow2_53.
  apply Qmult_le_compat_r; [|apply Qlt_le_weak, pow2_pos].
  rewrite <- Zle_Qle. now apply nearestEven_upper.
Qed.

Lemma roundPositive_lower q :
  0 < q -> unitExponent q = (exponent q - 52)%Z ->
  pow2 (unitExponent q + 52) <= roundPositive q.
Proof.
  intros Hq Hu. unfold roundPositive.
  rewrite Z.add_comm, pow2_plus, pow2_52.
  apply Qmult_le_compat_r; [|apply Qlt_le_weak, pow2_pos].
  rewrite <- Zle_Qle. now apply nearestEven_lower.
Qed.

Lemma roundPositive_comp a b : 0 < a -> a == b -> roundPositive a == roundPositive b.
Proof.
  intros Ha E. unfold roundPositive.
  assert (Hu : unitExponent a = unitExponent b)
    by (unfold unitExponent; now rewrite (exponent_comp a b Ha E)).
  rewrite <- Hu.
  assert (Hn : nearestEven (a / pow2 (unitExponent a))
               = nearestEven (b / pow2 (unitExponent a))).
  { apply nearestEven_comp. apply Qmult_comp; [exact E | reflexivity]. }
  rewrite Hn. reflexivity.
Qed.

Lemma roundPositive_mono a b :
  0 < a -> a <= b -> roundPositive a <= roundPositive b.
Proof.
  intros Ha Hab.
  assert (Hb : 0 < b) by (eapply Qlt_le_trans; eassumption).
  pose proof (exponent_mono a b Ha Hab) as He.
  destruct (Z.eq_dec (unitExponent a) (unitExponent b)) as [E|Hne].
  - unfold roundPositive. rewrite <- E.
    apply Qmult_le_compat_r; [|apply Qlt_le_weak, pow2_pos].
    rewrite <- Zle_Qle. apply nearestEven_mono.
    apply Qmult_le_compat_r; [exact Hab|].
    apply Qlt_le_weak, Qinv_lt_0_compat, pow2_pos.
  - assert (Hlt : (unitExponent a < unitExponent b)%Z)
      by (unfold unitExponent in *; lia).
    assert (Hu : unitExponent b = (exponent b - 52)%Z)
      by (unfold unitExponent in *; lia).
    eapply Qle_trans; [now apply roundPositive_upper|].
    eapply Qle_trans; [|now apply roundPositive_lower].
    apply pow2_le. lia.
Qed.

Theorem Binary64_round_monotone a b : a <= b -> round a <= round b.
Proof.
  intros Hab. unfold round.
  destruct (Qcompare_spec a 0) as [Ea|Ha|Ha], (Qcompare_spec b 0) as [Eb|Hb|Hb];
    try lra.
  - now apply roundPositive_nonneg.
  - pose proof (roundPositive_nonneg (- a)). lra.
  - assert (roundPositive (- b) <= roundPositive (- a))
      by (apply roundPositive_mono; lra).
    lra.
  - pose proof (roundPositive_nonneg (- a)).
    pose proof (roundPositive_nonneg b). lra.
  - now apply roundPositive_mono.
Qed.

Lemma pow2_nonzero e : ~ pow2 e == 0.
Proof. pose proof (pow2_pos e). lra. Qed.

Lemma unitExponent_of_exponent q e :
  exponent q = e -> unitExponent q = Z.max (e - 52) (-1074).
Proof. intros <-. reflexivity. Qed.

(** A multiple of the unit in the last place is rounded to itself. *)
Lemma roundPositive_multiple m u q :
  unitExponent q = u -> q == inject_Z m * pow2 u -> roundPositive q == q.
Proof.
  intros Hu Hq. unfold roundPositive. rewrite Hu.
  assert (Hn : nearestEven (q / pow2 u) = m).
  { rewrite <- (nearestEven_Z m). apply nearestEven_comp.
    rewrite Hq. apply Qdiv_mult_l, pow2_nonzero. }
  rewrite Hn. now rewrite Hq.
Qed.

Lemma roundPositive_fixes q :
  0 < q -> 0 < roundPositive q -> roundPositive (roundPositive q) == roundPositive q.
Proof.
  intros Hq Hv.
  pose (u := unitExponent q). pose (m := nearestEven (q / pow2 u)).
  assert (Ev : roundPositive q == inject_Z m * pow2 u) by reflexivity.
  assert (Hm : (m <= 2 ^ 53)%Z) by now apply nearestEven_upper.
  destruct (unitExponent_spec q) as [Hmin [_ Hcase]]. fold u in Hmin, Hcase.
  destruct (Z.eq_dec m (2 ^ 53)%Z) as [Em|Hne].
  - (* the rounding has carried into the next binade *)
    assert (Ew : roundPositive q == pow2 (u + 53)).
    { rewrite Ev, Em, <- pow2_53, <- pow2_plus. now rewrite Z.add_comm. }
    assert (He : exponent (roundPositive q) = (u + 53)%Z).
    { apply exponent_unique; rewrite Ew; [apply Qle_refl | apply pow2_lt; lia]. }
    apply (roundPositive_multiple (2 ^ 52)%Z (u + 1)%Z).
    + rewrite (unitExponent_of_exponent _ _ He). lia.
    + rewrite Ew, <- pow2_52, <- pow2_plus. apply Qpower_comp; [reflexivity | lia].
  - assert (Hlt : roundPositive q < pow2 (u + 53)).
    { rewrite Ev, Z.add_comm, pow2_plus, pow2_53.
      apply Qmult_lt_compat_r; [apply pow2_pos|]. rewrite <- Zlt_Qlt. lia. }
    destruct (exponent_spec _ Hv) as [Hlow _].
    assert (Hup : (exponent (roundPositive q) < u + 53)%Z)
      by (apply pow2_lt_inv; eapply Qle_lt_trans; eassumption).
    apply (roundPositive_multiple m u); [|exact Ev].
    destruct Hcase as [Hsub|Hnormal].
    + unfold unitExponent. lia.
    + assert (He : exponent (roundPositive q) = (u + 52)%Z).
      { apply exponent_unique.
        - now apply roundPositive_lower.
        - replace (u + 52 + 1)%Z with (u + 53)%Z by lia. exact Hlt. }
      rewrite (unitExponent_of_exponent _ _ He). lia.
Qed.

Theorem Binary64_round_idempotent q : round (round q) == round q.
Proof.
  unfold round at 2 3.
  destruct (Qcompare_spec q 0) as [E|Hq|Hq].
  - reflexivity.
  - assert (Hq' : 0 < - q) by lra.
    pose proof (roundPositive_nonneg _ Hq') as Hv.
    unfold round.
    destruct (Qcompare_spec (- roundPositive (- q)) 0) as [E|H|H]; [lra| |lra].
    assert (Hpos : 0 < roundPositive (- q)) by lra.
    rewrite (roundPositive_comp (- - roundPositive (- q)) (roundPositive (- q)))
      by lra.
    now rewrite roundPositive_fixes.
  - pose proof (roundPositive_nonneg _ Hq) as Hv.
    unfold round.
    destruct (Qcompare_spec (roundPositive q) 0) as [E|H|H]; [lra|lra|].
    now apply roundPositive_fixes.
Qed.

End Binary64Facts.

(** The rounding of the program is monotone and leaves its values as they
    are. *)
Lemma Binary64_round_laws :
  Monotone Binary64.round /\ Idempotent Binary64.round.
Proof.
  split; [exact Binary64_round_monotone | exact Binary64_round_idempotent].
Qed.

(** ** [GroupResultCard]: main sheets and last sheet *)

Section GroupResultCardFacts.
Variable Number_toFixed : nat -> Q -> string.
Variable round : Q -> Q.
Hypothesis round_monotone : Monotone round.

Local Abbreviation waste := SheetLayout.wastePercentage.
Local Abbreviation sumStep :=
  (fun sum l => Rounded.add round sum (SheetLayout.wastePercentage l)).

Lemma totalMainWaste_mono main main' :
  Forall2 (fun l l' => (waste l <= waste l')%Q) main main' ->
  forall acc acc', (acc <= acc')%Q ->
  (fold_left sumStep main acc <= fold_left sumStep main' acc')%Q.
Proof.
  induction 1 as [|l l' main main' Hl _ IH]; intros acc acc' Hacc; [exact Hacc|].
  cbn [fold_left]. apply IH. apply round_monotone. lra.
Qed.

Lemma wasteSplit_snoc main last :
  main <> [] ->
  wasteSplit round (main ++ [last])
  = (Rounded.div round (fold_left sumStep main 0%Q)
       (inject_Z (Z.of_nat (List.length main))),
     waste last)
  /\ (1 <? List.length (main ++ [last]))%nat = true.
Proof.
  intros Hmain.
  assert (Hlen : List.length (main ++ [last]) = S (List.length main))
    by (rewrite length_app; simpl; lia).
  assert (Hpos : (0 < List.length main)%nat)
    by (destruct main; [congruence | simpl; lia]).
  assert (Hmany : (1 <? List.length (main ++ [last]))%nat = true)
    by (apply Nat.ltb_lt; lia).
  split; [|exact Hmany].
  unfold wasteSplit. rewrite Hmany, Hlen.
  replace (S (List.length main) - 1)%nat with (List.length main) by lia.
  rewrite (take_app_length main [last]).
  unfold Str.at_. rewrite nth_error_app2 by lia. now rewrite Nat.sub_diag.
Qed.

(** X15. The two figures of a group card with two sheets or more.  The last
    figure is the waste of the last sheet, as the reply gives it.  The main
    figure is computed from the sheets before the last one only, and it is
    monotone: where no main sheet has less waste, the main figure is not
    smaller, whatever the rounding of the sum and of the quotient does.
    With fewer than two sheets the card shows a dash for the main figure.
    (That the main figure times the number of main sheets plus the last
    figure is the sum of the wastes holds of the exact mean only, and is not
    stated.) *)
Theorem wasteSplit_figures main main' last last' :
  main <> [] ->
  Forall2 (fun l l' => (waste l <= waste l')%Q) main main' ->
  let layouts := main ++ [last] in
  snd (wasteSplit round layouts) = waste last
  /\ lastSheetText Number_toFixed round layouts
     = (Number_toFixed 2 (waste last) ++ "%")%string
  /\ mainSheetsText Number_toFixed round layouts
     = (Number_toFixed 2 (fst (wasteSplit round layouts)) ++ "%")%string
  /\ fst (wasteSplit round (main ++ [last'])) = fst (wasteSplit round layouts)
  /\ (fst (wasteSplit round layouts)
      <= fst (wasteSplit round (main' ++ [last'])))%Q
  /\ mainSheetsText Number_toFixed round [last] = "-"
  /\ lastSheetText Number_toFixed round [last]
     = (Number_toFixed 2 (waste last) ++ "%")%string
  /\ mainSheetsText Number_toFixed round [] = "-".
Proof.
  intros Hmain Hle. cbv zeta.
  assert (Hmain' : main' <> [])
    by (destruct Hle; [congruence | discriminate]).
  destruct (wasteSplit_snoc main last Hmain) as [Hsplit Hmany].
  destruct (wasteSplit_snoc main last' Hmain) as [Hsplit' _].
  destruct (wasteSplit_snoc main' last' Hmain') as [Hsplit'' _].
  unfold lastSheetText, mainSheetsText. rewrite Hmany, Hsplit, Hsplit', Hsplit''.
  cbn [fst snd].
  repeat (split; [reflexivity|]). split; [|repeat split].
  assert (Hlen : List.length main = List.length main')
    by (eapply Forall2_length; exact Hle).
  rewrite <- Hlen. unfold Rounded.div.
  apply round_monotone.
  assert (Hn : (0 < inject_Z (Z.of_nat (List.length main)))%Q).
  { destruct main as [|l main0]; [congruence|].
    rewrite <- (Zlt_Qlt 0). simpl List.length. lia. }
  apply Qmult_le_compat_r.
  - apply totalMainWaste_mono; [exact Hle | apply Qle_refl].
  - apply Qlt_le_weak, Qinv_lt_0_compat, Hn.
Qed.

End GroupResultCardFacts.

(** ** [exportToDxf]: the entities of the drawing *)

Lemma layoutsEntities_cons {toS : Q -> string} {toF : nat -> Q -> string}
    {round : Q -> Q} offset layout rest :
  layoutsEntities toS toF round offset (layout :: rest)
  = (layoutEntities toS toF round offset layout
       ++ fst (layoutsEntities toS toF round (nextOffset round offset layout) rest),
     snd (layoutsEntities toS toF round (nextOffset round offset layout) rest)).
Proof. simpl. now destruct (layoutsEntities _ _ _ _ rest). Qed.

Lemma groupsEntities_cons {toS : Q -> string} {toF : nat -> Q -> string}
    {round : Q -> Q} offset group rest :
  let sheets :=
    layoutsEntities toS toF round offset (OptimizationGroupResult.layouts group) in
  groupsEntities toS toF round offset (group :: rest)
  = (TextEntity 0 (Rounded.sub round offset 200)
       ("Group " ++ OptimizationGroupResult.materialKey group ++ " T"
        ++ toS (OptimizationGroupResult.thickness group))%string
       "TEXT" 150 7
     :: fst sheets
        ++ fst (groupsEntities toS toF round (Rounded.add round (snd sheets) 1000)
                  rest),
     snd (groupsEntities toS toF round (Rounded.add round (snd sheets) 1000) rest)).
Proof.
  simpl. destruct (layoutsEntities _ _ _ _ _) as [sheets after]. simpl.
  now destruct (groupsEntities _ _ _ _ rest).
Qed.

Section DxfFacts.
Variable Number_toString : Q -> string.
Variable Number_toFixed : nat -> Q -> string.
Variable round : Q -> Q.

Local Abbreviation render := (renderAll Number_toString round).

Lemma renderAll_app l1 l2 : render (l1 ++ l2) = (render l1 ++ render l2)%string.
Proof. unfold renderAll. now rewrite map_app, concat_empty_app. Qed.

Lemma renderAll_nil : render [] = EmptyString.
Proof. reflexivity. Qed.

Lemma renderAll_cons e l :
  render (e :: l) = (renderEntity Number_toString round e ++ render l)%string.
Proof. unfold renderAll. cbn [map]. apply concat_empty_cons. Qed.

Lemma dxfPartStep_entities offset dxf part :
  dxfPartStep Number_toString round offset dxf part
  = (dxf ++ render (partEntities Number_toString round offset part))%string.
Proof.
  unfold dxfPartStep, partEntities.
  destruct (Num.gtb (labelSize round part) 5);
    rewrite !renderAll_cons, renderAll_nil, ?string_app_nil_r,
      ?string_app_assoc; reflexivity.
Qed.

Lemma dxfParts_entities offset parts : forall dxf,
  fold_left (dxfPartStep Number_toString round offset) parts dxf
  = (dxf ++ render (flat_map (partEntities Number_toString round offset) parts))%string.
Proof.
  induction parts as [|part parts IH]; intros dxf; cbn [fold_left flat_map].
  - unfold renderAll. simpl. now rewrite string_app_nil_r.
  - now rewrite IH, dxfPartStep_entities, renderAll_app, string_app_assoc.
Qed.

Lemma dxfLayoutStep_entities dxf offset layout :
  dxfLayoutStep Number_toString Number_toFixed round (dxf, offset) layout
  = ((dxf ++ render (layoutEntities Number_toString Number_toFixed round offset layout))%string,
     (nextOffset round offset layout)).
Proof.
  unfold dxfLayoutStep, layoutEntities. rewrite dxfParts_entities. f_equal.
  rewrite !renderAll_cons. cbn [renderEntity].
  now rewrite !string_app_assoc.
Qed.

Lemma dxfLayouts_entities layouts : forall dxf offset,
  fold_left (dxfLayoutStep Number_toString Number_toFixed round) layouts (dxf, offset)
  = ((dxf ++ render (fst (layoutsEntities Number_toString Number_toFixed round
                            offset layouts)))%string,
     snd (layoutsEntities Number_toString Number_toFixed round offset layouts)).
Proof.
  induction layouts as [|layout layouts IH]; intros dxf offset.
  - cbn [fold_left layoutsEntities fst snd].
    now rewrite renderAll_nil, string_app_nil_r.
  - cbn [fold_left]. rewrite dxfLayoutStep_entities, IH, layoutsEntities_cons.
    cbn [fst snd]. now rewrite renderAll_app, string_app_assoc.
Qed.

Lemma dxfGroups_entities groups : forall dxf offset,
  fold_left (dxfGroupStep Number_toString Number_toFixed round) groups (dxf, offset)
  = ((dxf ++ render (fst (groupsEntities Number_toString Number_toFixed round
                            offset groups)))%string,
     snd (groupsEntities Number_toString Number_toFixed round offset groups)).
Proof.
  induction groups as [|group groups IH]; intros dxf offset.
  - cbn [fold_left groupsEntities fst snd].
    now rewrite renderAll_nil, string_app_nil_r.
  - cbn [fold_left]. unfold dxfGroupStep at 2.
    rewrite dxfLayouts_entities, IH, groupsEntities_cons. cbn [fst snd].
    f_equal. rewrite renderAll_cons, renderAll_app. cbn [renderEntity].
    now rewrite !string_app_assoc.
Qed.

Lemma countPolylines_app layer l1 l2 :
  countPolylines layer (l1 ++ l2)
  = (countPolylines layer l1 + countPolylines layer l2)%nat.
Proof. unfold countPolylines. now rewrite List.filter_app, length_app. Qed.

Lemma count_parts offset parts :
  countPolylines "SHEETS"
    (flat_map (partEntities Number_toString round offset) parts) = 0%nat
  /\ countPolylines "PARTS"
       (flat_map (partEntities Number_toString round offset) parts)
     = List.length parts.
Proof.
  induction parts as [|part parts [IH1 IH2]]; [now split|].
  cbn [flat_map]. rewrite !countPolylines_app, IH1, IH2.
  unfold partEntities. destruct (Num.gtb (labelSize round part) 5); now split.
Qed.

Lemma count_layouts layouts : forall offset,
  countPolylines "SHEETS"
    (fst (layoutsEntities Number_toString Number_toFixed round offset layouts))
  = List.length layouts
  /\ countPolylines "PARTS"
       (fst (layoutsEntities Number_toString Number_toFixed round offset layouts))
     = List.length (flat_map SheetLayout.nestedParts layouts).
Proof.
  induction layouts as [|layout layouts IH]; intros offset; [now split|].
  rewrite layoutsEntities_cons. cbn [fst flat_map].
  destruct (IH (nextOffset round offset layout)) as [IH1 IH2].
  rewrite !countPolylines_app, IH1, IH2, length_app.
  unfold layoutEntities.
  change (?a :: ?b :: ?l) with ([a; b] ++ l).
  rewrite !countPolylines_app.
  destruct (count_parts offset (SheetLayout.nestedParts layout)) as [-> ->].
  now split.
Qed.

Lemma count_groups groups : forall offset,
  countPolylines "SHEETS"
    (fst (groupsEntities Number_toString Number_toFixed round offset groups))
  = List.length (flat_map OptimizationGroupResult.layouts groups)
  /\ countPolylines "PARTS"
       (fst (groupsEntities Number_toString Number_toFixed round offset groups))
     = List.length
         (flat_map (fun group =>
            flat_map SheetLayout.nestedParts
              (OptimizationGroupResult.layouts group)) groups).
Proof.
  induction groups as [|group groups IH]; intros offset; [now split|].
  rewrite groupsEntities_cons. cbn [fst flat_map].
  change (?a :: ?l ++ ?l') with ([a] ++ l ++ l').
  rewrite !countPolylines_app, !length_app.
  destruct (count_layouts (OptimizationGroupResult.layouts group) offset)
    as [-> ->].
  destruct (IH (Rounded.add round
                  (snd (layoutsEntities Number_toString Number_toFixed round offset
                          (OptimizationGroupResult.layouts group))) 1000))
    as [-> ->].
  now split.
Qed.

(** X16. The drawing file is the header, the entities in drawing order and
    the footer, and among the entities there is one closed polyline on
    layer SHEETS per sheet and one on layer PARTS per nested part. *)
Theorem exportToDxf_entities result :
  let entities :=
    fst (groupsEntities Number_toString Number_toFixed round 0
           (OptimizationResult.resultsByGroup result)) in
  exportToDxf Number_toString Number_toFixed round result
  = (dxfHeader ++ render entities ++ dxfFooter)%string
  /\ countPolylines "SHEETS" entities
     = List.length
         (flat_map OptimizationGroupResult.layouts
            (OptimizationResult.resultsByGroup result))
  /\ countPolylines "PARTS" entities
     = List.length
         (flat_map (fun group =>
            flat_map SheetLayout.nestedParts
              (OptimizationGroupResult.layouts group))
            (OptimizationResult.resultsByGroup result)).
Proof.
  cbv zeta. split; [|apply count_groups].
  unfold exportToDxf. rewrite dxfGroups_entities.
  now rewrite string_app_assoc.
Qed.

End DxfFacts.

(** ** [exportToDxf]: where the sheets and the parts are drawn *)

Lemma sheetSpans_app l1 l2 : sheetSpans (l1 ++ l2) = sheetSpans l1 ++ sheetSpans l2.
Proof.
  induction l1 as [|[x y w h layer color|x y text layer height color] l1 IH];
    simpl; [reflexivity | | exact IH].
  destruct (String.eqb layer "SHEETS"); simpl; now rewrite IH.
Qed.

Section DxfGeometry.
Variable Number_toString : Q -> string.
Variable Number_toFixed : nat -> Q -> string.
Variable round : Q -> Q.
Hypothesis round_monotone : Monotone round.
Hypothesis round_idempotent : Idempotent round.
Hypothesis zero_representable : Representable round 0.

Local Abbreviation add := (Rounded.add round).

Lemma sheetSpans_parts offset parts :
  sheetSpans (flat_map (partEntities Number_toString round offset) parts) = [].
Proof.
  induction parts as [|part parts IH]; [reflexivity|].
  cbn [flat_map]. rewrite sheetSpans_app, IH. unfold partEntities.
  now destruct (Num.gtb (labelSize round part) 5).
Qed.

Lemma sheetSpans_layout offset layout :
  sheetSpans (layoutEntities Number_toString Number_toFixed round offset layout)
  = [(offset, SheetLayout.length layout)].
Proof.
  unfold layoutEntities. cbn [sheetSpans]. simpl String.eqb. cbv iota.
  now rewrite sheetSpans_parts.
Qed.

(** A sum is a value of the arithmetic; adding something that is not
    negative to such a value does not give less. *)
Lemma add_representable a b : Representable round (add a b).
Proof. apply round_idempotent. Qed.

Lemma add_above a b : Representable round a -> (0 <= b)%Q -> (a <= add a b)%Q.
Proof.
  intros Ha Hb. unfold Representable in Ha. rewrite <- Ha at 1.
  apply round_monotone. lra.
Qed.

Lemma add_nonneg a b : (0 <= a)%Q -> (0 <= b)%Q -> (0 <= add a b)%Q.
Proof.
  intros Ha Hb. unfold Representable in zero_representable.
  rewrite <- zero_representable at 1. apply round_monotone. lra.
Qed.

(** The next sheet starts where this one ends, or above. *)
Lemma sheet_end_below_next offset layout :
  (0 <= SheetLayout.length layout)%Q ->
  Representable round (SheetLayout.length layout) ->
  (add offset (SheetLayout.length layout) <= nextOffset round offset layout)%Q.
Proof.
  intros Hpos Hrep. unfold nextOffset. apply round_monotone.
  pose proof (add_above (SheetLayout.length layout) 500 Hrep) as H.
  assert (0 <= 500)%Q by discriminate. lra.
Qed.

Lemma nextOffset_above offset layout :
  Representable round offset ->
  (0 <= SheetLayout.length layout)%Q ->
  (offset <= nextOffset round offset layout)%Q.
Proof.
  intros Hrep Hpos. apply add_above; [exact Hrep|].
  apply add_nonneg; [exact Hpos | discriminate].
Qed.

(** A run of sheets drawn from [offset] on: every sheet starts at [offset]
    or further and ends where the next starts or before, the last one at
    the offset that follows the run or before. *)
Lemma layouts_stacked layouts : forall offset,
  Representable round offset ->
  Forall (fun layout => (0 <= SheetLayout.length layout)%Q
                        /\ Representable round (SheetLayout.length layout))
    layouts ->
  let drawn :=
    layoutsEntities Number_toString Number_toFixed round offset layouts in
  (offset <= snd drawn)%Q
  /\ Representable round (snd drawn)
  /\ Forall (fun span => (offset <= fst span)%Q
                         /\ (add (fst span) (snd span) <= snd drawn)%Q)
       (sheetSpans (fst drawn))
  /\ Stacked round (sheetSpans (fst drawn)).
Proof.
  induction layouts as [|layout layouts IH]; intros offset Hoffset Hlen; cbv zeta.
  - cbn. split; [apply Qle_refl|]. split; [exact Hoffset|]. split; constructor.
  - apply Forall_cons_iff in Hlen as [[Hpos Hrep] Hrest].
    rewrite layoutsEntities_cons. cbn [fst snd].
    rewrite sheetSpans_app, sheetSpans_layout. cbn [app].
    pose proof (nextOffset_above offset layout Hoffset Hpos) as Hnext.
    pose proof (sheet_end_below_next offset layout Hpos Hrep) as Hend.
    destruct (IH (nextOffset round offset layout)
                (add_representable _ _) Hrest)
      as [Hfinal [Hfinal' [Hspans Hstacked]]].
    split; [lra|]. split; [exact Hfinal'|]. split.
    + constructor; [cbn [fst snd]; split; lra|].
      eapply List.Forall_impl; [|exact Hspans]. cbv beta. intros span [H1 H2].
      split; [lra | exact H2].
    + constructor; [exact Hstacked|].
      eapply List.Forall_impl; [|exact Hspans]. cbv beta. cbn [fst snd].
      intros span [H1 _]. lra.
Qed.

Lemma groups_stacked groups : forall offset,
  Representable round offset ->
  SheetLengthsDrawable round groups ->
  let drawn :=
    groupsEntities Number_toString Number_toFixed round offset groups in
  (offset <= snd drawn)%Q
  /\ Forall (fun span => (offset <= fst span)%Q
                         /\ (add (fst span) (snd span) <= snd drawn)%Q)
       (sheetSpans (fst drawn))
  /\ Stacked round (sheetSpans (fst drawn)).
Proof.
  induction groups as [|group groups IH]; intros offset Hoffset Hlen; cbv zeta.
  - cbn. split; [apply Qle_refl|]. split; constructor.
  - apply Forall_cons_iff in Hlen as [Hg Hrest].
    rewrite groupsEntities_cons. cbn [fst snd sheetSpans].
    rewrite sheetSpans_app.
    destruct (layouts_stacked (OptimizationGroupResult.layouts group) offset
                Hoffset Hg)
      as [Hafter [Hafter' [Hsheets Hstacked]]].
    set (sheets := layoutsEntities Number_toString Number_toFixed round offset
                     (OptimizationGroupResult.layouts group)) in *.
    assert (Hgap : (snd sheets <= add (snd sheets) 1000)%Q)
      by (apply add_above; [exact Hafter' | discriminate]).
    destruct (IH (add (snd sheets) 1000) (add_representable _ _) Hrest)
      as [Hfinal [Hspans Hstacked']].
    set (others := groupsEntities Number_toString Number_toFixed round
                     (add (snd sheets) 1000) groups) in *.
    split; [lra|]. split.
    + apply Forall_app. split.
      * eapply List.Forall_impl; [|exact Hsheets]. cbv beta.
        intros span [H1 H2]. split; lra.
      * eapply List.Forall_impl; [|exact Hspans]. cbv beta.
        intros span [H1 H2]. split; [lra | exact H2].
    + unfold Stacked. apply StronglySorted_app. split; [|split; assumption].
      intros a b Ha Hb. apply list_elem_of_In in Ha, Hb.
      rewrite List.Forall_forall in Hsheets, Hspans.
      destruct (Hsheets a Ha) as [_ H1]. destruct (Hspans b Hb) as [H2 _]. lra.
Qed.

(** X17. In the drawing the sheets never overlap.  The text of [exportToDxf]
    is the header, the entities as [drawRect] and [drawText] write them, and
    the footer; when the lengths of the sheets are values of the arithmetic
    and none is negative, every sheet boundary among these entities starts
    at [y >= 0], and each one drawn later starts where each one drawn before
    it ends, or above.  This holds for every rounding that
    is monotone and leaves 0 and its own values as they are.  (The 500
    between two sheets is added before it is rounded, so that after rounding
    the distance from the end of one sheet to the start of the next can be
    less than 500; no distance is stated.) *)
Theorem exportToDxf_sheets_stacked result :
  SheetLengthsDrawable round (OptimizationResult.resultsByGroup result) ->
  let entities :=
    fst (groupsEntities Number_toString Number_toFixed round 0
           (OptimizationResult.resultsByGroup result)) in
  exportToDxf Number_toString Number_toFixed round result
  = (dxfHeader ++ renderAll Number_toString round entities ++ dxfFooter)%string
  /\ Stacked round (sheetSpans entities)
  /\ Forall (fun span => (0 <= fst span)%Q) (sheetSpans entities).
Proof.
  intros Hlen. cbv zeta.
  destruct (groups_stacked _ 0%Q zero_representable Hlen)
    as [_ [Hspans Hstacked]].
  split; [|split; [exact Hstacked|]].
  - unfold exportToDxf. rewrite dxfGroups_entities.
    now rewrite string_app_assoc.
  - eapply List.Forall_impl; [|exact Hspans]. cbv beta. tauto.
Qed.

(** X18. A placement that lies within its sheet is drawn from within the
    boundary of that sheet.  The body of the loop over the sheets appends to
    the text the entities of the sheet and moves the offset on; the polyline
    of the part is among these entities, with the width and length exchanged
    when the part is rotated; its left
    side is not left of the left side of the sheet, its right side not right
    of the right side of the sheet, and its lower side not below the lower
    side of the sheet, as [drawRect] computes them.  (The upper side of the
    part is a sum rounded twice and can come out above the upper side of the
    sheet; nothing is stated of it.) *)
Theorem layoutEntities_part_within_sheet offset layout part :
  Representable round offset ->
  In part (SheetLayout.nestedParts layout) ->
  Invariant.insideSheet layout part = true ->
  (forall dxf,
     dxfLayoutStep Number_toString Number_toFixed round (dxf, offset) layout
     = ((dxf ++ renderAll Number_toString round
                  (layoutEntities Number_toString Number_toFixed round
                     offset layout))%string,
        nextOffset round offset layout))
  /\ In (Polyline (NestedPart.x part) (add offset (NestedPart.y part))
          (drawW part) (drawH part) "PARTS" 5)
       (layoutEntities Number_toString Number_toFixed round offset layout)
  /\ In (Polyline 0 offset (SheetLayout.width layout)
           (SheetLayout.length layout) "SHEETS" 7)
       (layoutEntities Number_toString Number_toFixed round offset layout)
  /\ (drawW part == Invariant.effectiveWidth part)%Q
  /\ (drawH part == Invariant.effectiveLength part)%Q
  /\ (0 <= NestedPart.x part)%Q
  /\ (add (NestedPart.x part) (drawW part) <= add 0 (SheetLayout.width layout))%Q
  /\ (offset <= add offset (NestedPart.y part))%Q.
Proof.
  intros Hoffset Hin Hinside.
  assert (HW : (drawW part == Invariant.effectiveWidth part)%Q).
  { unfold drawW, Invariant.effectiveWidth.
    destruct (NestedPart.rotated part); apply orZero_eq. }
  assert (HH : (drawH part == Invariant.effectiveLength part)%Q).
  { unfold drawH, Invariant.effectiveLength.
    destruct (NestedPart.rotated part); apply orZero_eq. }
  unfold Invariant.insideSheet in Hinside.
  rewrite !andb_true_iff, !Num_leb_le in Hinside.
  destruct Hinside as [[[Hx Hy] Hw] Hl].
  split; [intros dxf; apply dxfLayoutStep_entities|].
  split; [|split; [now left|]].
  - unfold layoutEntities. right. right. apply in_flat_map.
    exists part. split; [exact Hin | now left].
  - split; [exact HW|]. split; [exact HH|]. split; [exact Hx|]. split.
    + apply round_monotone. lra.
    + now apply add_above.
Qed.

End DxfGeometry.

(** ** The parts file: what a comma in a text does *)

Section PartsCsvComma.
Variable Number_toString : Q -> string.
Variable parseFloat : string -> option Q.
Variable parseInt : string -> option Q.
Variable uuidv4 : nat -> string.

(** X19. The parts file does not protect its commas: when the grade of a part
    holds a comma, the line written for the part reads back with the grade
    cut at its first comma, so not as the part that was written. *)
Theorem importRow_cuts_grade_at_comma index p (g1 g2 : string) :
  Part.grade p = (g1 ++ "," ++ g2)%string ->
  occurs ","%char g1 = false ->
  occurs "034"%char g1 = false ->
  forallb (fun field => negb (occurs ","%char field))
    [Part.id p; Number_toString (Part.width p);
     Number_toString (Part.length p); Number_toString (Part.quantity p);
     Number_toString (Part.thickness p)] = true ->
  Part.grade (importRow parseFloat parseInt uuidv4 index
                (partLine Number_toString p)) = g1
  /\ Part.grade (importRow parseFloat parseInt uuidv4 index
                   (partLine Number_toString p)) <> Part.grade p.
Proof.
  intros Hgrade Hcomma Hquote Hfields.
  cbn [forallb] in Hfields. rewrite !andb_true_iff, !negb_true_iff in Hfields.
  destruct Hfields as [Hid [Hw [Hl [Hq [Ht _]]]]].
  assert (Hline : partLine Number_toString p
    = (Part.id p ++ String ","%char
        (Number_toString (Part.width p) ++ String ","%char
          (Number_toString (Part.length p) ++ String ","%char
            (Number_toString (Part.quantity p) ++ String ","%char
              (Number_toString (Part.thickness p) ++ String ","%char
                ((doubleQuote ++ g1) ++ String ","%char
                   (g2 ++ doubleQuote ++ ","
                    ++ quoted (Part.projectName p))))))))%string).
  { unfold partLine, quoted. rewrite Hgrade.
    rewrite !string_app_assoc. reflexivity. }
  assert (Hgot : Part.grade (importRow parseFloat parseInt uuidv4 index
                               (partLine Number_toString p)) = g1).
  { unfold importRow. rewrite Hline.
    assert (Hdq : occurs ","%char (doubleQuote ++ g1)%string = false)
      by (rewrite occurs_app, Hcomma; reflexivity).
    rewrite (split_app _ _ _ Hid), (split_app _ _ _ Hw), (split_app _ _ _ Hl),
      (split_app _ _ _ Hq), (split_app _ _ _ Ht), (split_app _ _ _ Hdq).
    cbn [Str.at_ nth_error Part.grade unquotedOrEmpty].
    rewrite remove_app, (remove_plain _ _ Hquote). reflexivity. }
  split; [exact Hgot|].
  rewrite Hgot, Hgrade. intros E.
  apply (f_equal String.length) in E. rewrite string_length_app in E.
  simpl in E. lia.
Qed.

End PartsCsvComma.

(** ** On sample data *)

Lemma handleImportCSV_handleExportCSV_witness :
  partsSurviveCsv Decimal.toString Scan.parseFloat Scan.parseInt Scan.trim
    SampleTable.parts = true
  /\ Forall2 PartEquiv
       (handleImportCSV Scan.parseFloat Scan.parseInt Scan.trim SampleTable.uuid
          (handleExportCSV Decimal.toString SampleTable.parts))
       SampleTable.parts.
Proof.
  split; [vm_compute; reflexivity|].
  apply (handleImportCSV_handleExportCSV Decimal.toString Scan.parseFloat
           Scan.parseInt Scan.trim SampleTable.uuid SampleTable.parts).
  vm_compute. reflexivity.
Defined.

(** The file written for the sample table, and a file whose only line of
    data has no id, one number that does not parse and no text at all. *)
Example parts_file_sample :
  Str.split "010"%char (handleExportCSV Decimal.toString SampleTable.parts)
  = [ "id,width,length,quantity,thickness,grade,projectName";
      "a,1000,2500,10,2," ++ quoted "SS400" ++ "," ++ quoted "Project A";
      "b,500,1500,20,2," ++ quoted "SS400" ++ "," ++ quoted "Project A";
      "c,800,13000,5,3," ++ quoted "A36" ++ "," ++ quoted "Project B";
      "h,1000,2500,1,1.5," ++ quoted "SS400" ++ "," ++ quoted "Project A" ]%string
  /\ handleImportCSV Scan.parseFloat Scan.parseInt Scan.trim SampleTable.uuid
       ("header" ++ Str.newline ++ ",12.5,wide,3.9" ++ Str.newline
        ++ "   " ++ Str.newline)%string
     = [Part.mk "row-0" (125 # 10) 0 3 0 EmptyString EmptyString].
Proof. split; vm_compute; reflexivity. Qed.

Lemma handleImportCSV_skips_first_line_witness :
  occurs "010"%char "id,width,length,quantity,thickness,grade,projectName" = false
  /\ occurs "010"%char "a,1000,2500,10,2" = false
  /\ Forall2 (ReadAlike SampleTable.uuid SampleTable.uuid')
       (handleImportCSV Scan.parseFloat Scan.parseInt Scan.trim SampleTable.uuid
          ("id,width,length,quantity,thickness,grade,projectName"
           ++ String "010"%char ",500,1500,20,2")%string)
       (handleImportCSV Scan.parseFloat Scan.parseInt Scan.trim SampleTable.uuid'
          ("a,1000,2500,10,2" ++ String "010"%char ",500,1500,20,2")%string)
  /\ handleImportCSV Scan.parseFloat Scan.parseInt Scan.trim SampleTable.uuid
       ("id,width,length,quantity,thickness,grade,projectName"
        ++ String "010"%char ",500,1500,20,2")%string
     = handleImportCSV Scan.parseFloat Scan.parseInt Scan.trim SampleTable.uuid
         ("a,1000,2500,10,2" ++ String "010"%char ",500,1500,20,2")%string
  /\ handleImportCSV Scan.parseFloat Scan.parseInt Scan.trim SampleTable.uuid
       "id,width,length,quantity,thickness,grade,projectName" = [].
Proof.
  split; [reflexivity|]. split; [reflexivity|].
  apply (handleImportCSV_skips_first_line Scan.parseFloat Scan.parseInt
           Scan.trim SampleTable.uuid SampleTable.uuid'
           "id,width,length,quantity,thickness,grade,projectName"
           "a,1000,2500,10,2" ",500,1500,20,2"); reflexivity.
Defined.

Lemma handleRunOptimization_completes_witness :
  snd (validateParts Sample.initialParts) = true
  /\ RunCompleted Decimal.toString (ClientReady (Sample.answers Sample.replyGood))
       Sample.initialParts Sample.initialParameters
       (FromClient.handleRunOptimization Decimal.toString
          (ClientReady (Sample.answers Sample.replyGood))
          Sample.initialParts Sample.initialParameters Sample.initialState)
  /\ RunCompleted Decimal.toString (ClientThrows (Some Sample.noKeyInBrowser))
       Sample.initialParts Sample.initialParameters
       (FromClient.handleRunOptimization Decimal.toString
          (ClientThrows (Some Sample.noKeyInBrowser))
          Sample.initialParts Sample.initialParameters Sample.initialState).
Proof.
  assert (H : snd (validateParts Sample.initialParts) = true)
    by (vm_compute; reflexivity).
  split; [exact H|]. split.
  - apply (handleRunOptimization_completes Decimal.toString
             (ClientReady (Sample.answers Sample.replyGood)) Sample.initialParts
             Sample.initialParameters Sample.initialState H).
  - apply (handleRunOptimization_completes Decimal.toString
             (ClientThrows (Some Sample.noKeyInBrowser)) Sample.initialParts
             Sample.initialParameters Sample.initialState H).
Defined.

(** Without a key the constructor throws: its own message is shown, and
    nothing was grouped or sent. *)
Example handleRunOptimization_no_key :
  FromClient.handleRunOptimization Decimal.toString
    (ClientThrows (Some Sample.noKeyInBrowser))
    Sample.initialParts Sample.initialParameters Sample.initialState
  = ([], mkAppState ∅ None false (Some Sample.noKeyInBrowser)).
Proof. vm_compute. reflexivity. Qed.

Lemma deleteRow_addRow_witness :
  Forall (fun p => Part.id p <> "new") Sample.initialParts
  /\ fst (deleteRow "new" (addRow "new" Sample.initialParts) ∅)
     = Sample.initialParts
  /\ Forall (fun p => Part.id p <> "new")
       (fst (deleteRow "new" (addRow "new" Sample.initialParts) ∅))
  /\ snd (deleteRow "new" (addRow "new" Sample.initialParts) ∅) !! "new" = None
  /\ forall k, k <> "new" ->
       snd (deleteRow "new" (addRow "new" Sample.initialParts) ∅) !! k
       = (∅ : gmap string PartError.t) !! k.
Proof.
  assert (H : Forall (fun p => Part.id p <> "new") Sample.initialParts)
    by (repeat constructor; discriminate).
  split; [exact H|].
  apply (deleteRow_addRow "new" Sample.initialParts ∅ H).
Defined.

Lemma deleteRow_unblocks_run_witness :
  (forall p, In p SampleTable.partsWithBlank ->
             hasKeys (partErrorsOf p) = true -> Part.id p = "new")
  /\ snd (validateParts (fst (deleteRow "new" SampleTable.partsWithBlank ∅)))
     = true.
Proof.
  assert (H : forall p, In p SampleTable.partsWithBlank ->
                        hasKeys (partErrorsOf p) = true -> Part.id p = "new").
  { intros p [<-|[<-|[<-|[]]]] Hk; try reflexivity;
      vm_compute in Hk; discriminate. }
  split; [exact H|].
  apply (deleteRow_unblocks_run "new" SampleTable.partsWithBlank ∅ H).
Defined.

Lemma materialKeyOf_same_iff_witness :
  occurs "_" (Decimal.toString (Part.thickness Sample.partA)) = false
  /\ occurs "_" (Decimal.toString (Part.thickness Sample.partB)) = false
  /\ (materialKeyOf Decimal.toString Sample.partA
      = materialKeyOf Decimal.toString Sample.partB
      <-> Part.grade Sample.partA = Part.grade Sample.partB
          /\ Decimal.toString (Part.thickness Sample.partA)
             = Decimal.toString (Part.thickness Sample.partB)).
Proof.
  split; [reflexivity|]. split; [reflexivity|].
  apply (materialKeyOf_same_iff Decimal.toString Sample.partA Sample.partB);
    reflexivity.
Defined.

Lemma exportToCsv_lines_witness :
  csvCellsOnOneLine Decimal.toString Decimal.toFixed Sample.replyTwoSheets = true
  /\ Str.split "010"%char
       (exportToCsv Decimal.toString Decimal.toFixed Sample.replyTwoSheets)
     = csvRows Decimal.toString Decimal.toFixed Sample.replyTwoSheets
  /\ List.length
       (Str.split "010"%char
          (exportToCsv Decimal.toString Decimal.toFixed Sample.replyTwoSheets))
     = S (List.length (nestedPartsInOrder Sample.replyTwoSheets)).
Proof.
  split; [vm_compute; reflexivity|].
  apply (exportToCsv_lines Decimal.toString Decimal.toFixed Sample.replyTwoSheets).
  vm_compute. reflexivity.
Defined.

(** The rounding of the model against the arithmetic of binary64 numbers, on
    sums, differences and quotients with and without rounding error, down
    to the smallest numbers. *)
Example Binary64_round_agrees :
  Binary64.agrees PrimFloat.add Qplus (25002 / 10) (36004 / 10) = true
  /\ Binary64.agrees PrimFloat.add Qplus (1 / 10) (2 / 10) = true
  /\ Binary64.agrees PrimFloat.sub Qminus (3 / 10) (1 / 10) = true
  /\ Binary64.agrees PrimFloat.div Qdiv 1 3 = true
  /\ Binary64.agrees PrimFloat.div Qdiv 334 30 = true
  /\ Binary64.agrees PrimFloat.add Qplus 9007199254740992 1 = true
  /\ Binary64.agrees PrimFloat.add Qplus 9007199254740992 3 = true
  /\ Binary64.agrees PrimFloat.div Qdiv (PrimFloat.next_up 0) 2 = true
  /\ Binary64.agrees PrimFloat.div Qdiv
       (PrimFloat.next_up (PrimFloat.next_up (PrimFloat.next_up 0))) 2 = true
  /\ Binary64.agrees PrimFloat.add Qplus 5010 500 = true.
Proof. repeat split; vm_compute; reflexivity. Qed.

Lemma replyTwoSheets_lengths :
  SheetLengthsDrawable Binary64.round
    (OptimizationResult.resultsByGroup Sample.replyTwoSheets).
Proof. repeat constructor; try discriminate; vm_compute; reflexivity. Qed.

Lemma exportToDxf_sheets_stacked_witness :
  Monotone Binary64.round /\ Idempotent Binary64.round
  /\ Representable Binary64.round 0
  /\ SheetLengthsDrawable Binary64.round
       (OptimizationResult.resultsByGroup Sample.replyTwoSheets)
  /\ Stacked Binary64.round
       (sheetSpans
          (fst (groupsEntities Decimal.toString Decimal.toFixed Binary64.round 0
                  (OptimizationResult.resultsByGroup Sample.replyTwoSheets))))
  /\ Forall (fun span => (0 <= fst span)%Q)
       (sheetSpans
          (fst (groupsEntities Decimal.toString Decimal.toFixed Binary64.round 0
                  (OptimizationResult.resultsByGroup Sample.replyTwoSheets)))).
Proof.
  split; [exact Binary64_round_monotone|].
  split; [exact Binary64_round_idempotent|].
  split; [reflexivity|]. split; [apply replyTwoSheets_lengths|].
  apply (proj2 (exportToDxf_sheets_stacked Decimal.toString Decimal.toFixed
                  Binary64.round Binary64_round_monotone Binary64_round_idempotent
                  (eq_refl : Representable Binary64.round 0)
                  Sample.replyTwoSheets replyTwoSheets_lengths)).
Defined.

(** The two sheets of the sample are drawn from 0 to 5010 and from 5510 to
    8520. *)
Example sheetSpans_sample :
  Forall2 (fun span expected =>
             (fst span == fst expected)%Q /\ (snd span == snd expected)%Q)
    (sheetSpans
       (fst (groupsEntities Decimal.toString Decimal.toFixed Binary64.round 0
               (OptimizationResult.resultsByGroup Sample.replyTwoSheets))))
    [(0, 5010); (5510, 3010)]%Q.
Proof. repeat constructor; vm_compute; reflexivity. Qed.

(** Sheets of 2500.2 and 3600.4, as binary64 numbers: the second ends
    at 6600.6000000000004 and a third would start at 7100.5999999999995,
    less than 500 above, and not below. *)
Example sheets_less_than_500_apart :
  let l1 := Binary64.round (25002 # 10) in
  let l2 := Binary64.round (36004 # 10) in
  let first := SheetLayout.mk 1 1500 l1 [] 0 in
  let second := SheetLayout.mk 2 1500 l2 [] 0 in
  let start2 := nextOffset Binary64.round 0 first in
  let end2 := Rounded.add Binary64.round start2 l2 in
  let start3 := nextOffset Binary64.round start2 second in
  Qle_bool (end2 + 500) start3 = false /\ Qle_bool end2 start3 = true.
Proof. split; vm_compute; reflexivity. Qed.

Lemma layoutEntities_part_within_sheet_witness :
  Monotone Binary64.round
  /\ Representable Binary64.round 5510
  /\ In (NestedPart.mk "b" 0 2505 500 1500 true)
       (SheetLayout.nestedParts Sample.sheetSecond)
  /\ Invariant.insideSheet Sample.sheetSecond
       (NestedPart.mk "b" 0 2505 500 1500 true) = true
  /\ In (Polyline 0 (Rounded.add Binary64.round 5510 2505) 1500 500 "PARTS" 5)
       (layoutEntities Decimal.toString Decimal.toFixed Binary64.round 5510
          Sample.sheetSecond).
Proof.
  assert (Hin : In (NestedPart.mk "b" 0 2505 500 1500 true)
                  (SheetLayout.nestedParts Sample.sheetSecond))
    by (right; now left).
  assert (Hrep : Representable Binary64.round 5510) by (vm_compute; reflexivity).
  split; [exact Binary64_round_monotone|]. split; [exact Hrep|].
  split; [exact Hin|]. split; [reflexivity|].
  exact (proj1 (proj2 (layoutEntities_part_within_sheet Decimal.toString
                         Decimal.toFixed Binary64.round Binary64_round_monotone
                         5510 Sample.sheetSecond
                         (NestedPart.mk "b" 0 2505 500 1500 true)
                         Hrep Hin eq_refl))).
Defined.

Lemma importRow_cuts_grade_at_comma_witness :
  Part.grade SampleTable.partComma = ("SS400" ++ "," ++ "hot")%string
  /\ Part.grade
       (importRow Scan.parseFloat Scan.parseInt SampleTable.uuid 0
          (partLine Decimal.toString SampleTable.partComma))
     = "SS400"
  /\ Part.grade
       (importRow Scan.parseFloat Scan.parseInt SampleTable.uuid 0
          (partLine Decimal.toString SampleTable.partComma))
     <> Part.grade SampleTable.partComma.
Proof.
  split; [reflexivity|].
  apply (importRow_cuts_grade_at_comma Decimal.toString Scan.parseFloat
           Scan.parseInt SampleTable.uuid 0 SampleTable.partComma "SS400" "hot");
    reflexivity.
Defined.

(** A part within its sheet whose upper side is drawn above the upper side
    of the sheet: at the offset 18500, a part at y = 2500.2 of length 500.4
    on a sheet as long as the sum of the two, all binary64 numbers. *)
Example part_upper_side_above_sheet :
  let y := Binary64.round (25002 # 10) in
  let h := Binary64.round (5004 # 10) in
  let part := NestedPart.mk "p" 0 y 500 h false in
  let sheet := SheetLayout.mk 1 1500 (Binary64.round (y + h)) [part] 0 in
  Invariant.insideSheet sheet part = true
  /\ Qle_bool
       (Rounded.add Binary64.round (Rounded.add Binary64.round 18500 y) h)
       (Rounded.add Binary64.round 18500 (SheetLayout.length sheet))
     = false.
Proof. split; vm_compute; reflexivity. Qed.

(** The group card of three sheets, and the same with more waste on the
    first. *)
Lemma wasteSplit_figures_witness :
  Monotone Binary64.round
  /\ [Sample.sheetOverlap; Sample.sheetGood] <> []
  /\ Forall2 (fun l l' => (SheetLayout.wastePercentage l
                           <= SheetLayout.wastePercentage l')%Q)
       [Sample.sheetOverlap; Sample.sheetGood]
       [Sample.sheetGood; Sample.sheetGood]
  /\ snd (wasteSplit Binary64.round
            [Sample.sheetOverlap; Sample.sheetGood; Sample.sheetSecond])
     = (334 # 10)%Q
  /\ (fst (wasteSplit Binary64.round
             [Sample.sheetOverlap; Sample.sheetGood; Sample.sheetSecond])
      <= fst (wasteSplit Binary64.round
                [Sample.sheetGood; Sample.sheetGood; Sample.sheetTooLong]))%Q.
Proof.
  assert (Hmain : [Sample.sheetOverlap; Sample.sheetGood] <> []) by discriminate.
  assert (Hle : Forall2 (fun l l' => (SheetLayout.wastePercentage l
                                      <= SheetLayout.wastePercentage l')%Q)
                  [Sample.sheetOverlap; Sample.sheetGood]
                  [Sample.sheetGood; Sample.sheetGood])
    by (repeat constructor; discriminate).
  split; [exact Binary64_round_monotone|]. split; [exact Hmain|].
  split; [exact Hle|].
  destruct (wasteSplit_figures Decimal.toFixed Binary64.round
              Binary64_round_monotone
              [Sample.sheetOverlap; Sample.sheetGood]
              [Sample.sheetGood; Sample.sheetGood]
              Sample.sheetSecond Sample.sheetTooLong Hmain Hle)
    as [Hlast [_ [_ [_ [Hmono _]]]]].
  split; [exact Hlast | exact Hmono].
Defined.

(** The mean of 0.1, 0.3 and 3.3, as binary64 numbers, before a last sheet
    of 0.1: three times the main figure plus the last figure is not the sum
    of the four, which the exact mean would give. *)
Example wasteSplit_mean_is_rounded :
  let sheet waste := SheetLayout.mk 1 1500 3000 [] (Binary64.round waste) in
  let layouts := [sheet (1 # 10); sheet (3 # 10); sheet (33 # 10); sheet (1 # 10)] in
  let figures := wasteSplit Binary64.round layouts in
  let sum := fold_left (fun sum l =>
                          Rounded.add Binary64.round sum
                            (SheetLayout.wastePercentage l)) layouts 0%Q in
  Qeq_bool (Rounded.add Binary64.round
              (Binary64.round (fst figures * 3)) (snd figures)) sum = false.
Proof. vm_compute. reflexivity. Qed.

(** The table with a blank row and a fractional quantity: two entries. *)
Lemma validateParts_reports_only_faulty_witness :
  idsAreOwnKeys Sample.faultyParts = true
  /\ ErrorsObject.prototype (fst (ErrorsObject.validateParts Sample.faultyParts))
     = None
  /\ ErrorsObject.entries (fst (ErrorsObject.validateParts Sample.faultyParts))
     = fst (validateParts Sample.faultyParts)
  /\ snd (ErrorsObject.validateParts Sample.faultyParts) = false.
Proof.
  split; [reflexivity|].
  destruct (validateParts_reports_only_faulty Sample.faultyParts)
    as [Hproto [Hentries [Hvalid _]]]; [reflexivity|].
  split; [exact Hproto|]. split; [exact Hentries|].
  rewrite Hvalid. vm_compute. reflexivity.
Defined.

(** A table whose only faulty row has the id [__proto__]: refused, and no
    entry to show for it. *)
Lemma validateParts_proto_row_unlisted_witness :
  existsb faulty [Sample.partA; SampleTable.partProto] = true
  /\ forallb (fun p => negb (faulty p) || negb (isOwnKey p))
       [Sample.partA; SampleTable.partProto] = true
  /\ snd (ErrorsObject.validateParts [Sample.partA; SampleTable.partProto])
     = false
  /\ ErrorsObject.entries
       (fst (ErrorsObject.validateParts [Sample.partA; SampleTable.partProto]))
     = ∅.
Proof.
  split; [vm_compute; reflexivity|]. split; [vm_compute; reflexivity|].
  destruct (validateParts_proto_row_unlisted
              [Sample.partA; SampleTable.partProto])
    as [Hvalid [_ [Hentries _]]]; [vm_compute; reflexivity ..|].
  split; [exact Hvalid | exact Hentries].
Defined.

(** A label with a line break in it is written on one line. *)
Lemma drawText_lines_witness :
  forallb (fun line => negb (occurs "010"%char line))
    ["TEXT"; Decimal.toString 7; Decimal.toString 10; Decimal.toString 10;
     Decimal.toString 50] = true
  /\ exists label,
       Str.split "010"%char
         (drawText Decimal.toString 10 10 Sample.brokenId "TEXT" 50 7)
       = [ "0"; "TEXT"; "8"; "TEXT"; "62"; Decimal.toString 7;
           "10"; Decimal.toString 10; "20"; Decimal.toString 10;
           "40"; Decimal.toString 50; "1"; label; EmptyString ]
       /\ printable label = true.
Proof.
  split; [vm_compute; reflexivity|].
  destruct (drawText_lines Decimal.toString 10 10 Sample.brokenId "TEXT" 50 7)
    as [label [Hlines [Hlabel _]]]; [vm_compute; reflexivity|].
  exists label. split; assumption.
Defined.
